(** * Trade-lot accounting engine of portfolio_tracker

    A shallow embedding of the accounting core of [main.js] (and of the
    twin functions of [server.js] where they differ): the currency
    converter, the symbol decoder, the trade normalizer, the FIFO lot
    engine and the capital gains reporter.

    Modelling conventions.
    - A JS number is an exact rational ([Q]); rounding and overflow of
      binary64 are outside that model.  Equalities between computed
      amounts are stated with [==].  The normalizer coerces NaN to 0, so
      quantities and amounts are numbers; a cost per unit is a quotient
      by a quantity, which [Qdiv] makes 0 for a quantity of 0 where JS
      gives an infinity or NaN.  The loops branch on quantities only, so
      their control flow is not affected; the statements about costs
      either hold for whatever cost per unit a lot records, or assume
      lots of positive quantity.  The converter is given a second time
      on binary64 numbers ([Binary64]), for what is said of infinities
      and overflow.
    - A JS [Date] is its time value, an integer number of milliseconds
      since the epoch ([Z]).  Where a function can return an Invalid
      Date ([parseCSVDate], through [convertTimezoneToLocal]) its result
      is an [option], [None] being the Invalid Date.
    - The key [date.toISOString().split('T')[0]] of the rate table is the
      UTC calendar day of the date; the model uses the number of that day
      (days since 1970-01-01), of which the ISO text is an injective
      rendering.
    - The local time zone of the process is a [Zone]: the offset of local
      time from UTC at each UTC time value and at each local time value,
      which may change with the instant (daylight saving).  The wall
      clock [new Date()] is the parameter [now].
    - An object used as a map ([symbolGroups]) is the list of its own
      properties in the order [Object.keys] gives them. *)

From Stdlib Require Import ZArith QArith Qminmax Qabs Lia Lqa List Bool Ascii String.
From Stdlib Require Import Sorting.Sorted Sorting.Permutation.
From Stdlib Require Import Floats.
From stdpp Require Import base option gmap strings.

Import ListNotations.
Local Open Scope string_scope.
Local Open Scope list_scope.
Local Open Scope Z_scope.

(** ** Calendar *)

Module Calendar.

Definition msPerDay : Z := 1000 * 60 * 60 * 24.

(** Day number of the civil date y-m-d of the proleptic Gregorian
    calendar, for a month m in 1..12 (ECMAScript's day numbering:
    1970-01-01 is day 0). *)
Definition days_from_civil (y m d : Z) : Z :=
  let y' := if m <=? 2 then y - 1 else y in
  let era := y' / 400 in
  let yoe := y' - era * 400 in
  let mp := if 2 <? m then m - 3 else m + 9 in
  let doy := (153 * mp + 2) / 5 + d - 1 in
  let doe := yoe * 365 + yoe / 4 - yoe / 100 + doy in
  era * 146097 + doe - 719468.

(** ECMAScript MakeDay(year, month, date): the month index is 0-based
    and may lie outside 0..11, in which case it carries into the year;
    the day of month may lie outside the month and carries likewise. *)
Definition MakeDay (year month date : Z) : Z :=
  let ym := year + month / 12 in
  let mn := month mod 12 in
  days_from_civil ym (mn + 1) 1 + date - 1.

(** [new Date("YYYY-MM-DD")]: midnight UTC of that day. *)
Definition utcMidnight (y m d : Z) : Z := days_from_civil y m d * msPerDay.

(** The local time zone of the process, as ECMAScript reads it: the
    offset of local time from UTC, in milliseconds, at a UTC time value
    ([LocalTZA(t, true)]) and at a local time value ([LocalTZA(t, false)]).
    The offset may change with the instant, as with daylight saving. *)
Record Zone := mkZone {
  offsetAtUTC : Z -> Z;
  offsetAtLocal : Z -> Z
}.

(** A zone whose offset never changes. *)
Definition fixedZone (tz : Z) : Zone :=
  {| offsetAtUTC := fun _ => tz; offsetAtLocal := fun _ => tz |}.

(** ECMAScript LocalTime(t) and UTC(t). *)
Definition LocalTime (zone : Zone) (t : Z) : Z := t + offsetAtUTC zone t.

Definition UTC (zone : Zone) (t : Z) : Z := t - offsetAtLocal zone t.

(** [new Date(year, monthIndex, day)]: midnight local time. *)
Definition localDate (zone : Zone) (year monthIndex day : Z) : Z :=
  UTC zone (MakeDay year monthIndex day * msPerDay).

(** [date.toISOString().split('T')[0]], as a day number. *)
Definition dateKey (t : Z) : Z := t / msPerDay.

(** [d.setDate(d.getDate() + i)] on a copy of the date: the local time
    of the date moves by [i] days on the local calendar, keeping its time
    of day, and is read back as a UTC time value with the offset in force
    at the new local time.  Only where the offset is the same at both
    ends is this a shift by [i] whole days. *)
Definition addDays (zone : Zone) (t i : Z) : Z :=
  UTC zone (LocalTime zone t + i * msPerDay).

End Calendar.
Export Calendar.

(** ** Currency converter *)

(** [currencyRates]: the module-level [Map] from date key to the
    USD to AUD rate. *)
Abbreviation RateTable := (gmap Z Q).

(** The guard shared by [downloadCurrencyData], [loadCurrencyRatesFromFile]
    and [loadCurrencyRates]: a parsed row is a date (None when the date
    text does not parse) and a rate (None when [parseFloat] gives NaN);
    it is stored only when [dateStr && !isNaN(rate) && rate > 0] and the
    date is valid.  The date of a row is noon UTC of its day. *)
Definition storeRate (table : RateTable) (row : option Z * option Q) : RateTable :=
  match row with
  | (Some date, Some rate) =>
      if Qlt_le_dec 0 rate then <[dateKey date := rate]> table else table
  | _ => table
  end.

Definition loadRates (rows : list (option Z * option Q)) : RateTable :=
  fold_left storeRate rows ∅.

Definition fallbackRate : Q := 3 # 2.

(** The probing loop of [getUSDToAUDRate] of main.js, counting [i] up
    from [8 - n] to 7: earlier day first, then later day. *)
Fixpoint probeRates (zone : Zone) (table : RateTable) (date : Z) (i : Z) (n : nat)
    : option Q :=
  match n with
  | O => None
  | S n' =>
      match table !! dateKey (addDays zone date (- i)) with
      | Some r => Some r
      | None =>
          match table !! dateKey (addDays zone date i) with
          | Some r => Some r
          | None => probeRates zone table date (i + 1) n'
          end
      end
  end.

Definition getUSDToAUDRate (zone : Zone) (table : RateTable) (date : Z) : Q :=
  match table !! dateKey date with
  | Some r => r
  | None =>
      match probeRates zone table date 1 7 with
      | Some r => r
      | None => fallbackRate
      end
  end.

(** The two normalizations at the head of [convertCurrency]. *)
Definition fromCurrencyOf (fromMarket : string) : string :=
  if String.eqb fromMarket "AU" then "AUD" else "USD".

Definition targetCurrencyOf (toCurrency : string) : string :=
  if String.eqb toCurrency "AU" then "AUD"
  else if String.eqb toCurrency "US" then "USD" else toCurrency.

Definition convertCurrency (zone : Zone) (table : RateTable)
    (amount : Q) (fromMarket toCurrency : string) (tradeDate : Z) : Q :=
  let fromCurrency := fromCurrencyOf fromMarket in
  let targetCurrency := targetCurrencyOf toCurrency in
  if String.eqb fromCurrency targetCurrency then amount
  else
    let usdToAudRate := getUSDToAUDRate zone table tradeDate in
    if String.eqb fromCurrency "USD" && String.eqb targetCurrency "AUD"
    then (amount * usdToAudRate)%Q
    else if String.eqb fromCurrency "AUD" && String.eqb targetCurrency "USD"
    then (amount / usdToAudRate)%Q
    else amount.

(** [getUSDToAUDRate] of server.js: a scan of the whole table for the
    entry nearest in elapsed time to the date, at most 7 days away from
    the UTC midnight of the entry's key; [nearestRate || 1.5].  The scan
    follows the insertion order of the [Map]; the model scans the entries
    as an association list in that order, its keys distinct as in a
    [Map]. *)
Module Server.

Definition scanStep (targetTime : Z) (acc : option Q * option Z) (entry : Z * Q)
    : option Q * option Z :=
  let '(nearestRate, nearestDiff) := acc in
  let '(key, rate) := entry in
  let diff := Z.abs (targetTime - key * msPerDay) in
  if (diff <=? 7 * msPerDay)
     && (match nearestDiff with None => true | Some nd => diff <? nd end)
  then (Some rate, Some diff) else acc.

Definition getUSDToAUDRate (entries : list (Z * Q)) (date : Z) : Q :=
  match list_find (fun e => bool_decide (fst e = dateKey date)) entries with
  | Some (_, e) => snd e
  | None =>
      match fst (fold_left (scanStep date) entries (None, None)) with
      | Some r => if Qeq_bool r 0 then fallbackRate else r
      | None => fallbackRate
      end
  end.

End Server.

(** ** The converter on binary64 numbers

    The guard of the loaders, the lookup and the conversion once more,
    on the numbers JavaScript computes with, for what exact arithmetic
    cannot show: a number can be an infinity, and a product or quotient
    of finite numbers can overflow.  A rate that [parseFloat] could not
    read is NaN. *)
Module Binary64.

Abbreviation RateTable := (gmap Z float).

Definition isFinite (x : float) : bool :=
  negb (PrimFloat.is_nan x) && negb (PrimFloat.is_infinity x).

(** [dateStr && !isNaN(rate) && rate > 0], and a valid date. *)
Definition storeRate (table : RateTable) (row : option Z * float) : RateTable :=
  match row with
  | (Some date, rate) =>
      if negb (PrimFloat.is_nan rate) && PrimFloat.ltb 0%float rate
      then <[dateKey date := rate]> table else table
  | _ => table
  end.

Definition loadRates (rows : list (option Z * float)) : RateTable :=
  fold_left storeRate rows ∅.

Definition fallbackRate : float := 1.5%float.

Fixpoint probeRates (zone : Zone) (table : RateTable) (date : Z) (i : Z) (n : nat)
    : option float :=
  match n with
  | O => None
  | S n' =>
      match table !! dateKey (addDays zone date (- i)) with
      | Some r => Some r
      | None =>
          match table !! dateKey (addDays zone date i) with
          | Some r => Some r
          | None => probeRates zone table date (i + 1) n'
          end
      end
  end.

Definition getUSDToAUDRate (zone : Zone) (table : RateTable) (date : Z) : float :=
  match table !! dateKey date with
  | Some r => r
  | None =>
      match probeRates zone table date 1 7 with
      | Some r => r
      | None => fallbackRate
      end
  end.

Definition convertCurrency (zone : Zone) (table : RateTable)
    (amount : float) (fromMarket toCurrency : string) (tradeDate : Z) : float :=
  let fromCurrency := fromCurrencyOf fromMarket in
  let targetCurrency := targetCurrencyOf toCurrency in
  if String.eqb fromCurrency targetCurrency then amount
  else
    let usdToAudRate := getUSDToAUDRate zone table tradeDate in
    if String.eqb fromCurrency "USD" && String.eqb targetCurrency "AUD"
    then PrimFloat.mul amount usdToAudRate
    else if String.eqb fromCurrency "AUD" && String.eqb targetCurrency "USD"
    then PrimFloat.div amount usdToAudRate
    else amount.

End Binary64.

(** ** Symbol decoder *)

Inductive OptionType := Call | Put.

Record OptionsInfo := mkOptionsInfo {
  underlying : string;
  expiryDate : Z;
  optionType : OptionType;
  strikePrice : Q;
  isExpired : bool
}.

Definition isUpper (c : ascii) : bool :=
  let n := nat_of_ascii c in (65 <=? n)%nat && (n <=? 90)%nat.

Definition isDigit (c : ascii) : bool :=
  let n := nat_of_ascii c in (48 <=? n)%nat && (n <=? 57)%nat.

Definition digitValue (c : ascii) : Z := Z.of_nat (nat_of_ascii c) - 48.

(** [parseInt] of a text made of decimal digits only. *)
Definition parseDigits (l : list ascii) : Z :=
  fold_left (fun acc c => acc * 10 + digitValue c) l 0.

Fixpoint spanWhile (p : ascii -> bool) (l : list ascii) : list ascii * list ascii :=
  match l with
  | c :: r => if p c then let '(a, b) := spanWhile p r in (c :: a, b) else ([], l)
  | [] => ([], [])
  end.

(** The match of [/^([A-Z]+)(\d{6})([CP])(\d+)$/]: the four groups.
    Letters and digits are disjoint classes, so the greedy letter group
    is the whole leading run of capitals and no backtracking can
    succeed where this direct split fails. *)
Definition matchOptionsRegex (symbol : string)
    : option (list ascii * list ascii * ascii * list ascii) :=
  let '(letters, rest) := spanWhile isUpper (list_ascii_of_string symbol) in
  match letters with
  | [] => None
  | _ =>
      let expiryStr := firstn 6 rest in
      if (length expiryStr =? 6)%nat && forallb isDigit expiryStr then
        match skipn 6 rest with
        | cp :: strikeStr =>
            if (Ascii.eqb cp "C" || Ascii.eqb cp "P")
               && negb (length strikeStr =? 0)%nat && forallb isDigit strikeStr
            then Some (letters, expiryStr, cp, strikeStr)
            else None
        | [] => None
        end
      else None
  end.

Section Decoder.

(** The wall clock and the local time zone. *)
Variable now : Z.
Variable zone : Zone.

Definition parseOptionsSymbol (symbol : string) : option OptionsInfo :=
  match matchOptionsRegex symbol with
  | Some (letters, expiryStr, cp, strikeStr) =>
      let expiryYear := 2000 + parseDigits (firstn 2 expiryStr) in
      let expiryMonth := parseDigits (firstn 2 (skipn 2 expiryStr)) in
      let expiryDay := parseDigits (firstn 2 (skipn 4 expiryStr)) in
      let expiry := localDate zone expiryYear (expiryMonth - 1) expiryDay in
      Some {| underlying := string_of_list_ascii letters;
              expiryDate := expiry;
              optionType := if Ascii.eqb cp "C" then Call else Put;
              strikePrice := (inject_Z (parseDigits strikeStr) / 1000)%Q;
              isExpired := expiry <? now |}
  | None => None
  end.

Definition isOption (symbol : string) : bool :=
  match parseOptionsSymbol symbol with Some _ => true | None => false end.

Definition getMultiplier (symbol : string) : Q :=
  if isOption symbol then 100%Q else 1%Q.

End Decoder.

(** ** Outcomes

    A call either returns or throws (the accounting code can raise a
    [TypeError], from a method call on [undefined], and a [RangeError],
    from [toISOString] on an Invalid Date).  In the model only, it can
    also run out of the fuel that bounds a [while] loop, or reach a
    trade that carries an Invalid Date without throwing: the trades are
    then sorted with a comparator that returns NaN, an order the
    language leaves to the implementation, and the model does not follow
    the computation further ([InvalidDate]). *)

Inductive Outcome (A : Type) : Type :=
| Ok (a : A)
| Throw
| OutOfFuel
| InvalidDate.

Arguments Ok {A} a.
Arguments Throw {A}.
Arguments OutOfFuel {A}.
Arguments InvalidDate {A}.

#[global] Instance Outcome_ret : MRet Outcome := fun A a => Ok a.

#[global] Instance Outcome_bind : MBind Outcome := fun A B k m =>
  match m with
  | Ok a => k a
  | Throw => Throw
  | OutOfFuel => OutOfFuel
  | InvalidDate => InvalidDate
  end.

Fixpoint foldM {A S : Type} (f : S -> A -> Outcome S) (l : list A) (s : S) : Outcome S :=
  match l with
  | [] => Ok s
  | a :: r => s' ← f s a; foldM f r s'
  end.

(** ** Number comparisons and coercions *)

Definition Qgtb (a b : Q) : bool := if Qlt_le_dec b a then true else false.

Infix ">?" := Qgtb (at level 70, no associativity) : Q_scope.

(** ** Trades *)

Inductive Currency := USD | AUD.

(** The objects pushed on [symbolGroups[symbol]].  [calculateCapitalGains]
    fills the three AUD fields and no [originalCurrency];
    [calculateFIFOPnL] fills [originalCurrency] and leaves the AUD fields
    absent (it never reads them: the model holds 0 there).  An absent or
    empty [name] is the empty string. *)
Record Trade := mkTrade {
  side : string;
  qty : Q;
  price : Q;
  amount : Q;
  date : Z;
  commission : Q;
  fees : Q;
  symbol : string;
  name : string;
  market : string;
  amountAUD : Q;
  commissionAUD : Q;
  feesAUD : Q;
  originalCurrency : option Currency;
  isSynthetic : bool
}.

(** *** Stable sort by date: [arr.sort((a, b) => a.date - b.date)] *)

Fixpoint insertByDate (t : Trade) (l : list Trade) : list Trade :=
  match l with
  | [] => [t]
  | h :: r => if date t <=? date h then t :: h :: r else h :: insertByDate t r
  end.

Definition sortByDate (l : list Trade) : list Trade :=
  fold_right insertByDate [] l.

(** *** Symbol groups: the object [symbolGroups]

    The object is kept as the list of its own properties in the order
    [Object.keys] enumerates them: the keys that are array indices in
    ascending numeric order, then the other keys in the order they were
    created.  [symbolGroups] is a plain object, so a symbol that names a
    property of [Object.prototype] ([inheritedKey]) is found there
    before any trade is pushed and [push] is then a call on a value
    without that method, a TypeError; the engine is modelled for the
    symbols that are not such names. *)

Abbreviation Groups := (list (string * list Trade)).

(** An array index: the canonical decimal text of a whole number from 0
    to 2^32 - 2. *)
Definition arrayIndex (s : string) : option Z :=
  let cs := list_ascii_of_string s in
  match cs with
  | [] => None
  | c :: r =>
      if forallb isDigit cs
         && (negb (Ascii.eqb c "0") || match r with [] => true | _ => false end)
         && (parseDigits cs <=? 4294967294)
      then Some (parseDigits cs)
      else None
  end.

(** A new key is enumerated before an old one. *)
Definition keyBefore (new old : string) : bool :=
  match arrayIndex new, arrayIndex old with
  | Some i, Some j => i <? j
  | Some _, None => true
  | None, _ => false
  end.

(** The names symbolGroups[symbol] finds on [Object.prototype]. *)
Definition inheritedKey (s : string) : bool :=
  existsb (String.eqb s)
    ["constructor"; "__defineGetter__"; "__defineSetter__"; "hasOwnProperty";
     "__lookupGetter__"; "__lookupSetter__"; "isPrototypeOf";
     "propertyIsEnumerable"; "toString"; "valueOf"; "__proto__";
     "toLocaleString"].

Fixpoint groupLookup (groups : Groups) (s : string) : option (list Trade) :=
  match groups with
  | [] => None
  | (s', g) :: r => if String.eqb s' s then Some g else groupLookup r s
  end.

(** The assignment of an empty array to a key that is not there yet. *)
Fixpoint defineKey (groups : Groups) (s : string) : Groups :=
  match groups with
  | [] => [(s, [])]
  | (s', g) :: r =>
      if keyBefore s s' then (s, []) :: (s', g) :: r else (s', g) :: defineKey r s
  end.

(** The push onto the array of a key. *)
Fixpoint pushTo (groups : Groups) (s : string) (t : Trade) : Groups :=
  match groups with
  | [] => []
  | (s', g) :: r =>
      if String.eqb s' s then (s', g ++ [t]) :: r else (s', g) :: pushTo r s t
  end.

(** One turn of the grouping loop: the key is created with an empty
    array unless it is there, then the trade is pushed. *)
Definition groupPush (groups : Groups) (t : Trade) : Groups :=
  pushTo (match groupLookup groups (symbol t) with
          | Some _ => groups
          | None => defineKey groups (symbol t)
          end) (symbol t) t.

Definition groupBySymbol (trades : list Trade) : Groups :=
  fold_left groupPush trades [].


(** ** Synthetic closes of expired options *)

(** [remainingHoldings] of [addExpiredOptionsLosses], and [netPosition]
    of [calculateHistoricalCostBasis]. *)
Definition netStep (acc : Q) (t : Trade) : Q :=
  if String.eqb (side t) "Buy" then (acc + qty t)%Q
  else if String.eqb (side t) "Sell" then (acc - qty t)%Q
  else acc.

Definition remainingHoldings (trades : list Trade) : Q :=
  fold_left netStep trades 0%Q.

Definition tolerance : Q := 1 # 100.

(** [trades.find(t => t.name) || trades[0]] *)
Definition sampleTrade (trades : list Trade) : option Trade :=
  match find (fun t => negb (String.eqb (name t) "")) trades with
  | Some t => Some t
  | None => head trades
  end.

Definition syntheticSell (sym : string) (q : Q) (expiry : Z)
    (nm mkt : string) : Trade :=
  {| side := "Sell"; qty := q; price := 0; amount := 0; date := expiry;
     commission := 0; fees := 0; symbol := sym; name := nm; market := mkt;
     amountAUD := 0; commissionAUD := 0; feesAUD := 0;
     originalCurrency := None; isSynthetic := true |}.

Section Engine.

Variable now : Z.
Variable zone : Zone.

(** The body of the first [forEach] of [addExpiredOptionsLosses] for
    one symbol: the group is sorted in place and, if the holdings left
    exceed the tolerance, receives the synthetic sell. *)
Definition addExpiredToGroup (sym : string) (group : list Trade) : list Trade :=
  match parseOptionsSymbol now zone sym with
  | Some info =>
      if isExpired info then
        let trades := sortByDate group in
        let remaining := remainingHoldings trades in
        if (remaining >? tolerance)%Q then
          let sample := sampleTrade trades in
          trades ++ [syntheticSell sym remaining (expiryDate info)
                       (match sample with Some t => name t | None => sym end)
                       (match sample with Some t => market t | None => "US" end)]
        else trades
      else group
  | None => group
  end.

(** [calculateHistoricalCostBasis], reduced to what
    [addExpiredOptionsLosses] reads of its result: the symbols of net
    position above 0, each with that position. *)
Definition calculateHistoricalCostBasis (allTrades : list Trade) : list (string * Q) :=
  omap (fun '(s, g) =>
          let net := remainingHoldings (sortByDate g) in
          if (net >? 0)%Q then Some (s, net) else None)
       (groupBySymbol allTrades).

(** The body of the second [forEach]: a symbol without a group gets one
    holding only a synthetic sell.  The symbol is an option symbol, which
    begins with a letter and is no array index, so the new group is
    enumerated after the groups that are there. *)
Definition addHistorical (groups : Groups) (pos : string * Q) : Groups :=
  let '(sym, netPosition) := pos in
  match groupLookup groups sym with
  | Some _ => groups
  | None =>
      match parseOptionsSymbol now zone sym with
      | Some info =>
          if isExpired info && (netPosition >? tolerance)%Q
          then groups ++ [(sym, [syntheticSell sym netPosition (expiryDate info) sym "US"])]
          else groups
      | None => groups
      end
  end.

Definition addExpiredOptionsLosses (groups : Groups) (allTrades : list Trade) : Groups :=
  let groups1 := map (fun '(s, g) => (s, addExpiredToGroup s g)) groups in
  fold_left addHistorical (calculateHistoricalCostBasis allTrades) groups1.

End Engine.

(** ** FIFO lot engine: [calculateFIFOPnL] *)

(** An entry of [holdingsQueue]. *)
Record Holding := mkHolding {
  h_qty : Q;
  h_costBasis : Q;
  h_costPerShare : Q;
  h_currency : Currency;
  h_date : Z;
  h_isShort : bool
}.

(** [{ USD: _, AUD: _ }] *)
Record ByCurrency := mkByCurrency { usd : Q; aud : Q }.

Definition addTo (c : Currency) (x : Q) (b : ByCurrency) : ByCurrency :=
  match c with
  | USD => {| usd := usd b + x; aud := aud b |}
  | AUD => {| usd := usd b; aud := aud b + x |}
  end%Q.

(** The variables of one symbol's replay. *)
Record FifoState := mkFifoState {
  holdingsQueue : list Holding;
  realizedPnLByCurrency : ByCurrency;
  buyVolumeByCurrency : ByCurrency;
  sellVolumeByCurrency : ByCurrency;
  totalBuyAmount : Q;
  totalBuyQty : Q
}.

Definition initialFifoState : FifoState :=
  {| holdingsQueue := [];
     realizedPnLByCurrency := mkByCurrency 0 0;
     buyVolumeByCurrency := mkByCurrency 0 0;
     sellVolumeByCurrency := mkByCurrency 0 0;
     totalBuyAmount := 0; totalBuyQty := 0 |}.

(** The [while (remainingQtyToSell > 0 && holdingsQueue.length > 0)] loop
    of a sell; each unit of fuel pays for one test of the condition.
    Returns the quantity left to sell, the queue and
    [totalCostBasisSold]. *)
Fixpoint sellLoop (fuel : nat) (remainingQtyToSell : Q)
    (queue : list Holding) (totalCostBasisSold : Q)
    : Outcome (Q * list Holding * Q) :=
  match fuel with
  | O => OutOfFuel
  | S fuel' =>
      match queue with
      | holding :: rest =>
          if (remainingQtyToSell >? 0)%Q then
            let qtyFromThisHolding := Qmin remainingQtyToSell (h_qty holding) in
            let costBasisForThisQty :=
              (h_costPerShare holding * qtyFromThisHolding)%Q in
            let holding' :=
              {| h_qty := h_qty holding - qtyFromThisHolding;
                 h_costBasis := h_costBasis holding - costBasisForThisQty;
                 h_costPerShare := h_costPerShare holding;
                 h_currency := h_currency holding;
                 h_date := h_date holding;
                 h_isShort := h_isShort holding |}%Q in
            sellLoop fuel' (remainingQtyToSell - qtyFromThisHolding)%Q
              (if Qle_bool (h_qty holding') 0 then rest else holding' :: rest)
              (totalCostBasisSold + costBasisForThisQty)%Q
          else Ok (remainingQtyToSell, queue, totalCostBasisSold)
      | [] => Ok (remainingQtyToSell, queue, totalCostBasisSold)
      end
  end.

(** Fuel that always suffices: an iteration either removes the head or
    leaves nothing to sell. *)
Definition sellFuel (queue : list Holding) : nat := S (length queue).

Definition tradeCurrencyOf (t : Trade) : Currency :=
  match originalCurrency t with Some c => c | None => USD end.

(** The body of [trades.forEach(trade => ...)]. *)
Definition fifoStep (st : FifoState) (trade : Trade) : Outcome FifoState :=
  let tradeCurrency := tradeCurrencyOf trade in
  if String.eqb (side trade) "Buy" then
    let totalCost := (amount trade + commission trade + fees trade)%Q in
    Ok {| holdingsQueue :=
            holdingsQueue st ++
            [ {| h_qty := qty trade;
                 h_costBasis := totalCost;
                 h_costPerShare := totalCost / qty trade;
                 h_currency := tradeCurrency;
                 h_date := date trade;
                 h_isShort := false |}%Q ];
          realizedPnLByCurrency := realizedPnLByCurrency st;
          buyVolumeByCurrency :=
            addTo tradeCurrency (amount trade) (buyVolumeByCurrency st);
          sellVolumeByCurrency := sellVolumeByCurrency st;
          totalBuyAmount := (totalBuyAmount st + totalCost)%Q;
          totalBuyQty := (totalBuyQty st + qty trade)%Q |}
  else if String.eqb (side trade) "Sell" then
    '(remainingQtyToSell, queue, totalCostBasisSold) ←
      sellLoop (sellFuel (holdingsQueue st)) (qty trade) (holdingsQueue st) 0%Q;
    let sellProceeds := (amount trade - commission trade - fees trade)%Q in
    let realizedPnL := (sellProceeds - totalCostBasisSold)%Q in
    let queue' :=
      if (remainingQtyToSell >? 0)%Q then
        let shortSellProceeds := (amount trade / qty trade * remainingQtyToSell)%Q in
        let shortSellFees :=
          ((commission trade + fees trade) / qty trade * remainingQtyToSell)%Q in
        {| h_qty := - remainingQtyToSell;
           h_costBasis := - (shortSellProceeds - shortSellFees);
           h_costPerShare := (shortSellProceeds - shortSellFees) / remainingQtyToSell;
           h_currency := tradeCurrency;
           h_date := date trade;
           h_isShort := true |}%Q :: queue
      else queue in
    Ok {| holdingsQueue := queue';
          realizedPnLByCurrency :=
            addTo tradeCurrency realizedPnL (realizedPnLByCurrency st);
          buyVolumeByCurrency := buyVolumeByCurrency st;
          sellVolumeByCurrency :=
            addTo tradeCurrency (amount trade) (sellVolumeByCurrency st);
          totalBuyAmount := totalBuyAmount st;
          totalBuyQty := totalBuyQty st |}
  else Ok st.

(** The replay of one symbol: its trades sorted by date, from an empty
    queue. *)
Definition replayFIFO (group : list Trade) : Outcome FifoState :=
  foldM fifoStep (sortByDate group) initialFifoState.

Definition sumQ (l : list Q) : Q := fold_left Qplus l 0%Q.

(** An entry of the result of [calculateFIFOPnL]. *)
Record SymbolPnL := mkSymbolPnL {
  p_symbol : string;
  p_name : string;
  netPosition : Q;
  avgBuyPrice : Q;
  totalPnL : Q;
  buyVolume : Q;
  sellVolume : Q;
  p_market : string;
  p_trades : list Trade
}.

Section Summarizer.

Variable now : Z.
Variable zone : Zone.
Variable currencyRates : RateTable.

(** The conversion to the display currency at the end of a symbol's
    replay: the rate is the one of the current date. *)
Definition toDisplay (displayCurrency : string) (v : ByCurrency) : Q :=
  (usd v * (if String.eqb displayCurrency "USD" then 1
            else getUSDToAUDRate zone currencyRates now)
   + aud v * (if String.eqb displayCurrency "AUD" then 1
              else 1 / getUSDToAUDRate zone currencyRates now))%Q.

Definition summarizeSymbol (displayCurrency : string) (sym : string)
    (group : list Trade) : Outcome SymbolPnL :=
  let trades := sortByDate group in
  st ← foldM fifoStep trades initialFifoState;
  let currentNetPosition := sumQ (map h_qty (holdingsQueue st)) in
  let currentTotalCost := sumQ (map (fun h => Qabs (h_costBasis h)) (holdingsQueue st)) in
  let avgBuyPrice :=
    if (currentNetPosition >? 0)%Q then (currentTotalCost / currentNetPosition)%Q
    else 0%Q in
  Ok {| p_symbol := sym;
        p_name := match trades with t :: _ => name t | [] => sym end;
        netPosition := currentNetPosition;
        avgBuyPrice := avgBuyPrice;
        totalPnL := toDisplay displayCurrency (realizedPnLByCurrency st);
        buyVolume := toDisplay displayCurrency (buyVolumeByCurrency st);
        sellVolume := toDisplay displayCurrency (sellVolumeByCurrency st);
        p_market := match trades with t :: _ => market t | [] => "US" end;
        p_trades := trades |}.

(** [calculateFIFOPnL] on the normalized trades of the executed rows:
    one result per symbol, in the order of the keys.  (A group is never
    empty, so the test [currentNetPosition !== 0 || trades.length > 0]
    always passes.) *)
Definition calculateFIFOPnL (trades : list Trade) (displayCurrency : string)
    : Outcome (list SymbolPnL) :=
  let symbolGroups :=
    addExpiredOptionsLosses now zone (groupBySymbol trades) trades in
  foldM (fun acc '(sym, group) =>
           r ← summarizeSymbol displayCurrency sym group; Ok (acc ++ [r]))
        symbolGroups [].

End Summarizer.

(** ** Capital gains reporter: [calculateCapitalGains] of main.js *)

(** An entry of [holdings]. *)
Record Lot := mkLot {
  l_qty : Q;
  l_price : Q;
  l_priceAUD : Q;
  l_date : Z;
  l_cost : Q
}.

(** An entry of [capitalGains].  The record's [optionsInfo] object is
    shared by all the records of a symbol and carries a [didExpire]
    flag rewritten at every trade; no amount depends on it and the
    model keeps the decoded descriptor only. *)
Record CapitalGain := mkCapitalGain {
  r_symbol : string;
  r_name : string;
  r_isOption : bool;
  r_optionsInfo : option OptionsInfo;
  r_sellDate : Z;
  r_buyDate : Z;
  r_qty : Q;
  r_sellPrice : Q;
  r_costBasis : Q;
  r_proceeds : Q;
  r_capitalGain : Q;
  r_holdingPeriod : Z;
  r_isLongTerm : bool;
  r_market : string
}.

(** The loop of a sell inside the report window: one record per lot
    touched.  Returns the quantity left, the holdings and the records
    pushed, oldest first. *)
Fixpoint reportLoop (fuel : nat) (optionsInfo : option OptionsInfo) (trade : Trade)
    (sellPricePerUnit totalCommissionAndFees : Q)
    (remainingQty : Q) (holdings : list Lot) (emitted : list CapitalGain)
    : Outcome (Q * list Lot * list CapitalGain) :=
  match fuel with
  | O => OutOfFuel
  | S fuel' =>
      match holdings with
      | holding :: rest =>
          if (remainingQty >? 0)%Q then
            let qtyToSell := Qmin remainingQty (l_qty holding) in
            let costPerShare := (l_cost holding / l_qty holding)%Q in
            let costBasis := (costPerShare * qtyToSell)%Q in
            let proceedsForLot := (qtyToSell * sellPricePerUnit)%Q in
            let commissionAndFeesForLot :=
              (totalCommissionAndFees * (qtyToSell / qty trade))%Q in
            let netProceedsForLot := (proceedsForLot - commissionAndFeesForLot)%Q in
            let capitalGainForLot := (netProceedsForLot - costBasis)%Q in
            let holdingPeriod := (date trade - l_date holding) / msPerDay in
            let record :=
              {| r_symbol := symbol trade;
                 r_name := name trade;
                 r_isOption := match optionsInfo with Some _ => true | None => false end;
                 r_optionsInfo := optionsInfo;
                 r_sellDate := date trade;
                 r_buyDate := l_date holding;
                 r_qty := qtyToSell;
                 r_sellPrice := sellPricePerUnit;
                 r_costBasis := costBasis;
                 r_proceeds := netProceedsForLot;
                 r_capitalGain := capitalGainForLot;
                 r_holdingPeriod := holdingPeriod;
                 r_isLongTerm := 365 <=? holdingPeriod;
                 r_market := market trade |} in
            let holding' :=
              {| l_qty := l_qty holding - qtyToSell;
                 l_price := l_price holding;
                 l_priceAUD := l_priceAUD holding;
                 l_date := l_date holding;
                 l_cost := l_cost holding - costBasis |}%Q in
            reportLoop fuel' optionsInfo trade sellPricePerUnit totalCommissionAndFees
              (remainingQty - qtyToSell)%Q
              (if Qeq_bool (l_qty holding') 0 then rest else holding' :: rest)
              (emitted ++ [record])
          else Ok (remainingQty, holdings, emitted)
      | [] => Ok (remainingQty, holdings, emitted)
      end
  end.

(** The loop of a sell outside the report window: the quantity of the
    lots goes down, their cost is left as it is, nothing is recorded. *)
Fixpoint historicalLoop (fuel : nat) (remainingQty : Q) (holdings : list Lot)
    : Outcome (Q * list Lot) :=
  match fuel with
  | O => OutOfFuel
  | S fuel' =>
      match holdings with
      | holding :: rest =>
          if (remainingQty >? 0)%Q then
            let qtyToSell := Qmin remainingQty (l_qty holding) in
            let holding' :=
              {| l_qty := l_qty holding - qtyToSell;
                 l_price := l_price holding;
                 l_priceAUD := l_priceAUD holding;
                 l_date := l_date holding;
                 l_cost := l_cost holding |}%Q in
            historicalLoop fuel' (remainingQty - qtyToSell)%Q
              (if Qeq_bool (l_qty holding') 0 then rest else holding' :: rest)
          else Ok (remainingQty, holdings)
      | [] => Ok (remainingQty, holdings)
      end
  end.

Definition lotFuel (holdings : list Lot) : nat := S (length holdings).

(** The records a sell inside the window pushes, with the holdings it
    leaves and the quantity it could not cover. *)
Definition reportSell (optionsInfo : option OptionsInfo) (trade : Trade)
    (holdings : list Lot) : Outcome (Q * list Lot * list CapitalGain) :=
  let sellPricePerUnit :=
    if (qty trade >? 0)%Q then (amountAUD trade / qty trade)%Q else 0%Q in
  let totalCommissionAndFees := (commissionAUD trade + feesAUD trade)%Q in
  reportLoop (lotFuel holdings) optionsInfo trade sellPricePerUnit
    totalCommissionAndFees (qty trade) holdings [].

Definition inWindow (cutoffDateStart cutoffDateEnd : Z) (trade : Trade) : bool :=
  (cutoffDateStart <=? date trade) && (date trade <=? cutoffDateEnd).

(** The body of [trades.forEach((trade, tradeIndex) => ...)]: the state
    is the holdings and the records pushed so far. *)
Definition reportStep (cutoffDateStart cutoffDateEnd : Z)
    (optionsInfo : option OptionsInfo)
    (st : list Lot * list CapitalGain) (trade : Trade)
    : Outcome (list Lot * list CapitalGain) :=
  let '(holdings, capitalGains) := st in
  if String.eqb (side trade) "Buy" then
    let totalCost := (amountAUD trade + commissionAUD trade + feesAUD trade)%Q in
    Ok (holdings ++
        [ {| l_qty := qty trade;
             l_price := price trade;
             l_priceAUD := amountAUD trade / qty trade;
             l_date := date trade;
             l_cost := totalCost |}%Q ],
        capitalGains)
  else if String.eqb (side trade) "Sell" then
    if inWindow cutoffDateStart cutoffDateEnd trade then
      '(_, holdings', emitted) ← reportSell optionsInfo trade holdings;
      Ok (holdings', capitalGains ++ emitted)
    else
      '(_, holdings') ← historicalLoop (lotFuel holdings) (qty trade) holdings;
      Ok (holdings', capitalGains)
  else Ok st.

(** [capitalGains.sort((a, b) => b.sellDate - a.sellDate)] *)
Fixpoint insertBySellDateDesc (r : CapitalGain) (l : list CapitalGain) : list CapitalGain :=
  match l with
  | [] => [r]
  | h :: t =>
      if r_sellDate h <=? r_sellDate r then r :: h :: t
      else h :: insertBySellDateDesc r t
  end.

Definition sortBySellDateDesc (l : list CapitalGain) : list CapitalGain :=
  fold_right insertBySellDateDesc [] l.

Section Reporter.

Variable now : Z.
Variable zone : Zone.

(** The report window: financial year Y runs from Y-07-01 (midnight
    UTC) to (Y+1)-06-30T23:59:59.999Z; without a year, from 2000-01-01
    to now. *)
Definition cutoffDateStart (financialYear : option Z) : Z :=
  match financialYear with
  | Some currentFY => utcMidnight currentFY 7 1
  | None => utcMidnight 2000 1 1
  end.

Definition cutoffDateEnd (financialYear : option Z) : Z :=
  match financialYear with
  | Some currentFY => utcMidnight (currentFY + 1) 6 30 + msPerDay - 1
  | None => now
  end.

(** One symbol's replay: its group sorted by date, from no holdings. *)
Definition reportSymbol (financialYear : option Z) (sym : string)
    (group : list Trade) (capitalGains : list CapitalGain)
    : Outcome (list Lot * list CapitalGain) :=
  foldM (reportStep (cutoffDateStart financialYear) (cutoffDateEnd financialYear)
           (parseOptionsSymbol now zone sym))
        (sortByDate group) ([], capitalGains).

(** [calculateCapitalGains] on the normalized trades of the executed
    rows. *)
Definition calculateCapitalGains (trades : list Trade) (financialYear : option Z)
    : Outcome (list CapitalGain) :=
  let symbolGroups :=
    addExpiredOptionsLosses now zone (groupBySymbol trades) trades in
  capitalGains ←
    foldM (fun acc '(sym, group) =>
             '(_, acc') ← reportSymbol financialYear sym group acc; Ok acc')
          symbolGroups [];
  Ok (sortBySellDateDesc capitalGains).

End Reporter.

(** ** Trade normalizer *)

Module Normalizer.

Definition isWhiteSpace (c : ascii) : bool :=
  let n := nat_of_ascii c in
  (n =? 32)%nat || ((9 <=? n)%nat && (n <=? 13)%nat).

Fixpoint dropWhile (p : ascii -> bool) (l : list ascii) : list ascii :=
  match l with
  | c :: r => if p c then dropWhile p r else l
  | [] => []
  end.

Definition readSign (l : list ascii) : bool * list ascii :=
  match l with
  | c :: r =>
      if Ascii.eqb c "-" then (true, r)
      else if Ascii.eqb c "+" then (false, r) else (false, l)
  | [] => (false, [])
  end.

(** The built-in [parseFloat] on decimal literals: leading white space,
    a sign, digits with an optional fraction, an optional exponent; the
    longest such prefix is read and the rest of the text is ignored.
    [None] is NaN.  (The literal [Infinity] has no rational value and is
    left out of the model.) *)
Definition parseFloat (s : string) : option Q :=
  let l := dropWhile isWhiteSpace (list_ascii_of_string s) in
  let '(neg, l1) := readSign l in
  let '(ip, l2) := spanWhile isDigit l1 in
  let '(fp, l3) :=
    match l2 with
    | c :: r => if Ascii.eqb c "." then spanWhile isDigit r else ([], l2)
    | [] => ([], l2)
    end in
  match ip ++ fp with
  | [] => None
  | ds =>
      let mantissa :=
        (inject_Z (parseDigits ds) / inject_Z (10 ^ Z.of_nat (length fp)))%Q in
      let exponent :=
        match l3 with
        | c :: r =>
            if Ascii.eqb c "e" || Ascii.eqb c "E" then
              let '(eneg, r1) := readSign r in
              let '(ed, _) := spanWhile isDigit r1 in
              match ed with
              | [] => 0
              | _ => if eneg then - parseDigits ed else parseDigits ed
              end
            else 0
        | [] => 0
        end in
      let v := (mantissa * Qpower 10 exponent)%Q in
      Some (if neg then (- v)%Q else v)
  end.

(** [parseFloat(x) || 0]: NaN and 0 both give 0.  An absent field is
    [undefined], which [parseFloat] reads as NaN. *)
Definition numberOr0 (field : option string) : Q :=
  match field with
  | Some s => match parseFloat s with Some v => v | None => 0%Q end
  | None => 0%Q
  end.

(** [s.split(c)] for a one-character separator. *)
Fixpoint splitOn (sep : ascii) (l : list ascii) : list (list ascii) :=
  match l with
  | [] => [[]]
  | c :: r =>
      if Ascii.eqb c sep then [] :: splitOn sep r
      else match splitOn sep r with
           | p :: ps => (c :: p) :: ps
           | [] => [[c]]
           end
  end.

(** [s.replace(pat, rep)] with a text pattern: the first occurrence only. *)
Definition replaceFirst (pat rep s : string) : string :=
  match String.index 0 pat s with
  | Some i =>
      (String.substring 0 i s ++ rep ++
       String.substring (i + String.length pat)
         (String.length s - i - String.length pat) s)%string
  | None => s
  end.

Definition includes (s pat : string) : bool :=
  match String.index 0 pat s with Some _ => true | None => false end.

Section WithDecoder.

Variable now : Z.
Variable zone : Zone.

(** [parseFilledAvg(column, symbol)].  The column defaults to ["0@0"]
    when absent or empty; the text after the first [@] is [price], and
    [price.replace] is a call on [undefined] when the column holds no
    [@]. *)
Definition parseFilledAvg (column : option string) (symbol : string)
    : Outcome (Q * Q) :=
  let text := match column with
              | Some c => if String.eqb c "" then "0@0" else c
              | None => "0@0"
              end in
  match splitOn "@" (list_ascii_of_string text) with
  | qtyText :: priceText :: _ =>
      let rawPrice :=
        numberOr0 (Some (replaceFirst "," "" (string_of_list_ascii priceText))) in
      let multiplier :=
        if String.eqb symbol "" then 1%Q else getMultiplier now zone symbol in
      Ok (numberOr0 (Some (replaceFirst "," "" (string_of_list_ascii qtyText))),
          (rawPrice * multiplier)%Q)
  | _ => Throw
  end.

(** [new Date(text)] for the free-form texts of the CSV is
    implementation-defined; it is a parameter, [None] for an invalid
    date. *)
Variable Date_parse : string -> option Z.

Definition sentinelDate : Z := utcMidnight 1900 1 1.

(** The local year of a local time value has four digits (1000 to
    9999). *)
Definition fourDigitYear (local : Z) : bool :=
  (utcMidnight 1000 1 1 <=? local) && (local <? utcMidnight 10000 1 1).

(** [convertTimezoneToLocal]: the local wall-clock fields of the date,
    to the second, are written out as an ISO text, which is read back as
    UTC, and the fixed offset of the source zone is taken off.  The year
    is written without padding, so the text is an ISO date only for a
    local year of four digits; for any other year the result is an
    Invalid Date, [None].  (Nothing in the body throws, so the [catch]
    is never entered.) *)
Definition convertTimezoneToLocal (t : Z) (sourceOffsetHours : Z) : option Z :=
  let local := LocalTime zone t in
  if fourDigitYear local then
    let asUtc := local / 1000 * 1000 in
    Some (asUtc - sourceOffsetHours * 60 * 60 * 1000)
  else None.

(** [parseCSVDate]; [None] is an Invalid Date. *)
Definition parseCSVDate (dateString : option string) : option Z :=
  match dateString with
  | None => Some sentinelDate
  | Some ds =>
      if String.eqb ds "" then Some sentinelDate
      else
        let timezone :=
          if includes ds " ET" then Some (-4)
          else if includes ds " AEST" then Some 10
          else if includes ds " AEDT" then Some 10
          else None in
        let cleanDate :=
          replaceFirst " AEDT" "" (replaceFirst " AEST" "" (replaceFirst " ET" "" ds)) in
        let parsedDate :=
          match Date_parse cleanDate with
          | Some t => Some t
          | None =>
              match map string_of_list_ascii
                      (splitOn " " (list_ascii_of_string cleanDate)) with
              | month :: day :: year :: time :: _ =>
                  Date_parse (month ++ " " ++ replaceFirst "," "" day ++ ", "
                              ++ year ++ " " ++ time)%string
              | _ => None
              end
          end in
        match parsedDate with
        | None => Some sentinelDate
        | Some t =>
            match timezone with
            | Some offset => convertTimezoneToLocal t offset
            | None => Some t
            end
        end
  end.

(** A row of the CSV as loaded: the columns the engine reads, absent
    columns being [None], and the [market] the loader attaches with
    [getTradeMarket]. *)
Record Row := mkRow {
  Symbol : string;
  Side : string;
  Status : string;
  FilledAvgPrice : option string;
  FillTime : option string;
  Commission : option string;
  Total : option string;
  Name : string;
  rowMarket : string
}.

Definition isExecutedStatus (status : string) : bool :=
  String.eqb status "Filled" || String.eqb status "Partially Cancelled".

(** The filter of [loadPortfolioData]. *)
Definition loadable (row : Row) : bool :=
  negb (String.eqb (Symbol row) "") && negb (String.eqb (Side row) "")
  && isExecutedStatus (Status row).

Variable currencyRates : RateTable.

(** The object [calculateCapitalGains] pushes for a row.  With an
    Invalid Date, [convertCurrency] returns the amount of an AU-market
    row before it looks at the date, and for any other market reaches
    [getUSDToAUDRate], where [date.toISOString()] throws. *)
Definition reportTradeOfRow (row : Row) : Outcome Trade :=
  '(q, p) ← parseFilledAvg (FilledAvgPrice row) (Symbol row);
  let amt := (q * p)%Q in
  match parseCSVDate (FillTime row) with
  | Some d =>
      Ok {| side := Side row; qty := q; price := p; amount := amt; date := d;
            commission := numberOr0 (Commission row);
            fees := numberOr0 (Total row);
            symbol := Symbol row; name := Name row; market := rowMarket row;
            amountAUD :=
              convertCurrency zone currencyRates amt (rowMarket row) "AUD" d;
            commissionAUD :=
              convertCurrency zone currencyRates (numberOr0 (Commission row))
                (rowMarket row) "AUD" d;
            feesAUD :=
              convertCurrency zone currencyRates (numberOr0 (Total row))
                (rowMarket row) "AUD" d;
            originalCurrency := None; isSynthetic := false |}
  | None =>
      if String.eqb (rowMarket row) "AU" then InvalidDate else Throw
  end.

(** The object [calculateFIFOPnL] pushes for a row; no rate is looked
    up here, so an Invalid Date does not throw. *)
Definition fifoTradeOfRow (row : Row) : Outcome Trade :=
  '(q, p) ← parseFilledAvg (FilledAvgPrice row) (Symbol row);
  match parseCSVDate (FillTime row) with
  | Some d =>
      Ok {| side := Side row; qty := q; price := p; amount := (q * p)%Q;
            date := d;
            commission := numberOr0 (Commission row);
            fees := numberOr0 (Total row);
            symbol := Symbol row; name := Name row; market := rowMarket row;
            amountAUD := 0; commissionAUD := 0; feesAUD := 0;
            originalCurrency :=
              Some (if String.eqb (rowMarket row) "US" then USD else AUD);
            isSynthetic := false |}
  | None => InvalidDate
  end.

(** [rows.forEach(row => ...)], collecting the objects pushed.  A row
    with an Invalid Date does not stop the loop, and a later row can
    still throw. *)
Fixpoint mapM {A B : Type} (f : A -> Outcome B) (l : list A) : Outcome (list B) :=
  match l with
  | [] => Ok []
  | a :: r =>
      match f a with
      | Ok b => bs ← mapM f r; Ok (b :: bs)
      | Throw => Throw
      | OutOfFuel => OutOfFuel
      | InvalidDate =>
          match mapM f r with
          | Throw => Throw
          | OutOfFuel => OutOfFuel
          | _ => InvalidDate
          end
      end
  end.

(** The two reports on the loaded rows. *)
Definition capitalGainsOfRows (rows : list Row) (financialYear : option Z)
    : Outcome (list CapitalGain) :=
  trades ← mapM reportTradeOfRow (List.filter (fun r => isExecutedStatus (Status r)) rows);
  calculateCapitalGains now zone trades financialYear.

Definition fifoPnLOfRows (rows : list Row) (displayCurrency : string)
    : Outcome (list SymbolPnL) :=
  trades ← mapM fifoTradeOfRow (List.filter (fun r => isExecutedStatus (Status r)) rows);
  calculateFIFOPnL now zone currencyRates trades displayCurrency.

End WithDecoder.

End Normalizer.
Export Normalizer.

(** ** Loader *)

Module Loader.

(** [s.trim()], for the white space of ASCII. *)
Definition trim (s : string) : string :=
  string_of_list_ascii
    (rev (dropWhile isWhiteSpace
            (rev (dropWhile isWhiteSpace (list_ascii_of_string s))))).

Definition isLower (c : ascii) : bool :=
  let n := nat_of_ascii c in (97 <=? n)%nat && (n <=? 122)%nat.

(** [s.toUpperCase()], for the letters of ASCII. *)
Definition upperChar (c : ascii) : ascii :=
  if isLower c then ascii_of_nat (nat_of_ascii c - 32) else c.

Definition toUpperCase (s : string) : string :=
  string_of_list_ascii (map upperChar (list_ascii_of_string s)).

(** The tickers [getTradeMarket] takes for Australian ones. *)
Definition knownAustralianTickers : list string :=
  ["LYC"; "NXL"; "BHP"; "CBA"; "ANZ"; "WBC"; "CSL"; "WOW"; "WES"].

(** A column that is present and not blank:
    [trade.X && trade.X.trim() !== '']. *)
Definition nonBlank (column : option string) : bool :=
  match column with
  | Some s => negb (String.eqb s "") && negb (String.eqb (trim s) "")
  | None => false
  end.

(** [getTradeMarket(trade)], on the three columns it reads. *)
Definition getTradeMarket (Markets Currency Symbol : option string) : string :=
  if nonBlank Markets then
    match Markets with Some m => toUpperCase m | None => "US" end
  else if nonBlank Currency then
    match Currency with
    | Some c => if String.eqb c "AUD" then "AU" else "US"
    | None => "US"
    end
  else
    match Symbol with
    | Some sym =>
        if String.eqb sym "" then "US"
        else
          let symbol := toUpperCase sym in
          let chars := list_ascii_of_string symbol in
          if (length chars =? 3)%nat && forallb isUpper chars
             && existsb (String.eqb symbol) knownAustralianTickers
          then "AU" else "US"
    | None => "US"
    end.

End Loader.
Export Loader.

(** ** Capital gains reporter of server.js *)

(** [calculateCapitalGains] of server.js keeps the same lots as main.js
    and runs the same loops over them, but pushes one record per sell
    inside the window, after the loop, instead of one per lot touched. *)
Module ServerReport.

(** An entry of [soldHoldings]. *)
Record SoldHolding := mkSoldHolding {
  sold_date : Z;
  sold_qty : Q
}.

(** An entry of [capitalGains]; [s_buyDate] is [None] for the null of a
    sell that touched no lot. *)
Record CapitalGain := mkServerGain {
  s_symbol : string;
  s_name : string;
  s_isOption : bool;
  s_optionsInfo : option OptionsInfo;
  s_sellDate : Z;
  s_buyDate : option Z;
  s_qty : Q;
  s_sellPrice : Q;
  s_costBasis : Q;
  s_proceeds : Q;
  s_capitalGain : Q;
  s_holdingPeriod : Z;
  s_market : string
}.

Definition calculateHoldingPeriodFromSold (soldHoldings : list SoldHolding)
    (sellDate : Z) : Z :=
  match soldHoldings with
  | [] => 0
  | h :: r =>
      let earliestSoldDate := fold_left Z.min (map sold_date r) (sold_date h) in
      (sellDate - earliestSoldDate) / msPerDay
  end.

(** The loop of a sell inside the report window.  Returns the quantity
    left, the holdings, [totalCost] and [soldHoldings]. *)
Fixpoint reportLoop (fuel : nat) (remainingQty : Q) (holdings : list Lot)
    (totalCost : Q) (soldHoldings : list SoldHolding)
    : Outcome (Q * list Lot * Q * list SoldHolding) :=
  match fuel with
  | O => OutOfFuel
  | S fuel' =>
      match holdings with
      | holding :: rest =>
          if (remainingQty >? 0)%Q then
            let qtyToSell := Qmin remainingQty (l_qty holding) in
            let costPerShare := (l_cost holding / l_qty holding)%Q in
            let costBasis := (costPerShare * qtyToSell)%Q in
            let holding' :=
              {| l_qty := l_qty holding - qtyToSell;
                 l_price := l_price holding;
                 l_priceAUD := l_priceAUD holding;
                 l_date := l_date holding;
                 l_cost := l_cost holding - costBasis |}%Q in
            reportLoop fuel' (remainingQty - qtyToSell)%Q
              (if Qeq_bool (l_qty holding') 0 then rest else holding' :: rest)
              (totalCost + costBasis)%Q
              (soldHoldings ++ [ {| sold_date := l_date holding; sold_qty := qtyToSell |} ])
          else Ok (remainingQty, holdings, totalCost, soldHoldings)
      | [] => Ok (remainingQty, holdings, totalCost, soldHoldings)
      end
  end.

(** The branch of a sell inside the window: the holdings it leaves and
    the record it pushes. *)
Definition reportSell (optionsInfo : option OptionsInfo) (trade : Trade)
    (holdings : list Lot) : Outcome (list Lot * CapitalGain) :=
  '(_, holdings', totalCost, soldHoldings) ←
    reportLoop (lotFuel holdings) (qty trade) holdings 0%Q [];
  let netProceeds := (amountAUD trade - commissionAUD trade - feesAUD trade)%Q in
  let capitalGain := (netProceeds - totalCost)%Q in
  let holdingPeriod := calculateHoldingPeriodFromSold soldHoldings (date trade) in
  let sellPricePerUnit :=
    if (qty trade >? 0)%Q then (amountAUD trade / qty trade)%Q else 0%Q in
  Ok (holdings',
      {| s_symbol := symbol trade;
         s_name := name trade;
         s_isOption := match optionsInfo with Some _ => true | None => false end;
         s_optionsInfo := optionsInfo;
         s_sellDate := date trade;
         s_buyDate := match soldHoldings with
                      | h :: _ => Some (sold_date h)
                      | [] => None
                      end;
         s_qty := qty trade;
         s_sellPrice := sellPricePerUnit;
         s_costBasis := totalCost;
         s_proceeds := netProceeds;
         s_capitalGain := capitalGain;
         s_holdingPeriod := holdingPeriod;
         s_market := market trade |}).

(** The body of [trades.forEach((trade, tradeIndex) => ...)]. *)
Definition reportStep (cutoffDateStart cutoffDateEnd : Z)
    (optionsInfo : option OptionsInfo)
    (st : list Lot * list CapitalGain) (trade : Trade)
    : Outcome (list Lot * list CapitalGain) :=
  let '(holdings, capitalGains) := st in
  if String.eqb (side trade) "Buy" then
    let totalCost := (amountAUD trade + commissionAUD trade + feesAUD trade)%Q in
    Ok (holdings ++
        [ {| l_qty := qty trade;
             l_price := price trade;
             l_priceAUD := amountAUD trade / qty trade;
             l_date := date trade;
             l_cost := totalCost |}%Q ],
        capitalGains)
  else if String.eqb (side trade) "Sell" then
    if inWindow cutoffDateStart cutoffDateEnd trade then
      '(holdings', record) ← reportSell optionsInfo trade holdings;
      Ok (holdings', capitalGains ++ [record])
    else
      '(_, holdings') ← historicalLoop (lotFuel holdings) (qty trade) holdings;
      Ok (holdings', capitalGains)
  else Ok st.

End ServerReport.

(** ** Performance chart: [calculatePerformanceData] *)

(** The chart is computed from the records of [calculateCapitalGains]
    for all years.  The start of the time frame and the key of the week
    or month of a sell date are functions of the calendar fields of
    dates only; they are kept as parameters.  [bestMonth] and
    [worstMonth] are modelled by their [amount] (their [period] reads a
    property the chart points do not have). *)
Module Performance.

(** A record with its [convertedGain]. *)
Record Gain := mkGain {
  g_gain : CapitalGain;
  convertedGain : Q
}.

(** An entry of [periodData]. *)
Record Period := mkPeriod {
  p_period : string;
  p_trades : nat;
  p_totalPnL : Q;
  p_winningTrades : nat;
  p_date : Z
}.

(** An entry of [chartData]. *)
Record ChartPoint := mkChartPoint {
  c_period : Period;
  cumulativePnL : Q;
  avgPnLPerTrade : Q;
  winRate : Q
}.

Record Summary := mkSummary {
  s_totalPnL : Q;
  s_totalTrades : nat;
  s_winRate : Q;
  s_bestMonth : option Q;
  s_worstMonth : option Q
}.

(** [sort((a, b) => key(a) - key(b))]: ascending, equal keys in their
    original order. *)
Fixpoint insertBy {A : Type} (key : A -> Z) (x : A) (l : list A) : list A :=
  match l with
  | [] => [x]
  | h :: r => if key x <=? key h then x :: h :: r else h :: insertBy key x r
  end.

Definition sortBy {A : Type} (key : A -> Z) (l : list A) : list A :=
  fold_right (insertBy key) [] l.

Definition ratio (a b : nat) : Q := (inject_Z (Z.of_nat a) / inject_Z (Z.of_nat b))%Q.

(** [chartData]: the periods with the running total. *)
Fixpoint chartFrom (runningTotal : Q) (periodArray : list Period) : list ChartPoint :=
  match periodArray with
  | [] => []
  | p :: r =>
      let runningTotal' := (runningTotal + p_totalPnL p)%Q in
      {| c_period := p;
         cumulativePnL := runningTotal';
         avgPnLPerTrade :=
           if (0 <? p_trades p)%nat
           then (p_totalPnL p / inject_Z (Z.of_nat (p_trades p)))%Q else 0%Q;
         winRate :=
           if (0 <? p_trades p)%nat
           then (ratio (p_winningTrades p) (p_trades p) * 100)%Q else 0%Q |}
      :: chartFrom runningTotal' r
  end.

Fixpoint lastOf {A : Type} (l : list A) : option A :=
  match l with
  | [] => None
  | [x] => Some x
  | _ :: r => lastOf r
  end.

(** [best?.totalPnL || -Infinity] and [worst?.totalPnL || Infinity]:
    [None] is the infinity, which a total of 0 also gives. *)
Definition totalOrInfinity (best : option ChartPoint) : option Q :=
  match best with
  | Some b => if Qeq_bool (p_totalPnL (c_period b)) 0 then None
              else Some (p_totalPnL (c_period b))
  | None => None
  end.

Definition bestStep (best : option ChartPoint) (month : ChartPoint) : option ChartPoint :=
  match totalOrInfinity best with
  | Some v => if (p_totalPnL (c_period month) >? v)%Q then Some month else best
  | None => Some month
  end.

Definition worstStep (worst : option ChartPoint) (month : ChartPoint) : option ChartPoint :=
  match totalOrInfinity worst with
  | Some v => if (v >? p_totalPnL (c_period month))%Q then Some month else worst
  | None => Some month
  end.

Section Chart.

Variable zone : Zone.
Variable table : RateTable.
Variable startDate : Z.
Variable periodKey : Z -> string.
Variable displayCurrency : string.

Definition convert (gain : CapitalGain) : Gain :=
  {| g_gain := gain;
     convertedGain :=
       if String.eqb displayCurrency "AUD" then r_capitalGain gain
       else convertCurrency zone table (r_capitalGain gain) "AU" "US" (r_sellDate gain) |}.

Definition filteredGains (allCapitalGains : list CapitalGain) : list Gain :=
  sortBy (fun g => r_sellDate (g_gain g))
    (map convert
       (List.filter (fun gain => startDate <=? r_sellDate gain) allCapitalGains)).

(** The body of [filteredGains.forEach(gain => ...)] on [periodData],
    a Map in insertion order. *)
Fixpoint recordGain (periodData : list Period) (gain : Gain) : list Period :=
  let sellDate := r_sellDate (g_gain gain) in
  let won := if (convertedGain gain >? 0)%Q then 1%nat else 0%nat in
  match periodData with
  | [] =>
      [ {| p_period := periodKey sellDate;
           p_trades := 1;
           p_totalPnL := 0 + convertedGain gain;
           p_winningTrades := won;
           p_date := sellDate |} ]
  | data :: r =>
      if String.eqb (p_period data) (periodKey sellDate)
      then {| p_period := p_period data;
              p_trades := S (p_trades data);
              p_totalPnL := p_totalPnL data + convertedGain gain;
              p_winningTrades := (p_winningTrades data + won)%nat;
              p_date := p_date data |} :: r
      else data :: recordGain r gain
  end.

Definition periodArray (gains : list Gain) : list Period :=
  sortBy p_date (fold_left recordGain gains []).

Definition chartData (gains : list Gain) : list ChartPoint :=
  chartFrom 0 (periodArray gains).

Definition summary (gains : list Gain) : Summary :=
  let chart := chartData gains in
  let totalTrades := length gains in
  let totalWinningTrades :=
    length (List.filter (fun gain => (convertedGain gain >? 0)%Q) gains) in
  {| s_totalPnL := match lastOf chart with Some c => cumulativePnL c | None => 0%Q end;
     s_totalTrades := totalTrades;
     s_winRate := if (0 <? totalTrades)%nat
                  then (ratio totalWinningTrades totalTrades * 100)%Q else 0%Q;
     s_bestMonth :=
       match fold_left bestStep chart None with
       | Some b => Some (p_totalPnL (c_period b))
       | None => None
       end;
     s_worstMonth :=
       match fold_left worstStep chart None with
       | Some w => Some (p_totalPnL (c_period w))
       | None => None
       end |}.

Definition calculatePerformanceData (allCapitalGains : list CapitalGain)
    : list ChartPoint * Summary :=
  let gains := filteredGains allCapitalGains in
  (chartData gains, summary gains).

End Chart.

End Performance.

(** * Definitions used by the statements *)

(** The table of the worked example: entries for 2024-01-01 and
    2024-01-10 only. *)
Definition exampleTable (r1 r10 : Q) : RateTable :=
  <[days_from_civil 2024 1 1 := r1]> (<[days_from_civil 2024 1 10 := r10]> ∅).

Definition ascending (l : list Trade) : Prop :=
  StronglySorted (fun a b => date a <= date b) l.

(** A trade without commission or fees, its amount the quantity times
    the price; the AUD amount is that of an AU-market trade, which
    [convertCurrency] leaves as it is. *)
Definition plainTrade (sd sym mkt : string) (q p : Q) (d : Z) : Trade :=
  {| side := sd; qty := q; price := p; amount := q * p; date := d;
     commission := 0; fees := 0; symbol := sym; name := sym; market := mkt;
     amountAUD := q * p; commissionAUD := 0; feesAUD := 0;
     originalCurrency := Some (if String.eqb mkt "US" then USD else AUD);
     isSynthetic := false |}.

(** The slices of a sell in the words of the specification: take the
    head lot, consume the smaller of the quantity left to sell and the
    head lot's quantity, go on with the next lot while something is left
    to sell.  Each slice is the quantity consumed and the lot it is
    taken from. *)
Fixpoint headSlices (remaining : Q) (queue : list Holding) : list (Q * Holding) :=
  match queue with
  | [] => []
  | head :: rest =>
      if (remaining >? 0)%Q then
        let consumed := Qmin remaining (h_qty head) in
        (consumed, head) :: headSlices (remaining - consumed)%Q rest
      else []
  end.

(** The cost of a slice: the lot's cost per unit times the quantity
    consumed. *)
Definition sliceCost (s : Q * Holding) : Q := (h_costPerShare (snd s) * fst s)%Q.


(** The lots all hold a positive quantity. *)
Definition positiveLots (holdings : list Lot) : Prop :=
  Forall (fun l => (0 < l_qty l)%Q) holdings.

Definition totalQty (holdings : list Lot) : Q := sumQ (map l_qty holdings).
Definition totalCost (holdings : list Lot) : Q := sumQ (map l_cost holdings).

(** The lots of the FIFO queue all hold a positive quantity. *)
Definition positiveQueue (queue : list Holding) : Prop :=
  Forall (fun h => (0 < h_qty h)%Q) queue.

Definition queueQty (queue : list Holding) : Q := sumQ (map h_qty queue).

(** A lot bought on day [d]: [q] units for [q * p]. *)
Definition lotOf (q p : Q) (d : Z) : Lot :=
  {| l_qty := q; l_price := p; l_priceAUD := p; l_date := d; l_cost := q * p |}.

(** The trades of a list dated up to [d], and those dated after it. *)
Definition tradesUntil (d : Z) (l : list Trade) : list Trade :=
  List.filter (fun t => date t <=? d) l.

Definition tradesAfter (d : Z) (l : list Trade) : list Trade :=
  List.filter (fun t => d <? date t) l.

(** What every record pushed by the loop of a sell satisfies: its
    gain is its share of the proceeds, less its share of the commission
    and fees, less its cost basis. *)
Definition sliceRecord (trade : Trade) (sellPricePerUnit totalCommissionAndFees : Q)
    (r : CapitalGain) : Prop :=
  (r_capitalGain r ==
     r_qty r * sellPricePerUnit
     - totalCommissionAndFees * (r_qty r / qty trade) - r_costBasis r)%Q /\
  r_sellDate r = date trade /\ r_symbol r = symbol trade.

(** A loaded, executed row whose [Filled@Avg Price] column holds no [@]. *)
Definition rowWithoutAt : Row :=
  {| Symbol := "AAPL"; Side := "Buy"; Status := "Filled";
     FilledAvgPrice := Some "100"; FillTime := Some "Sep 4, 2025 10:56:57 ET";
     Commission := Some "1.00"; Total := Some "0.02";
     Name := "Apple"; rowMarket := "US" |}.

(** The trades of a list with a given symbol, in their order. *)
Definition tradesOfSymbol (s : string) (trades : list Trade) : list Trade :=
  List.filter (fun t => String.eqb (symbol t) s) trades.

(** A key that is no array index. *)
Definition plainKey (s : string) : bool :=
  match arrayIndex s with Some _ => false | None => true end.

(** The order of [Object.keys]: no key comes after a key it is
    enumerated before. *)
Definition enumerationOrder (keys : list string) : Prop :=
  StronglySorted (fun a b => keyBefore b a = false) keys.

(** The texts of a list in the order of their first occurrence. *)
Definition noteKey (seen : list string) (s : string) : list string :=
  if existsb (String.eqb s) seen then seen else seen ++ [s].

Definition firstSeen (l : list string) : list string := fold_left noteKey l [].

(** No lower-case letter of ASCII. *)
Definition noLowerCase (s : string) : Prop :=
  forallb (fun c => negb (isLower c)) (list_ascii_of_string s) = true.

(** The signed quantity of a trade: what [netStep] adds. *)
Definition signedQty (t : Trade) : Q :=
  if String.eqb (side t) "Buy" then qty t
  else if String.eqb (side t) "Sell" then (- qty t)%Q
  else 0%Q.

(** What the fields of a record emitted for [trade] are, given the
    sell price per unit and the commission and fees of the sell. *)
Definition recordOfSell (trade : Trade) (sellPricePerUnit totalCommissionAndFees : Q)
    (r : CapitalGain) : Prop :=
  (r_proceeds r ==
     r_qty r * sellPricePerUnit - totalCommissionAndFees * (r_qty r / qty trade))%Q /\
  (r_capitalGain r == r_proceeds r - r_costBasis r)%Q /\
  r_sellPrice r = sellPricePerUnit /\
  r_sellDate r = date trade /\
  r_symbol r = symbol trade /\
  r_holdingPeriod r = (r_sellDate r - r_buyDate r) / msPerDay /\
  r_isLongTerm r = (365 <=? r_holdingPeriod r).



(** The text of an option symbol: the underlying, the expiry as three
    two-digit numbers, C or P, and the digits of the strike. *)
Definition digitChar (d : Z) : ascii := ascii_of_nat (48 + Z.to_nat d).

Definition twoDigits (n : Z) : list ascii := [digitChar (n / 10); digitChar (n mod 10)].

Definition optionSymbolText (letters : list ascii) (yy mm dd : Z) (cp : ascii)
    (strike : list ascii) : string :=
  string_of_list_ascii
    (letters ++ twoDigits yy ++ twoDigits mm ++ twoDigits dd ++ cp :: strike).

(** Every lot of the queue carries the cost of its quantity at its cost
    per unit. *)
Definition consistentQueue (queue : list Holding) : Prop :=
  Forall (fun h => (h_costBasis h == h_costPerShare h * h_qty h)%Q) queue.

Definition queueCost (queue : list Holding) : Q := sumQ (map h_costBasis queue).

(** A history, in replay order, that buys positive quantities and never
    sells more than it holds, from the position [pos]. *)
Fixpoint coveredHistory (pos : Q) (l : list Trade) : Prop :=
  match l with
  | [] => True
  | t :: r =>
      (side t = "Buy" -> (0 < qty t)%Q) /\
      (side t = "Sell" -> (0 <= qty t <= pos)%Q) /\
      coveredHistory (pos + signedQty t)%Q r
  end.

(** The net proceeds of the sells and the total cost of the buys. *)
Definition sellProceeds (t : Trade) : Q :=
  if String.eqb (side t) "Buy" then 0%Q
  else if String.eqb (side t) "Sell"
       then (amount t - commission t - fees t)%Q else 0%Q.

Definition buyCost (t : Trade) : Q :=
  if String.eqb (side t) "Buy" then (amount t + commission t + fees t)%Q else 0%Q.

Definition realizedTotal (st : FifoState) : Q :=
  (usd (realizedPnLByCurrency st) + aud (realizedPnLByCurrency st))%Q.

(** The lot and quantity of a record of main.js, as server.js notes them
    in [soldHoldings]. *)
Definition soldOf (r : CapitalGain) : ServerReport.SoldHolding :=
  {| ServerReport.sold_date := r_buyDate r; ServerReport.sold_qty := r_qty r |}.

(** The largest of a list of day counts, 0 for none. *)
Definition maxOr0 (l : list Z) : Z :=
  match l with
  | [] => 0
  | h :: r => fold_left Z.max r h
  end.

(** A sell that falls inside the report window. *)
Definition inWindowSell (cs ce : Z) (t : Trade) : bool :=
  String.eqb (side t) "Sell" && inWindow cs ce t.

(** The time between a date and the UTC midnight of a table entry, as
    [getUSDToAUDRate] of server.js measures it. *)
Definition elapsed (date : Z) (e : Z * Q) : Z := Z.abs (date - fst e * msPerDay).

(** The Date constructor on a text without zone, on a machine in
    [zone]: the wall-clock reading [wall] of the text is taken as local
    time. *)
Definition localParser (zone : Zone) (wall : string -> option Z) (text : string)
    : option Z :=
  match wall text with
  | Some w => Some (UTC zone w)
  | None => None
  end.

(** Every reading of the wall clock is a local time that exists in the
    zone: read back from its UTC time value it is the same reading.  (A
    reading inside the hour skipped when daylight saving starts is not.) *)
Definition realLocalTimes (zone : Zone) (wall : string -> option Z) : Prop :=
  forall text w, wall text = Some w -> LocalTime zone (UTC zone w) = w.

(** Every reading of the wall clock is in a year of four digits. *)
Definition fourDigitYears (wall : string -> option Z) : Prop :=
  forall text w, wall text = Some w -> Normalizer.fourDigitYear w = true.

(** The Fill Time carries one of the zone tags the normalizer knows. *)
Definition zoneTagged (ds : string) : bool :=
  Normalizer.includes ds " ET" || Normalizer.includes ds " AEST"
  || Normalizer.includes ds " AEDT".

(** The records sold from [startDate] on. *)
Definition soldFrom (startDate : Z) (all : list CapitalGain) : list CapitalGain :=
  List.filter (fun gain => startDate <=? r_sellDate gain) all.

Definition periodTotal (c : Performance.ChartPoint) : Q :=
  Performance.p_totalPnL (Performance.c_period c).

(** The lots of the FIFO engine and of the reporter, one for one: the
    same positive quantity and the same cost, the engine's lot at its
    own cost per unit. *)
Definition matchingLots (queue : list Holding) (holdings : list Lot) : Prop :=
  List.Forall2
    (fun h l => (0 < h_qty h)%Q /\ (h_qty h == l_qty l)%Q /\
                (h_costBasis h == l_cost l)%Q /\
                (h_costBasis h == h_costPerShare h * h_qty h)%Q)
    queue holdings.

(** A trade of a symbol traded in AUD: the amounts the reporter converts
    are the amounts of the trade. *)
Definition audTrade (t : Trade) : Prop :=
  (amountAUD t == amount t)%Q /\ (commissionAUD t == commission t)%Q /\
  (feesAUD t == fees t)%Q.

(** Moving up to 7 days on the local calendar moves the UTC day of the
    date by as many days.  In a zone of constant offset this holds at
    every date; across a change of offset it can fail for a date within
    that change's width of UTC midnight. *)
Definition calendarAligned (zone : Zone) (date : Z) : Prop :=
  forall i, -7 <= i <= 7 -> dateKey (addDays zone date i) = dateKey date + i.

(** A zone with daylight saving, of the kind of Australia/Sydney in
    April 2024: 11 hours ahead of UTC until 2024-04-06T16:00Z (03:00
    local time of 7 April), 10 hours ahead from then on.  A local time
    that occurs twice is read with the earlier offset. *)
Definition daylightSavingEnd : Z := utcMidnight 2024 4 6 + 16 * 3600000.

Definition daylightZone : Zone :=
  {| offsetAtUTC := fun t =>
       if t <? daylightSavingEnd then 11 * 3600000 else 10 * 3600000;
     offsetAtLocal := fun local =>
       if local <? daylightSavingEnd + 11 * 3600000 then 11 * 3600000
       else 10 * 3600000 |}.

(** The failing input of the currency claim: one executed Buy of 5
    contracts at 1.00 of an AU-market option that expired on 2020-01-17,
    filled on 2019-12-02, and a Date constructor that reads that day. *)
Definition expiredAuOptionRow : Row :=
  mkRow "ABC200117C5000" "Buy" "Filled" (Some "5@1.00") (Some "2019-12-02")
    None None "ABC Call" "AU".

Definition readsFillDay (text : string) : option Z :=
  if String.eqb text "2019-12-02" then Some (utcMidnight 2019 12 2) else None.

(** * Properties *)

(** ** Currency converter *)

Lemma addDays_fixedZone (tz date i : Z) :
  addDays (fixedZone tz) date i = date + i * msPerDay.
Proof. unfold addDays, UTC, LocalTime. cbn [fixedZone offsetAtUTC offsetAtLocal]. lia. Qed.

(** In a zone of constant offset a move of [i] days on the local
    calendar is a move of [i] days of UTC. *)
Lemma fixedZone_aligned (tz date : Z) : calendarAligned (fixedZone tz) date.
Proof.
  intros i _. rewrite addDays_fixedZone.
  unfold dateKey. apply Z.div_add. unfold msPerDay. lia.
Qed.

Section RateFacts.

Variable zone : Zone.
Variable table : RateTable.

(** No entry at any of the distances probed: the loop finds nothing. *)
Lemma probeRates_none (date : Z) (n : nat) : forall i : Z,
  calendarAligned zone date -> 1 <= i -> i + Z.of_nat n <= 8 ->
  (forall j, i <= j < i + Z.of_nat n ->
     table !! (dateKey date - j) = None /\ table !! (dateKey date + j) = None) ->
  probeRates zone table date i n = None.
Proof.
  induction n as [|n IH]; intros i Hal Hi Hn Hnone; simpl; [reflexivity|].
  rewrite (Hal (- i) ltac:(lia)), (Hal i ltac:(lia)).
  destruct (Hnone i ltac:(lia)) as [He Hl].
  replace (dateKey date + - i) with (dateKey date - i) by lia.
  rewrite He, Hl. apply IH; [exact Hal | lia | lia |].
  intros j Hj. apply Hnone. lia.
Qed.

(** The first distance with an entry decides, the earlier day before
    the later one. *)
Lemma probeRates_first (date : Z) (n : nat) : forall i k : Z,
  calendarAligned zone date -> 1 <= i -> i + Z.of_nat n <= 8 ->
  i <= k < i + Z.of_nat n ->
  (forall j, i <= j < k ->
     table !! (dateKey date - j) = None /\ table !! (dateKey date + j) = None) ->
  (forall r, table !! (dateKey date - k) = Some r ->
     probeRates zone table date i n = Some r) /\
  (forall r, table !! (dateKey date - k) = None ->
     table !! (dateKey date + k) = Some r ->
     probeRates zone table date i n = Some r).
Proof.
  induction n as [|n IH]; intros i k Hal Hi Hn Hk Hnone; [lia|].
  simpl. rewrite (Hal (- i) ltac:(lia)), (Hal i ltac:(lia)).
  replace (dateKey date + - i) with (dateKey date - i) by lia.
  destruct (Z.eq_dec i k) as [-> | Hne].
  - split; intros r H1; [now rewrite H1|].
    intros H2. now rewrite H1, H2.
  - destruct (Hnone i ltac:(lia)) as [He Hl]. rewrite He, Hl.
    apply IH; [exact Hal | lia | lia | lia |]. intros j Hj. apply Hnone. lia.
Qed.

(** Whatever the loop returns is a value stored in the table. *)
Lemma probeRates_stored (date : Z) (n : nat) : forall (i : Z) (r : Q),
  probeRates zone table date i n = Some r -> exists key, table !! key = Some r.
Proof.
  induction n as [|n IH]; intros i r; simpl; [discriminate|].
  destruct (table !! dateKey (addDays zone date (- i))) as [r1|] eqn:E1.
  { intros [= <-]. eauto. }
  destruct (table !! dateKey (addDays zone date i)) as [r2|] eqn:E2.
  { intros [= <-]. eauto. }
  apply IH.
Qed.

Lemma getUSDToAUDRate_stored_or_fallback (date : Z) :
  (exists key, table !! key = Some (getUSDToAUDRate zone table date)) \/
  getUSDToAUDRate zone table date = fallbackRate.
Proof.
  unfold getUSDToAUDRate.
  destruct (table !! dateKey date) as [r|] eqn:E; [left; eauto|].
  destruct (probeRates zone table date 1 7) as [r|] eqn:P; [|now right].
  left. eapply probeRates_stored, P.
Qed.

Lemma getUSDToAUDRate_positive (date : Z) :
  map_Forall (fun _ r => (0 < r)%Q) table ->
  (0 < getUSDToAUDRate zone table date)%Q.
Proof.
  intros Hpos.
  destruct (getUSDToAUDRate_stored_or_fallback date) as [[key Hk] | ->].
  - exact (Hpos _ _ Hk).
  - reflexivity.
Qed.

End RateFacts.

(** The loaders only ever store positive rates. *)
Lemma storeRate_positive (table : RateTable) (row : option Z * option Q) :
  map_Forall (fun _ r => (0 < r)%Q) table ->
  map_Forall (fun _ r => (0 < r)%Q) (storeRate table row).
Proof.
  intros Hpos. destruct row as [[d|] [r|]]; simpl; try exact Hpos.
  destruct (Qlt_le_dec 0 r) as [Hr|_]; [|exact Hpos].
  apply map_Forall_insert_2; assumption.
Qed.

Lemma loadRates_positive (rows : list (option Z * option Q)) :
  map_Forall (fun _ r => (0 < r)%Q) (loadRates rows).
Proof.
  unfold loadRates.
  assert (H : forall (t : RateTable), map_Forall (fun _ r => (0 < r)%Q) t ->
            map_Forall (fun _ r => (0 < r)%Q) (fold_left storeRate rows t)).
  { induction rows as [|row rows IH]; intros t Ht; simpl; [exact Ht|].
    apply IH, storeRate_positive, Ht. }
  apply H, map_Forall_empty.
Qed.

(** The same two facts on binary64 numbers: a stored rate is above 0
    (so it is no NaN and no zero), and so is every rate returned. *)
Lemma binary64_storeRate_positive (table : Binary64.RateTable) (row : option Z * float) :
  map_Forall (fun _ r => PrimFloat.ltb 0%float r = true) table ->
  map_Forall (fun _ r => PrimFloat.ltb 0%float r = true) (Binary64.storeRate table row).
Proof.
  intros Hpos. destruct row as [[d|] r]; cbn [Binary64.storeRate]; [|exact Hpos].
  destruct (negb (PrimFloat.is_nan r)); cbn [andb]; [|exact Hpos].
  destruct (PrimFloat.ltb 0%float r) eqn:Hr; [|exact Hpos].
  apply map_Forall_insert_2; assumption.
Qed.

Lemma binary64_loadRates_positive (rows : list (option Z * float)) :
  map_Forall (fun _ r => PrimFloat.ltb 0%float r = true) (Binary64.loadRates rows).
Proof.
  unfold Binary64.loadRates.
  assert (H : forall t : Binary64.RateTable,
            map_Forall (fun _ r => PrimFloat.ltb 0%float r = true) t ->
            map_Forall (fun _ r => PrimFloat.ltb 0%float r = true)
              (fold_left Binary64.storeRate rows t)).
  { induction rows as [|row rows IH]; intros t Ht; simpl; [exact Ht|].
    apply IH, binary64_storeRate_positive, Ht. }
  apply H, map_Forall_empty.
Qed.

Lemma binary64_probeRates_stored
    (zone : Zone) (table : Binary64.RateTable) (date : Z) (n : nat) :
  forall (i : Z) (r : float),
    Binary64.probeRates zone table date i n = Some r ->
    exists key, table !! key = Some r.
Proof.
  induction n as [|n IH]; intros i r; simpl; [discriminate|].
  destruct (table !! dateKey (addDays zone date (- i))) as [r1|] eqn:E1.
  { intros [= <-]. eauto. }
  destruct (table !! dateKey (addDays zone date i)) as [r2|] eqn:E2.
  { intros [= <-]. eauto. }
  apply IH.
Qed.

Lemma binary64_rate_positive (zone : Zone) (table : Binary64.RateTable) (date : Z) :
  map_Forall (fun _ r => PrimFloat.ltb 0%float r = true) table ->
  PrimFloat.ltb 0%float (Binary64.getUSDToAUDRate zone table date) = true.
Proof.
  intros Hpos. unfold Binary64.getUSDToAUDRate.
  destruct (table !! dateKey date) as [r|] eqn:E; [exact (Hpos _ _ E)|].
  destruct (Binary64.probeRates zone table date 1 7) as [r|] eqn:P; [|reflexivity].
  destruct (binary64_probeRates_stored zone table date 7 1 r P) as [key Hk].
  exact (Hpos _ _ Hk).
Qed.

(** The scan of server.js keeps the nearest entry met so far, the first
    one among equally near entries. *)
Lemma scan_invariant (date : Z) (l : list (Z * Q)) :
  forall (pre : list (Z * Q)) (acc : option Q * option Z),
    match acc with
    | (Some r, Some d) =>
        exists l1 e l2,
          pre = l1 ++ e :: l2 /\ snd e = r /\ elapsed date e = d /\
          d <= 7 * msPerDay /\
          Forall (fun e' => d < elapsed date e') l1 /\
          Forall (fun e' => d <= elapsed date e') l2
    | (None, None) => Forall (fun e' => 7 * msPerDay < elapsed date e') pre
    | _ => False
    end ->
    match fold_left (Server.scanStep date) l acc with
    | (Some r, Some d) =>
        exists l1 e l2,
          pre ++ l = l1 ++ e :: l2 /\ snd e = r /\ elapsed date e = d /\
          d <= 7 * msPerDay /\
          Forall (fun e' => d < elapsed date e') l1 /\
          Forall (fun e' => d <= elapsed date e') l2
    | (None, None) => Forall (fun e' => 7 * msPerDay < elapsed date e') (pre ++ l)
    | _ => False
    end.
Proof.
  induction l as [|x l IH]; intros pre acc Hinv.
  - cbn [fold_left]. rewrite app_nil_r. exact Hinv.
  - cbn [fold_left].
    replace (pre ++ x :: l) with ((pre ++ [x]) ++ l)
      by (rewrite <- app_assoc; reflexivity).
    apply IH. destruct x as [key rate].
    destruct acc as [[r|] [d|]]; try contradiction;
      unfold Server.scanStep; cbv beta iota zeta;
      change (Z.abs (date - key * msPerDay)) with (elapsed date (key, rate)).
    + destruct Hinv as (l1 & e & l2 & -> & Hr & Hd & H7 & Hl1 & Hl2).
      destruct (Z.leb_spec (elapsed date (key, rate)) (7 * msPerDay)) as [Hle | Hgt];
        [destruct (Z.ltb_spec (elapsed date (key, rate)) d) as [Hlt | Hge]|];
        cbn [andb].
      * exists (l1 ++ e :: l2), (key, rate), [].
        split; [reflexivity|]. split; [reflexivity|]. split; [reflexivity|].
        split; [exact Hle|]. split; [|constructor].
        apply Forall_app. split.
        -- eapply List.Forall_impl; [|exact Hl1]. cbv beta. intros; lia.
        -- constructor; [lia|].
           eapply List.Forall_impl; [|exact Hl2]. cbv beta. intros; lia.
      * exists l1, e, (l2 ++ [(key, rate)]).
        split; [rewrite <- app_assoc; reflexivity|].
        split; [exact Hr|]. split; [exact Hd|]. split; [exact H7|].
        split; [exact Hl1|]. apply Forall_app. split; [exact Hl2|].
        constructor; [lia | constructor].
      * exists l1, e, (l2 ++ [(key, rate)]).
        split; [rewrite <- app_assoc; reflexivity|].
        split; [exact Hr|]. split; [exact Hd|]. split; [exact H7|].
        split; [exact Hl1|]. apply Forall_app. split; [exact Hl2|].
        constructor; [lia | constructor].
    + destruct (Z.leb_spec (elapsed date (key, rate)) (7 * msPerDay)) as [Hle | Hgt];
        cbn [andb].
      * exists pre, (key, rate), [].
        split; [reflexivity|]. split; [reflexivity|]. split; [reflexivity|].
        split; [exact Hle|]. split; [|constructor].
        eapply List.Forall_impl; [|exact Hinv]. cbv beta. intros; lia.
      * apply Forall_app. split; [exact Hinv|]. constructor; [lia | constructor].
Qed.

(** The times of a UTC day. *)
Lemma dateKey_bounds (date day : Z) :
  dateKey date = day -> day * msPerDay <= date < (day + 1) * msPerDay.
Proof.
  unfold dateKey. intros <-.
  assert (Hms : 0 < msPerDay) by reflexivity.
  pose proof (Z.mul_div_le date msPerDay Hms).
  pose proof (Z.mul_succ_div_gt date msPerDay Hms). lia.
Qed.

(** C6, as stated, fails.  In server.js the table is scanned for the
    entry nearest in elapsed time: at 18:00 UTC of 2024-01-05, with
    entries for 2024-01-04 and 2024-01-06 only, the day before is the
    first day the claim probes and it has an entry (5/4, which main.js
    returns), yet server.js returns the rate of the day after (7/4),
    whose midnight is 6 hours away.  In main.js the probes move on the
    local calendar: in a zone with daylight saving, at 00:30 UTC of
    2024-04-08, with entries for 2024-04-05 and 2024-04-10 only, no
    entry lies 1 day away or 2 days earlier and one lies 2 days later
    (7/4), yet the entry of 3 days earlier (5/4) is returned. *)
Lemma C6_rate_lookup_counterexample :
  let table : RateTable :=
    <[days_from_civil 2024 1 4 := (5 # 4)%Q]>
      (<[days_from_civil 2024 1 6 := (7 # 4)%Q]> ∅) in
  let entries :=
    [(days_from_civil 2024 1 4, (5 # 4)%Q); (days_from_civil 2024 1 6, (7 # 4)%Q)] in
  let date := utcMidnight 2024 1 5 + 18 * 3600000 in
  let table' : RateTable :=
    <[days_from_civil 2024 4 5 := (5 # 4)%Q]>
      (<[days_from_civil 2024 4 10 := (7 # 4)%Q]> ∅) in
  let date' := utcMidnight 2024 4 8 + 30 * 60000 in
  (table !! dateKey date = None /\
   table !! (dateKey date - 1) = Some (5 # 4)%Q /\
   getUSDToAUDRate (fixedZone 0) table date = (5 # 4)%Q /\
   Server.getUSDToAUDRate entries date = (7 # 4)%Q) /\
  (table' !! dateKey date' = None /\
   table' !! (dateKey date' - 1) = None /\
   table' !! (dateKey date' + 1) = None /\
   table' !! (dateKey date' - 2) = None /\
   table' !! (dateKey date' + 2) = Some (7 # 4)%Q /\
   getUSDToAUDRate daylightZone table' date' = (5 # 4)%Q /\
   ~ calendarAligned daylightZone date').
Proof.
  split.
  - repeat split; vm_compute; reflexivity.
  - split; [reflexivity|]. split; [reflexivity|]. split; [reflexivity|].
    split; [reflexivity|]. split; [reflexivity|]. split; [vm_compute; reflexivity|].
    intros Hal. specialize (Hal (- 2) ltac:(lia)). vm_compute in Hal. discriminate.
Qed.

(** C6, amended.  main.js: when moving 1 to 7 days on the local
    calendar moves the UTC day of the date by as many days (always so
    in a zone of constant offset) and the date has no entry of its own,
    [getUSDToAUDRate] looks 1, 2, ..., 7 days away, the earlier day
    before the later day at each distance, and returns the first entry
    met; with no entry within 7 days on either side the result is 1.5.
    server.js: on a table of positive rates without an entry for the day
    of the date, the result is the rate of the entry whose UTC midnight
    is nearest in elapsed time to the date, the first of the table among
    equally near entries, if that is at most 7 days away, else 1.5.  In
    both files, for a table holding 2024-01-01 and 2024-01-10 only, any
    time of 2024-01-04 gets the rate of 2024-01-01 and any time of
    2024-01-20 gets 1.5.  (The condition on the calendar also holds in
    a zone with daylight saving, at the dates more than 7 days before
    the change of offset.) *)
Theorem C6_rate_probes_nearest_day_first :
  (forall (zone : Zone) (table : RateTable) (date : Z),
     calendarAligned zone date ->
     table !! dateKey date = None ->
     (forall k, 1 <= k <= 7 ->
        (forall j, 1 <= j < k ->
           table !! (dateKey date - j) = None /\
           table !! (dateKey date + j) = None) ->
        (forall r, table !! (dateKey date - k) = Some r ->
           getUSDToAUDRate zone table date = r) /\
        (forall r, table !! (dateKey date - k) = None ->
           table !! (dateKey date + k) = Some r ->
           getUSDToAUDRate zone table date = r)) /\
     ((forall j, 1 <= j <= 7 ->
         table !! (dateKey date - j) = None /\
         table !! (dateKey date + j) = None) ->
      getUSDToAUDRate zone table date = (3 # 2)%Q)) /\
  (forall tz date : Z, calendarAligned (fixedZone tz) date) /\
  (forall (entries : list (Z * Q)) (date : Z),
     Forall (fun e => fst e <> dateKey date) entries ->
     Forall (fun e => (0 < snd e)%Q) entries ->
     (exists l1 e l2,
        entries = l1 ++ e :: l2 /\
        Server.getUSDToAUDRate entries date = snd e /\
        elapsed date e <= 7 * msPerDay /\
        Forall (fun e' => elapsed date e < elapsed date e') l1 /\
        Forall (fun e' => elapsed date e <= elapsed date e') l2) \/
     (Server.getUSDToAUDRate entries date = (3 # 2)%Q /\
      Forall (fun e' => 7 * msPerDay < elapsed date e') entries)) /\
  (forall (zone : Zone) (r1 r10 : Q) (date : Z),
     calendarAligned zone date ->
     (dateKey date = days_from_civil 2024 1 4 ->
      getUSDToAUDRate zone (exampleTable r1 r10) date = r1) /\
     (dateKey date = days_from_civil 2024 1 20 ->
      getUSDToAUDRate zone (exampleTable r1 r10) date = (3 # 2)%Q)) /\
  (forall (r1 r10 : Q) (date : Z),
     ~ (r1 == 0)%Q ->
     (dateKey date = days_from_civil 2024 1 4 ->
      Server.getUSDToAUDRate
        [(days_from_civil 2024 1 1, r1); (days_from_civil 2024 1 10, r10)] date = r1) /\
     (dateKey date = days_from_civil 2024 1 20 ->
      Server.getUSDToAUDRate
        [(days_from_civil 2024 1 1, r1); (days_from_civil 2024 1 10, r10)] date
      = (3 # 2)%Q)) /\
  (forall date : Z,
     date + 7 * msPerDay < daylightSavingEnd -> calendarAligned daylightZone date).
Proof.
  assert (Hmain : forall (zone : Zone) (table : RateTable) (date : Z),
     calendarAligned zone date ->
     table !! dateKey date = None ->
     (forall k, 1 <= k <= 7 ->
        (forall j, 1 <= j < k ->
           table !! (dateKey date - j) = None /\
           table !! (dateKey date + j) = None) ->
        (forall r, table !! (dateKey date - k) = Some r ->
           getUSDToAUDRate zone table date = r) /\
        (forall r, table !! (dateKey date - k) = None ->
           table !! (dateKey date + k) = Some r ->
           getUSDToAUDRate zone table date = r)) /\
     ((forall j, 1 <= j <= 7 ->
         table !! (dateKey date - j) = None /\
         table !! (dateKey date + j) = None) ->
      getUSDToAUDRate zone table date = (3 # 2)%Q)).
  { intros zone table date Hal Hmiss. split.
    - intros k Hk Hnone.
      destruct (probeRates_first zone table date 7 1 k Hal ltac:(lia) ltac:(lia)
                  ltac:(lia) Hnone) as [He Hl].
      unfold getUSDToAUDRate. rewrite Hmiss.
      split; intros r H1.
      + now rewrite (He r H1).
      + intros H2. now rewrite (Hl r H1 H2).
    - intros Hnone. unfold getUSDToAUDRate. rewrite Hmiss.
      rewrite (probeRates_none zone table date 7 1 Hal ltac:(lia) ltac:(lia));
        [reflexivity|].
      intros j Hj. apply Hnone. lia. }
  split; [exact Hmain|]. split; [exact fixedZone_aligned|]. split; [|split; [|split]].
  - intros entries date Hmiss Hpos.
    assert (Hfind : list_find (fun e : Z * Q => bool_decide (fst e = dateKey date))
                      entries = None).
    { apply list_find_None. apply List.Forall_forall. intros e Hin Hb.
      apply bool_decide_unpack in Hb.
      exact (proj1 (List.Forall_forall _ _) Hmiss e Hin Hb). }
    unfold Server.getUSDToAUDRate. rewrite Hfind.
    pose proof (scan_invariant date entries [] (None, None) (List.Forall_nil _))
      as Hscan.
    cbn [app] in Hscan.
    destruct (fold_left (Server.scanStep date) entries (None, None)) as [[r|] [d|]];
      try contradiction; cbn [fst].
    + destruct Hscan as (l1 & e & l2 & -> & Hr & Hd & H7 & Hl1 & Hl2).
      left. exists l1, e, l2. split; [reflexivity|].
      assert (He : (0 < snd e)%Q).
      { apply Forall_app in Hpos. destruct Hpos as [_ Hpos].
        inversion Hpos; assumption. }
      assert (Hnz : Qeq_bool r 0 = false).
      { destruct (Qeq_bool r 0) eqn:E; [|reflexivity].
        apply Qeq_bool_iff in E. rewrite <- Hr in E. lra. }
      rewrite Hnz, Hd. split; [symmetry; exact Hr|]. split; [exact H7|].
      split; assumption.
    + right. split; [reflexivity | exact Hscan].
  - intros zone r1 r10 date Hal. split; intros Hday.
    + destruct (Hmain zone (exampleTable r1 r10) date Hal) as [Hk _];
        [rewrite Hday; reflexivity|].
      destruct (Hk 3 ltac:(lia)) as [Hearlier _].
      * intros j Hj. rewrite Hday.
        assert (Hc : j = 1 \/ j = 2) by lia.
        destruct Hc as [-> | ->]; split; reflexivity.
      * apply Hearlier. rewrite Hday. reflexivity.
    + destruct (Hmain zone (exampleTable r1 r10) date Hal) as [_ Hnone];
        [rewrite Hday; reflexivity|].
      apply Hnone. intros j Hj. rewrite Hday.
      assert (Hc : j = 1 \/ j = 2 \/ j = 3 \/ j = 4 \/ j = 5 \/ j = 6 \/ j = 7) by lia.
      destruct Hc as [-> | [-> | [-> | [-> | [-> | [-> | ->]]]]]]; split; reflexivity.
  - intros r1 r10 date Hr1.
    assert (D1 : days_from_civil 2024 1 1 = 19723) by reflexivity.
    assert (D4 : days_from_civil 2024 1 4 = 19726) by reflexivity.
    assert (D10 : days_from_civil 2024 1 10 = 19732) by reflexivity.
    assert (D20 : days_from_civil 2024 1 20 = 19742) by reflexivity.
    assert (Hms : msPerDay = 86400000) by reflexivity.
    split; intros Hday; pose proof (dateKey_bounds date _ Hday) as Hb;
      unfold Server.getUSDToAUDRate; rewrite Hday.
    + rewrite D1, D4, D10 in *. rewrite Hms in Hb.
      change (list_find (fun e : Z * Q => bool_decide (fst e = 19726))
                [(19723, r1); (19732, r10)]) with (@None (nat * (Z * Q))).
      cbn [fold_left]. unfold Server.scanStep. cbv beta iota zeta. rewrite Hms.
      destruct (Z.leb_spec (Z.abs (date - 19723 * 86400000)) (7 * 86400000));
        [|lia]. cbn [andb].
      destruct (Z.leb_spec (Z.abs (date - 19732 * 86400000)) (7 * 86400000));
        [|lia].
      destruct (Z.ltb_spec (Z.abs (date - 19732 * 86400000))
                  (Z.abs (date - 19723 * 86400000))); [lia|].
      cbn [andb fst].
      destruct (Qeq_bool r1 0) eqn:E; [|reflexivity].
      apply Qeq_bool_iff in E. contradiction.
    + rewrite D1, D10, D20 in *. rewrite Hms in Hb.
      change (list_find (fun e : Z * Q => bool_decide (fst e = 19742))
                [(19723, r1); (19732, r10)]) with (@None (nat * (Z * Q))).
      cbn [fold_left]. unfold Server.scanStep. cbv beta iota zeta. rewrite Hms.
      destruct (Z.leb_spec (Z.abs (date - 19723 * 86400000)) (7 * 86400000));
        [lia|]. cbn [andb].
      destruct (Z.leb_spec (Z.abs (date - 19732 * 86400000)) (7 * 86400000));
        [lia|]. reflexivity.
  - intros date Hbefore i Hi.
    assert (Hms : msPerDay = 86400000) by reflexivity.
    unfold addDays, UTC, LocalTime, daylightZone. cbn [offsetAtUTC offsetAtLocal].
    rewrite Hms in *.
    destruct (Z.ltb_spec date daylightSavingEnd) as [_ | Hge]; [|lia].
    destruct (Z.ltb_spec (date + 11 * 3600000 + i * 86400000)
                (daylightSavingEnd + 11 * 3600000)) as [_ | Hge]; [|lia].
    replace (date + 11 * 3600000 + i * 86400000 - 11 * 3600000)
      with (date + i * 86400000) by lia.
    unfold dateKey. rewrite Hms. apply Z.div_add. lia.
Qed.

Lemma C6_rate_probes_nearest_day_first_witness :
  getUSDToAUDRate (fixedZone 0) (exampleTable (5 # 4) (7 # 4)) (utcMidnight 2024 1 4)
  = (5 # 4)%Q /\
  Server.getUSDToAUDRate
    [(days_from_civil 2024 1 1, (5 # 4)%Q); (days_from_civil 2024 1 10, (7 # 4)%Q)]
    (utcMidnight 2024 1 4) = (5 # 4)%Q.
Proof.
  destruct C6_rate_probes_nearest_day_first as (Hmain & Hfixed & _ & _ & Hserver & _).
  split.
  - destruct (Hmain (fixedZone 0) (exampleTable (5 # 4) (7 # 4)) (utcMidnight 2024 1 4)
                (Hfixed 0 (utcMidnight 2024 1 4)) eq_refl) as [Hk _].
    assert (Hnear : forall j, 1 <= j < 3 ->
              exampleTable (5 # 4) (7 # 4) !! (dateKey (utcMidnight 2024 1 4) - j) = None /\
              exampleTable (5 # 4) (7 # 4) !! (dateKey (utcMidnight 2024 1 4) + j) = None).
    { intros j Hj. assert (Hc : j = 1 \/ j = 2) by lia.
      destruct Hc as [-> | ->]; split; reflexivity. }
    destruct (Hk 3 ltac:(lia) Hnear) as [Hearlier _].
    apply Hearlier. reflexivity.
  - destruct (Hserver (5 # 4)%Q (7 # 4)%Q (utcMidnight 2024 1 4)) as [H4 _].
    + intros H. discriminate H.
    + apply H4. reflexivity.
Defined.

(** C9.  [convertCurrency] returns the amount itself when the currency
    of the source market and the target currency are the same, the
    amount times the rate of the date from USD to AUD, the amount over
    that rate from AUD to USD, and the amount itself for any target code
    other than AU, US, AUD and USD; it has no other outcome. *)
Theorem C9_convertCurrency_cases
    (zone : Zone) (table : RateTable) (amount : Q)
    (fromMarket toCurrency : string) (date : Z) :
  (fromCurrencyOf fromMarket = targetCurrencyOf toCurrency ->
   convertCurrency zone table amount fromMarket toCurrency date = amount) /\
  (fromMarket <> "AU" -> toCurrency = "AUD" \/ toCurrency = "AU" ->
   convertCurrency zone table amount fromMarket toCurrency date
   = (amount * getUSDToAUDRate zone table date)%Q) /\
  (fromMarket = "AU" -> toCurrency = "USD" \/ toCurrency = "US" ->
   convertCurrency zone table amount fromMarket toCurrency date
   = (amount / getUSDToAUDRate zone table date)%Q) /\
  (toCurrency <> "AU" -> toCurrency <> "US" ->
   toCurrency <> "AUD" -> toCurrency <> "USD" ->
   convertCurrency zone table amount fromMarket toCurrency date = amount).
Proof.
  unfold convertCurrency.
  split; [|split; [|split]].
  - intros ->. now rewrite String.eqb_refl.
  - intros Hm Ht. unfold fromCurrencyOf.
    apply String.eqb_neq in Hm. rewrite Hm.
    destruct Ht as [-> | ->]; reflexivity.
  - intros -> Ht. destruct Ht as [-> | ->]; reflexivity.
  - intros H1 H2 H3 H4. unfold targetCurrencyOf, fromCurrencyOf.
    apply String.eqb_neq in H1, H2. rewrite H1, H2.
    destruct (String.eqb fromMarket "AU");
      destruct (String.eqb_spec "AUD" toCurrency);
      destruct (String.eqb_spec "USD" toCurrency);
      destruct (String.eqb_spec toCurrency "AUD");
      destruct (String.eqb_spec toCurrency "USD");
      subst; simpl; congruence.
Qed.

Lemma C9_convertCurrency_cases_witness :
  convertCurrency (fixedZone 0) (exampleTable (3 # 2) (8 # 5)) 10 "AU" "AUD"
    (utcMidnight 2024 1 4) = 10%Q /\
  convertCurrency (fixedZone 0) (exampleTable (3 # 2) (8 # 5)) 10 "US" "AUD"
    (utcMidnight 2024 1 4)
  = (10 * getUSDToAUDRate (fixedZone 0) (exampleTable (3 # 2) (8 # 5))
            (utcMidnight 2024 1 4))%Q /\
  convertCurrency (fixedZone 0) (exampleTable (3 # 2) (8 # 5)) 10 "AU" "USD"
    (utcMidnight 2024 1 4)
  = (10 / getUSDToAUDRate (fixedZone 0) (exampleTable (3 # 2) (8 # 5))
            (utcMidnight 2024 1 4))%Q /\
  convertCurrency (fixedZone 0) (exampleTable (3 # 2) (8 # 5)) 10 "US" "EUR"
    (utcMidnight 2024 1 4) = 10%Q.
Proof.
  split; [|split; [|split]].
  - destruct (C9_convertCurrency_cases (fixedZone 0) (exampleTable (3 # 2) (8 # 5))
                10 "AU" "AUD" (utcMidnight 2024 1 4)) as (Hsame & _).
    apply Hsame. reflexivity.
  - destruct (C9_convertCurrency_cases (fixedZone 0) (exampleTable (3 # 2) (8 # 5))
                10 "US" "AUD" (utcMidnight 2024 1 4)) as (_ & Hmul & _).
    apply Hmul; [discriminate | left; reflexivity].
  - destruct (C9_convertCurrency_cases (fixedZone 0) (exampleTable (3 # 2) (8 # 5))
                10 "AU" "USD" (utcMidnight 2024 1 4)) as (_ & _ & Hdiv & _).
    apply Hdiv; [reflexivity | left; reflexivity].
  - destruct (C9_convertCurrency_cases (fixedZone 0) (exampleTable (3 # 2) (8 # 5))
                10 "US" "EUR" (utcMidnight 2024 1 4)) as (_ & _ & _ & Hother).
    apply Hother; discriminate.
Defined.

(** C10, as stated, fails on its last clause, in the numbers the code
    computes with.  On an empty table every query is answered by the
    fallback 1.5 and the largest finite number, converted from USD to
    AUD, overflows to an infinity.  The guard of the loaders also lets
    the rate Infinity through, which is a number above 0: with it the
    conversion of 100 from USD to AUD is an infinity.  And it lets
    through the smallest positive number (the text 5e-324): the table is
    then positive and finite, the AUD to USD branch divides 100 by a
    number that is not zero, and the quotient overflows to an
    infinity. *)
Lemma C10_finite_amount_counterexample :
  let largest := 0x1.fffffffffffffp+1023%float in
  let smallest := 0x1p-1074%float in
  let table := Binary64.storeRate ∅ (Some (utcMidnight 2024 1 1), infinity) in
  let table' := Binary64.storeRate ∅ (Some (utcMidnight 2024 1 1), smallest) in
  (Binary64.isFinite largest = true /\
   Binary64.getUSDToAUDRate (fixedZone 0) ∅ (utcMidnight 2024 1 1) = 1.5%float /\
   Binary64.isFinite
     (Binary64.convertCurrency (fixedZone 0) ∅ largest "US" "AUD" (utcMidnight 2024 1 1))
   = false) /\
  (table !! dateKey (utcMidnight 2024 1 1) = Some infinity /\
   PrimFloat.ltb 0%float infinity = true /\
   Binary64.isFinite 100%float = true /\
   Binary64.isFinite
     (Binary64.convertCurrency (fixedZone 0) table 100%float "US" "AUD"
        (utcMidnight 2024 1 1))
   = false) /\
  (table' !! dateKey (utcMidnight 2024 1 1) = Some smallest /\
   PrimFloat.ltb 0%float smallest = true /\
   Binary64.isFinite smallest = true /\
   Binary64.isFinite
     (Binary64.convertCurrency (fixedZone 0) table' 100%float "AU" "USD"
        (utcMidnight 2024 1 1))
   = false).
Proof.
  split; [|split]; repeat split; vm_compute; reflexivity.
Qed.

(** C10, amended.  The loaders store positive rates only; on a table
    whose rates are all positive [getUSDToAUDRate] is positive at every
    date (exact entry, probed entry or the 1.5 fallback), so the AUD to
    USD branch of [convertCurrency] divides by a number that is not
    zero: in exact arithmetic its result is the amount over the rate,
    and times the rate gives the amount back.  The rate is above 0 in
    binary64 as well.  (A conversion of a finite amount need not be
    finite in binary64.) *)
Theorem C10_rate_positive_no_zero_divisor :
  (forall rows : list (option Z * option Q),
     map_Forall (fun _ r => (0 < r)%Q) (loadRates rows)) /\
  (forall (zone : Zone) (table : RateTable) (date : Z) (amount : Q),
     map_Forall (fun _ r => (0 < r)%Q) table ->
     (0 < getUSDToAUDRate zone table date)%Q /\
     ~ (getUSDToAUDRate zone table date == 0)%Q /\
     (convertCurrency zone table amount "AU" "USD" date
        * getUSDToAUDRate zone table date == amount)%Q /\
     (convertCurrency zone table amount "US" "AUD" date
        / getUSDToAUDRate zone table date == amount)%Q) /\
  (forall rows : list (option Z * float),
     map_Forall (fun _ r => PrimFloat.ltb 0%float r = true) (Binary64.loadRates rows)) /\
  (forall (zone : Zone) (table : Binary64.RateTable) (date : Z),
     map_Forall (fun _ r => PrimFloat.ltb 0%float r = true) table ->
     PrimFloat.ltb 0%float (Binary64.getUSDToAUDRate zone table date) = true).
Proof.
  split; [exact loadRates_positive|].
  split; [|split; [exact binary64_loadRates_positive | exact binary64_rate_positive]].
  intros zone table date amount Hpos.
  pose proof (getUSDToAUDRate_positive zone table date Hpos) as Hr.
  assert (Hnz : ~ (getUSDToAUDRate zone table date == 0)%Q)
    by (apply Qnot_eq_sym, Qlt_not_eq, Hr).
  split; [exact Hr|]. split; [exact Hnz|]. split.
  - change (convertCurrency zone table amount "AU" "USD" date)
      with (amount / getUSDToAUDRate zone table date)%Q.
    field. exact Hnz.
  - change (convertCurrency zone table amount "US" "AUD" date)
      with (amount * getUSDToAUDRate zone table date)%Q.
    field. exact Hnz.
Qed.

Lemma C10_rate_positive_no_zero_divisor_witness :
  (0 < getUSDToAUDRate (fixedZone 0) (exampleTable (5 # 4) (7 # 4))
         (utcMidnight 2024 1 4))%Q /\
  (convertCurrency (fixedZone 0) (exampleTable (5 # 4) (7 # 4)) 10 "AU" "USD"
     (utcMidnight 2024 1 4)
   * getUSDToAUDRate (fixedZone 0) (exampleTable (5 # 4) (7 # 4)) (utcMidnight 2024 1 4)
   == 10)%Q.
Proof.
  destruct C10_rate_positive_no_zero_divisor as (_ & Hgen & _).
  destruct (Hgen (fixedZone 0) (exampleTable (5 # 4) (7 # 4)) (utcMidnight 2024 1 4) 10%Q)
    as (Hpos & _ & Hback & _).
  - unfold exampleTable.
    apply map_Forall_insert_2; [reflexivity|].
    apply map_Forall_insert_2; [reflexivity|].
    apply map_Forall_empty.
  - split; [exact Hpos | exact Hback].
Defined.

(** ** Sorting by date *)

Lemma insertByDate_perm (t : Trade) (l : list Trade) :
  Permutation (t :: l) (insertByDate t l).
Proof.
  induction l as [|h r IH]; simpl; [reflexivity|].
  destruct (date t <=? date h); [reflexivity|].
  rewrite perm_swap. now apply perm_skip.
Qed.

Lemma insertByDate_ascending (t : Trade) (l : list Trade) :
  ascending l -> ascending (insertByDate t l).
Proof.
  unfold ascending. induction l as [|h r IH]; intros Hs; simpl.
  - constructor; constructor.
  - inversion Hs as [|? ? Hr Hall]; subst.
    destruct (date t <=? date h) eqn:E.
    + apply Z.leb_le in E. constructor; [exact Hs|].
      constructor; [exact E|].
      eapply Forall_impl; [exact Hall|]. simpl. intros; lia.
    + apply Z.leb_gt in E. constructor; [now apply IH|].
      rewrite <- (insertByDate_perm t r). constructor; [lia | exact Hall].
Qed.

Lemma sortByDate_perm (l : list Trade) : Permutation l (sortByDate l).
Proof.
  induction l as [|t l IH]; simpl; [reflexivity|].
  rewrite <- insertByDate_perm. now apply perm_skip.
Qed.

Lemma sortByDate_ascending (l : list Trade) : ascending (sortByDate l).
Proof.
  induction l as [|t l IH]; simpl.
  - constructor.
  - now apply insertByDate_ascending.
Qed.


(** ** Sums of rationals *)

Lemma fold_left_Qplus (l : list Q) (a : Q) :
  (fold_left Qplus l a == a + sumQ l)%Q.
Proof.
  unfold sumQ. revert a. induction l as [|x l IH]; intros a; simpl.
  - ring.
  - rewrite (IH (a + x)%Q), (IH (0 + x)%Q). ring.
Qed.

Lemma sumQ_cons (x : Q) (l : list Q) : (sumQ (x :: l) == x + sumQ l)%Q.
Proof.
  unfold sumQ at 1. simpl. rewrite fold_left_Qplus. ring.
Qed.

Lemma sumQ_app (l1 l2 : list Q) : (sumQ (l1 ++ l2) == sumQ l1 + sumQ l2)%Q.
Proof.
  induction l1 as [|x l1 IH]; simpl.
  - unfold sumQ at 2. simpl. ring.
  - rewrite !sumQ_cons, IH. ring.
Qed.

Lemma Qgtb_true (a b : Q) : Qgtb a b = true <-> (b < a)%Q.
Proof.
  unfold Qgtb. destruct (Qlt_le_dec b a) as [H|H]; split; intros H'.
  - exact H.
  - reflexivity.
  - discriminate.
  - exfalso. lra.
Qed.

Lemma Qgtb_false (a b : Q) : Qgtb a b = false <-> (a <= b)%Q.
Proof.
  unfold Qgtb. destruct (Qlt_le_dec b a) as [H|H]; split; intros H'.
  - discriminate.
  - exfalso. lra.
  - exact H.
  - reflexivity.
Qed.

(** [Math.min] returns one of its arguments. *)
Lemma Qmin_cases (a b : Q) :
  ((a <= b)%Q /\ Qmin a b = a) \/ ((b < a)%Q /\ Qmin a b = b).
Proof.
  destruct (Qlt_le_dec b a) as [H|H].
  - right. split; [exact H|]. unfold Qmin, GenericMinMax.gmin.
    apply Qgt_alt in H. now rewrite H.
  - left. split; [exact H|]. unfold Qmin, GenericMinMax.gmin.
    destruct (a ?= b)%Q eqn:E; try reflexivity.
    apply Qgt_alt in E. lra.
Qed.

(** ** The sell loop of the FIFO engine *)

Lemma headSlices_nothing_left (remaining : Q) (queue : list Holding) :
  (remaining <= 0)%Q -> headSlices remaining queue = [].
Proof.
  intros H. destruct queue as [|h rest]; [reflexivity|]. simpl.
  apply Qgtb_false in H. now rewrite H.
Qed.

Lemma sumQ_nil : sumQ [] = 0%Q.
Proof. reflexivity. Qed.

(** With fuel beyond the length of the queue the loop returns, and what
    it returns is what the slices say: the cost sold is the sum of the
    slice costs, the quantity left is what the slices did not take, and
    the loop stops with nothing left to sell or with an empty queue. *)
Lemma sellLoop_slices (queue : list Holding) :
  forall (fuel : nat) (remaining total : Q),
    (length queue < fuel)%nat ->
    exists remaining' queue' total',
      sellLoop fuel remaining queue total = Ok (remaining', queue', total') /\
      (total' == total + sumQ (map sliceCost (headSlices remaining queue)))%Q /\
      (remaining' == remaining - sumQ (map fst (headSlices remaining queue)))%Q /\
      ((remaining' <= 0)%Q \/ queue' = []).
Proof.
  induction queue as [|h rest IH]; intros fuel remaining total Hfuel.
  - destruct fuel as [|fuel]; [simpl in Hfuel; lia|].
    exists remaining, [], total. simpl. unfold sumQ. simpl.
    split; [reflexivity|]. split; [ring|]. split; [ring|]. now right.
  - destruct fuel as [|fuel]; [simpl in Hfuel; lia|].
    simpl in Hfuel. simpl sellLoop. simpl headSlices.
    destruct (Qgtb remaining 0) eqn:G.
    + cbv zeta. simpl h_qty.
      set (c := Qmin remaining (h_qty h)).
      destruct (Qle_bool (h_qty h - c) 0) eqn:P.
      * destruct (IH fuel (remaining - c)%Q (total + h_costPerShare h * c)%Q
                    ltac:(lia)) as (r' & q' & t' & Hrun & Ht & Hr & Hstop).
        exists r', q', t'. split; [exact Hrun|].
        simpl map. rewrite !sumQ_cons. unfold sliceCost at 1. simpl fst. simpl snd.
        split; [rewrite Ht; ring|]. split; [rewrite Hr; ring|]. exact Hstop.
      * assert (Hleft : (remaining - c <= 0)%Q).
        { assert (Hnp : ~ (h_qty h - c <= 0)%Q).
          { intros Hle. apply Qle_bool_iff in Hle. congruence. }
          destruct (Qmin_cases remaining (h_qty h)) as [[_ Hc] | [_ Hc]];
            fold c in Hc; rewrite Hc in *; [lra|]. exfalso. apply Hnp. lra. }
        destruct fuel as [|fuel]; [lia|]. simpl sellLoop.
        apply Qgtb_false in Hleft as G'. rewrite G'.
        rewrite (headSlices_nothing_left _ rest Hleft).
        eexists _, _, _. split; [reflexivity|].
        simpl map. rewrite !sumQ_cons, sumQ_nil.
        unfold sliceCost. simpl fst. simpl snd.
        split; [ring|]. split; [ring|]. now left.
    + exists remaining, (h :: rest), total. simpl map. rewrite sumQ_nil.
      split; [reflexivity|]. split; [ring|]. split; [ring|].
      left. now apply Qgtb_false.
Qed.

Lemma fifoStep_total (st : FifoState) (trade : Trade) :
  exists st', fifoStep st trade = Ok st'.
Proof.
  unfold fifoStep.
  destruct (String.eqb (side trade) "Buy"); [eauto|].
  destruct (String.eqb (side trade) "Sell"); [|eauto].
  destruct (sellLoop_slices (holdingsQueue st) (sellFuel (holdingsQueue st))
              (qty trade) 0%Q ltac:(unfold sellFuel; lia))
    as (r' & q' & t' & Hrun & _).
  rewrite Hrun. simpl. eauto.
Qed.

Lemma foldM_fifoStep_total (l : list Trade) :
  forall st, exists st', foldM fifoStep l st = Ok st'.
Proof.
  induction l as [|t l IH]; intros st; simpl; [eauto|].
  destruct (fifoStep_total st t) as [st1 H1]. rewrite H1. simpl. apply IH.
Qed.



(** ** Short sales in the FIFO engine *)




(** ** The loops of the capital gains reporter *)

Lemma sumQ_nonneg_positiveLots (holdings : list Lot) :
  positiveLots holdings -> (0 <= totalQty holdings)%Q.
Proof.
  unfold positiveLots, totalQty.
  induction 1 as [|l r Hl Hr IH]; simpl map.
  - rewrite sumQ_nil. lra.
  - rewrite sumQ_cons. lra.
Qed.

Lemma totalQty_cons (l : Lot) (r : list Lot) :
  (totalQty (l :: r) == l_qty l + totalQty r)%Q.
Proof. unfold totalQty. simpl map. apply sumQ_cons. Qed.

Lemma totalCost_cons (l : Lot) (r : list Lot) :
  (totalCost (l :: r) == l_cost l + totalCost r)%Q.
Proof. unfold totalCost. simpl map. apply sumQ_cons. Qed.

Section ReportLoop.

Variable optionsInfo : option OptionsInfo.
Variable trade : Trade.
Variable sellPricePerUnit totalCommissionAndFees : Q.

(** With fuel beyond the number of lots the loop returns.  The
    quantities of the records it pushes add up to what it took off the
    quantity to sell, and it stops with nothing left to sell or with no
    lot left.  On lots of positive quantity: a sell the lots cover
    leaves nothing to sell; a sell the lots do not exceed empties the
    holdings, and the cost bases of its records add up to the whole cost
    of the lots. *)
Lemma reportLoop_runs (holdings : list Lot) :
  forall (fuel : nat) (remaining : Q) (emitted : list CapitalGain),
    (length holdings < fuel)%nat ->
    exists remaining' holdings' new,
      reportLoop fuel optionsInfo trade sellPricePerUnit totalCommissionAndFees
        remaining holdings emitted = Ok (remaining', holdings', emitted ++ new) /\
      (sumQ (map r_qty new) == remaining - remaining')%Q /\
      ((remaining' <= 0)%Q \/ holdings' = []) /\
      Forall (sliceRecord trade sellPricePerUnit totalCommissionAndFees) new /\
      ((remaining <= 0)%Q -> holdings' = holdings /\ new = []) /\
      (positiveLots holdings ->
       positiveLots holdings' /\
       ((0 < remaining)%Q -> (remaining <= totalQty holdings)%Q ->
        (remaining' == 0)%Q) /\
       ((0 < remaining)%Q -> (totalQty holdings <= remaining)%Q ->
        holdings' = [] /\
        (remaining' == remaining - totalQty holdings)%Q /\
        (sumQ (map r_costBasis new) == totalCost holdings)%Q)).
Proof.
  induction holdings as [|h rest IH]; intros fuel remaining emitted Hfuel.
  - destruct fuel as [|fuel]; [simpl in Hfuel; lia|].
    exists remaining, [], []. simpl. rewrite app_nil_r.
    split; [reflexivity|]. split; [unfold sumQ; simpl; ring|].
    split; [now right|]. split; [constructor|]. split; [easy|].
    intros _. split; [constructor|].
    unfold totalQty, totalCost, sumQ; simpl.
    split; [intros; lra|]. intros. split; [reflexivity|]. split; ring.
  - destruct fuel as [|fuel]; [simpl in Hfuel; lia|].
    simpl in Hfuel. simpl reportLoop.
    destruct (Qgtb remaining 0) eqn:G.
    + apply Qgtb_true in G. cbv zeta. simpl l_qty.
      set (c := Qmin remaining (l_qty h)).
      match goal with
      | |- context [emitted ++ [?r]] => set (record := r)
      end.
      assert (Hrec : sliceRecord trade sellPricePerUnit totalCommissionAndFees record).
      { unfold sliceRecord, record. simpl. split; [ring|]. split; reflexivity. }
      destruct (Qeq_bool (l_qty h - c) 0) eqn:P.
      * (* the head lot is used up *)
        apply Qeq_bool_iff in P.
        destruct (IH fuel (remaining - c)%Q (emitted ++ [record]) ltac:(lia))
          as (r' & h' & new & Hrun & Hq & Hstop & Hrecs & Hidle & Hpos).
        exists r', h', (record :: new).
        rewrite Hrun, <- app_assoc. simpl app.
        split; [reflexivity|].
        split; [simpl map; rewrite sumQ_cons, Hq; simpl r_qty; ring|].
        split; [exact Hstop|]. split; [now constructor|].
        split; [intros; lra|].
        intros Hall. inversion Hall as [|? ? Hh Hrest]; subst.
        destruct (Hpos Hrest) as (Hpos' & Hcover & Hall').
        pose proof (sumQ_nonneg_positiveLots rest Hrest) as Hnn.
        assert (Hc : (c == l_qty h)%Q) by lra.
        assert (Hcle : (c <= remaining)%Q) by apply Q.le_min_l.
        split; [exact Hpos'|]. split.
        -- intros _ Hle. rewrite totalQty_cons in Hle.
           destruct (Qlt_le_dec 0 (remaining - c)) as [Hmore|Hdone].
           ++ apply Hcover; lra.
           ++ destruct (Hidle Hdone) as [-> ->]. simpl map in Hq.
              rewrite sumQ_nil in Hq. lra.
        -- intros _ Hle. rewrite totalQty_cons in Hle.
           rewrite totalQty_cons, totalCost_cons.
           simpl map. rewrite sumQ_cons. simpl r_costBasis.
           assert (Hcb : (l_cost h / l_qty h * c == l_cost h)%Q).
           { rewrite Hc. field. lra. }
           destruct (Qlt_le_dec 0 (remaining - c)) as [Hmore|Hdone].
           ++ destruct (Hall' Hmore ltac:(lra)) as (-> & Hr' & Hcost).
              split; [reflexivity|]. split; [lra|]. rewrite Hcost, Hcb. ring.
           ++ destruct (Hidle Hdone) as [-> ->].
              assert (Hrest0 : rest = []).
              { destruct rest as [|l2 rest2]; [reflexivity|]. exfalso.
                inversion Hrest as [|? ? Hl2 Hrest2]; subst.
                pose proof (sumQ_nonneg_positiveLots rest2 Hrest2).
                rewrite totalQty_cons in Hle. lra. }
              subst rest. simpl map in Hq. rewrite sumQ_nil in Hq.
              unfold totalQty, totalCost. simpl map. rewrite !sumQ_nil.
              split; [reflexivity|]. split; [lra|]. rewrite Hcb. ring.
      * (* the head lot is not used up: nothing is left to sell *)
        assert (Hnz : ~ (l_qty h - c == 0)%Q).
        { intros He. apply Qeq_bool_iff in He. congruence. }
        assert (Hc : (c == remaining)%Q /\ (remaining <= l_qty h)%Q).
        { destruct (Qmin_cases remaining (l_qty h)) as [[Hle Hc] | [_ Hc]];
            fold c in Hc; rewrite Hc in *; [split; [reflexivity | exact Hle]|].
          exfalso. apply Hnz. ring. }
        destruct Hc as [Hc Hle].
        destruct fuel as [|fuel]; [lia|]. simpl reportLoop.
        assert (Hleft : (remaining - c <= 0)%Q) by lra.
        apply Qgtb_false in Hleft as G'. rewrite G'.
        eexists _, _, [record]. split; [reflexivity|].
        split; [simpl map; rewrite sumQ_cons, sumQ_nil; simpl r_qty; ring|].
        split; [now left|]. split; [now constructor|].
        split; [intros; lra|].
        intros Hall. inversion Hall as [|? ? Hh Hrest]; subst.
        pose proof (sumQ_nonneg_positiveLots rest Hrest) as Hnn.
        split.
        { constructor; [simpl; lra | exact Hrest]. }
        split; [intros; lra|].
        intros _ Hcov. rewrite totalQty_cons in Hcov. exfalso. lra.
    + apply Qgtb_false in G.
      exists remaining, (h :: rest), []. rewrite app_nil_r.
      split; [reflexivity|]. split; [simpl map; rewrite sumQ_nil; ring|].
      split; [now left|]. split; [constructor|]. split; [easy|].
      intros Hall. split; [exact Hall|]. split; intros; lra.
Qed.

End ReportLoop.

(** ** Sells beyond the open lots *)

Lemma queueQty_nonneg (queue : list Holding) :
  positiveQueue queue -> (0 <= queueQty queue)%Q.
Proof.
  unfold positiveQueue, queueQty.
  induction 1 as [|h r Hh Hr IH]; simpl map.
  - rewrite sumQ_nil. lra.
  - rewrite sumQ_cons. lra.
Qed.

(** A sell larger than the whole queue takes every lot entirely. *)
Lemma headSlices_take_all (queue : list Holding) :
  forall remaining : Q,
    positiveQueue queue -> (queueQty queue < remaining)%Q ->
    (sumQ (map fst (headSlices remaining queue)) == queueQty queue)%Q.
Proof.
  unfold queueQty.
  induction queue as [|h rest IH]; intros remaining Hpos Hlt; simpl.
  - reflexivity.
  - inversion Hpos as [|? ? Hh Hrest]; subst.
    pose proof (queueQty_nonneg rest Hrest) as Hnn. unfold queueQty in Hnn.
    simpl map in Hlt. rewrite sumQ_cons in Hlt.
    assert (G : Qgtb remaining 0 = true) by (apply Qgtb_true; lra).
    rewrite G. simpl map. rewrite !sumQ_cons. simpl fst.
    destruct (Qmin_cases remaining (h_qty h)) as [[Hle _] | [_ Hc]]; [lra|].
    rewrite Hc. rewrite IH; [reflexivity | exact Hrest | lra].
Qed.

(** C3, as stated, fails: with Buy 10 then, inside the window, Sell 15,
    the records of the sell are for 10 units, not 15, and the reporter's
    holdings end empty, without a negative lot. *)
Lemma C3_uncovered_sell_counterexample :
  let buy := plainTrade "Buy" "XYZ" "AU" 10 10 (utcMidnight 2024 1 10) in
  let sell := plainTrade "Sell" "XYZ" "AU" 15 20 (utcMidnight 2024 2 1) in
  exists records holdings,
    calculateCapitalGains (utcMidnight 2025 1 1) (fixedZone 0) [buy; sell] None = Ok records /\
    reportSymbol (utcMidnight 2025 1 1) (fixedZone 0) None "XYZ" [buy; sell] []
    = Ok (holdings, records) /\
    Forall (fun r => r_sellDate r = date sell) records /\
    ~ (sumQ (map r_qty records) == qty sell)%Q /\
    holdings = [].
Proof.
  cbv zeta. eexists _, _.
  split; [vm_compute; reflexivity|].
  split; [vm_compute; reflexivity|].
  split; [repeat constructor|].
  split; [|reflexivity]. vm_compute. discriminate.
Qed.

(** C3, amended.  For every sell inside the report window the
    quantities of the records it emits add up to the sell's quantity
    less the part the open lots could not cover.  On lots of positive
    quantity: if they cover the sell, the records add up to the sell's
    total quantity; if the sell exceeds them, the records add up to the
    open quantity only, and the reporter is left with no lot at all, so
    the residual yields no record.  It is the FIFO engine of
    [calculateFIFOPnL] that turns such a residual into a new negative
    lot, alone at the head of its queue. *)
Theorem C3_slice_quantities
    (optionsInfo : option OptionsInfo) (trade : Trade) :
  (forall holdings : list Lot,
     exists remaining holdings' records,
       reportSell optionsInfo trade holdings = Ok (remaining, holdings', records) /\
       (sumQ (map r_qty records) == qty trade - remaining)%Q /\
       Forall (fun r => r_sellDate r = date trade) records /\
       (positiveLots holdings -> (0 < qty trade)%Q ->
        ((qty trade <= totalQty holdings)%Q ->
         (sumQ (map r_qty records) == qty trade)%Q) /\
        ((totalQty holdings < qty trade)%Q ->
         (sumQ (map r_qty records) == totalQty holdings)%Q /\
         (remaining == qty trade - totalQty holdings)%Q /\
         holdings' = []))) /\
  (forall st : FifoState,
     side trade = "Sell" ->
     positiveQueue (holdingsQueue st) ->
     (queueQty (holdingsQueue st) < qty trade)%Q ->
     exists st' short,
       fifoStep st trade = Ok st' /\
       holdingsQueue st' = [short] /\
       (h_qty short == - (qty trade - queueQty (holdingsQueue st)))%Q /\
       h_isShort short = true).
Proof.
  split.
  - intros holdings. unfold reportSell.
    destruct (reportLoop_runs optionsInfo trade
                (if Qgtb (qty trade) 0 then (amountAUD trade / qty trade)%Q else 0%Q)
                (commissionAUD trade + feesAUD trade)%Q
                holdings (lotFuel holdings) (qty trade) []
                ltac:(unfold lotFuel; lia))
      as (r' & h' & new & Hrun & Hq & _ & Hrecs & _ & Hpos).
    exists r', h', new. simpl app in Hrun.
    split; [exact Hrun|]. split; [exact Hq|].
    split.
    { eapply Forall_impl; [exact Hrecs|]. intros r Hr. apply Hr. }
    intros Hall Hqty. destruct (Hpos Hall) as (_ & Hcover & Hexceed).
    split.
    + intros Hle. rewrite Hq, (Hcover Hqty Hle). ring.
    + intros Hlt. destruct (Hexceed Hqty ltac:(lra)) as (-> & Hr' & _).
      split; [rewrite Hq, Hr'; ring|]. split; [exact Hr' | reflexivity].
  - intros st Hside Hpos Hlt. unfold fifoStep. rewrite Hside. simpl String.eqb.
    destruct (sellLoop_slices (holdingsQueue st) (sellFuel (holdingsQueue st))
                (qty trade) 0%Q ltac:(unfold sellFuel; lia))
      as (r' & q' & t' & Hrun & _ & Hr & Hstop).
    rewrite Hrun.
    rewrite (headSlices_take_all _ _ Hpos Hlt) in Hr.
    assert (Hleft : (0 < r')%Q) by lra.
    destruct Hstop as [Hle | ->]; [lra|].
    apply Qgtb_true in Hleft as G.
    unfold mbind, Outcome_bind. cbv beta iota zeta. rewrite G.
    eexists _, _. split; [reflexivity|]. cbn [holdingsQueue].
    split; [reflexivity|]. cbn [h_qty h_isShort].
    split; [lra | reflexivity].
Qed.

Lemma C3_slice_quantities_witness :
  exists remaining holdings' records,
    reportSell None (plainTrade "Sell" "XYZ" "AU" 15 20 2) [lotOf 10 10 1; lotOf 10 11 1]
    = Ok (remaining, holdings', records) /\
    (sumQ (map r_qty records) == 15)%Q.
Proof.
  destruct (C3_slice_quantities None (plainTrade "Sell" "XYZ" "AU" 15 20 2))
    as [Hreport _].
  destruct (Hreport [lotOf 10 10 1; lotOf 10 11 1])
    as (r' & h' & recs & Hrun & _ & _ & Hpos).
  exists r', h', recs. split; [exact Hrun|].
  assert (Hlots : positiveLots [lotOf 10 10 1; lotOf 10 11 1]).
  { repeat constructor. }
  destruct (Hpos Hlots ltac:(reflexivity)) as [Hcover _].
  apply Hcover. vm_compute. discriminate.
Defined.

(** ** Sells outside the report window *)

Lemma historicalLoop_runs (holdings : list Lot) :
  forall (fuel : nat) (remaining : Q),
    (length holdings < fuel)%nat ->
    exists remaining' holdings',
      historicalLoop fuel remaining holdings = Ok (remaining', holdings').
Proof.
  induction holdings as [|h rest IH]; intros fuel remaining Hfuel.
  - destruct fuel as [|fuel]; [simpl in Hfuel; lia|]. simpl. eauto.
  - destruct fuel as [|fuel]; [simpl in Hfuel; lia|].
    simpl in Hfuel. simpl historicalLoop.
    destruct (Qgtb remaining 0) eqn:G; [|eauto].
    cbv zeta. simpl l_qty.
    set (c := Qmin remaining (l_qty h)).
    destruct (Qeq_bool (l_qty h - c) 0) eqn:P.
    + apply IH. lia.
    + assert (Hnz : ~ (l_qty h - c == 0)%Q).
      { intros He. apply Qeq_bool_iff in He. congruence. }
      assert (Hleft : (remaining - c <= 0)%Q).
      { destruct (Qmin_cases remaining (l_qty h)) as [[_ Hc] | [_ Hc]];
          fold c in Hc; rewrite Hc in *; [lra|]. exfalso. apply Hnz. ring. }
      destruct fuel as [|fuel]; [lia|]. simpl historicalLoop.
      apply Qgtb_false in Hleft. rewrite Hleft. eauto.
Qed.

(** A sell outside the window adds no record. *)
Lemma reportStep_outside_window (cs ce : Z) (info : option OptionsInfo)
    (holdings : list Lot) (capitalGains : list CapitalGain) (trade : Trade) :
  side trade = "Sell" ->
  inWindow cs ce trade = false ->
  exists holdings',
    reportStep cs ce info (holdings, capitalGains) trade = Ok (holdings', capitalGains).
Proof.
  intros Hside Hout. unfold reportStep. rewrite Hside, Hout.
  change (String.eqb "Sell" "Buy") with false.
  change (String.eqb "Sell" "Sell") with true. cbv iota.
  destruct (historicalLoop_runs holdings (lotFuel holdings) (qty trade)
              ltac:(unfold lotFuel; lia)) as (r' & h' & Hrun).
  rewrite Hrun. exists h'. reflexivity.
Qed.

(** The window of financial year Y leaves out every date before
    Y-07-01 and every date after the last millisecond of (Y+1)-06-30;
    2023-06-30 is outside the window of 2023. *)
Lemma window_of_financial_year (now : Z) (fy : Z) (trade : Trade) :
  date trade < utcMidnight fy 7 1 \/
  utcMidnight (fy + 1) 6 30 + msPerDay - 1 < date trade ->
  inWindow (cutoffDateStart (Some fy)) (cutoffDateEnd now (Some fy)) trade = false.
Proof.
  unfold inWindow, cutoffDateStart, cutoffDateEnd. intros [H|H].
  - apply andb_false_iff. left. now apply Z.leb_gt.
  - apply andb_false_iff. right. now apply Z.leb_gt.
Qed.

(** A sell outside the window takes the same quantities off the same
    lots as a sell inside it, and leaves the same quantity unsold; the
    two loops differ in the cost they leave on a lot, and in the
    records. *)
Lemma historicalLoop_same_quantities (info : option OptionsInfo) (trade : Trade)
    (p f : Q) (fuel : nat) :
  forall (remaining : Q) (holdings holdings' : list Lot) (emitted : list CapitalGain),
    map l_qty holdings = map l_qty holdings' ->
    match reportLoop fuel info trade p f remaining holdings emitted,
          historicalLoop fuel remaining holdings' with
    | Ok (r1, h1, _), Ok (r2, h2) => r1 = r2 /\ map l_qty h1 = map l_qty h2
    | OutOfFuel, OutOfFuel => True
    | _, _ => False
    end.
Proof.
  induction fuel as [|fuel IH]; intros remaining hs hs' emitted Hq; [exact I|].
  destruct hs as [|h rest], hs' as [|h' rest']; simpl in Hq; try discriminate.
  - split; reflexivity.
  - injection Hq as Hh Hrest.
    simpl reportLoop. simpl historicalLoop.
    destruct (Qgtb remaining 0); [|split; [reflexivity | simpl; congruence]].
    cbv zeta. simpl l_qty. rewrite Hh.
    destruct (Qeq_bool (l_qty h' - Qmin remaining (l_qty h')) 0).
    + apply IH, Hrest.
    + apply IH. simpl. now rewrite Hrest.
Qed.

(** C5.  The code at the failing input: bought 100 at 10, sold 50 on
    2023-06-30 (outside the window of financial year 2023), sold 50 on
    2023-08-01 (inside).  The report of 2023 has the later sell only, as
    the claim says, but with a cost basis of 1000, the cost of the whole
    lot of 100: the sell outside the window took 50 units off the lot and
    none of its cost.  With both sells inside the window the same later
    sell has the cost basis 500. *)
Theorem C5_sell_outside_window_keeps_lot_cost :
  let trades := [plainTrade "Buy" "XYZ" "AU" 100 10 (utcMidnight 2023 1 10);
                 plainTrade "Sell" "XYZ" "AU" 50 12 (utcMidnight 2023 6 30);
                 plainTrade "Sell" "XYZ" "AU" 50 15 (utcMidnight 2023 8 1)] in
  (exists r,
     calculateCapitalGains (utcMidnight 2025 1 1) (fixedZone 0) trades (Some 2023) = Ok [r] /\
     r_sellDate r = utcMidnight 2023 8 1 /\
     (r_qty r == 50)%Q /\ (r_costBasis r == 1000)%Q) /\
  (exists r1 r2,
     calculateCapitalGains (utcMidnight 2025 1 1) (fixedZone 0) trades None = Ok [r1; r2] /\
     r_sellDate r1 = utcMidnight 2023 8 1 /\
     (r_qty r1 == 50)%Q /\ (r_costBasis r1 == 500)%Q).
Proof.
  split.
  - eexists. split; [vm_compute; reflexivity|].
    split; [reflexivity|]. split; vm_compute; reflexivity.
  - eexists _, _. split; [vm_compute; reflexivity|].
    split; [reflexivity|]. split; vm_compute; reflexivity.
Qed.

(** ** Rows the normalizer cannot read *)

Lemma parseFilledAvg_ok_or_throw (now : Z) (zone : Zone) (column : option string) (sym : string) :
  (exists q p, parseFilledAvg now zone column sym = Ok (q, p)) \/
  parseFilledAvg now zone column sym = Throw.
Proof.
  unfold parseFilledAvg.
  destruct (splitOn "@" _) as [|qtyText [|priceText rest]]; eauto.
Qed.

(** One row that throws makes the whole pass over the rows throw. *)
Lemma mapM_throws {A B : Type} (f : A -> Outcome B) (bad : A) (after : list A) :
  (forall a, f a <> OutOfFuel) ->
  f bad = Throw ->
  forall before, mapM f (before ++ bad :: after) = Throw.
Proof.
  intros Hf Hbad before. induction before as [|a before IH]; simpl.
  - now rewrite Hbad.
  - rewrite IH. destruct (f a) as [b| | |] eqn:Ha; try reflexivity.
    now apply Hf in Ha.
Qed.

(** C8.  The code at the failing input: a row that passes the loader's
    filter and whose [Filled@Avg Price] text has no [@] makes
    [parseFilledAvg] throw, and with it both reports, whatever the other
    rows, the clock, the rate table and the date parser are.  The rest of
    the policy holds: texts that are not numbers are read as 0, an absent
    column as ["0@0"], and a date no parse accepts becomes the sentinel
    1900-01-01. *)
Theorem C8_row_without_at_sign_throws :
  loadable rowWithoutAt = true /\
  (forall (now : Z) (zone : Zone) (Date_parse : string -> option Z) (rates : RateTable)
          (before after : list Row) (fy : option Z) (display : string),
     capitalGainsOfRows now zone Date_parse rates
       (before ++ rowWithoutAt :: after) fy = Throw /\
     fifoPnLOfRows now zone Date_parse rates
       (before ++ rowWithoutAt :: after) display = Throw) /\
  (forall (now : Z) (zone : Zone) (sym : string),
     exists q p,
       parseFilledAvg now zone None sym = Ok (q, p) /\ (q == 0)%Q /\ (p == 0)%Q) /\
  (forall (now : Z) (zone : Zone) (sym : string),
     exists q p,
       parseFilledAvg now zone (Some "abc@xyz") sym = Ok (q, p) /\
       (q == 0)%Q /\ (p == 0)%Q) /\
  numberOr0 (Some "n/a") = 0%Q /\ numberOr0 None = 0%Q /\
  (forall (zone : Zone) (dateString : option string),
     parseCSVDate zone (fun _ => None) dateString = Some (utcMidnight 1900 1 1)).
Proof.
  split; [reflexivity|]. split; [|split; [|split; [|split; [|split]]]].
  - intros now zone dp rates before after fy display.
    unfold capitalGainsOfRows, fifoPnLOfRows.
    rewrite !List.filter_app.
    change (List.filter (fun r => isExecutedStatus (Status r)) (rowWithoutAt :: after))
      with (rowWithoutAt :: List.filter (fun r => isExecutedStatus (Status r)) after).
    split.
    + rewrite mapM_throws; [reflexivity| |reflexivity].
      intros r. unfold reportTradeOfRow.
      destruct (parseFilledAvg_ok_or_throw now zone (FilledAvgPrice r) (Symbol r))
        as [(q & p & ->) | ->]; simpl; [|discriminate].
      destruct (parseCSVDate zone dp (FillTime r)); [discriminate|].
      destruct (String.eqb (rowMarket r) "AU"); discriminate.
    + rewrite mapM_throws; [reflexivity| |reflexivity].
      intros r. unfold fifoTradeOfRow.
      destruct (parseFilledAvg_ok_or_throw now zone (FilledAvgPrice r) (Symbol r))
        as [(q & p & ->) | ->]; simpl; [|discriminate].
      destruct (parseCSVDate zone dp (FillTime r)); discriminate.
  - intros now zone sym. eexists _, _. split; [reflexivity|].
    split; [reflexivity|]. apply Qmult_0_l.
  - intros now zone sym. eexists _, _. split; [reflexivity|].
    split; [reflexivity|]. apply Qmult_0_l.
  - reflexivity.
  - reflexivity.
  - intros zone [ds|]; [|reflexivity]. unfold parseCSVDate.
    destruct (String.eqb ds ""); [reflexivity|].
    destruct (map string_of_list_ascii _) as [|m [|d [|y [|t rest]]]]; reflexivity.
Qed.

(** ** Conversion dates of the two reports *)

(** C7.  The code at the failing input, and why.  A sell is booked in
    the currency named by its own [originalCurrency], USD when it has
    none, whatever the currency of the lots it consumes.  The rows of the
    file get that field from their market (USD for US, AUD otherwise),
    but the synthetic sell of an expired option is built without it, with
    the market of the symbol's trades only.  So for an AU-market option
    bought for 500 AUD and expired worthless, the replay books the loss
    of 500 in the USD bucket and the summary in AUD shows it converted
    at the current rate, 1.5 on an empty table: -750.  The capital gains
    report shows the same loss as -500. *)
Theorem C7_synthetic_sell_booked_in_USD :
  (forall (st : FifoState) (t : Trade),
     side t = "Sell" -> originalCurrency t = None ->
     exists st',
       fifoStep st t = Ok st' /\
       aud (realizedPnLByCurrency st') = aud (realizedPnLByCurrency st) /\
       aud (sellVolumeByCurrency st') = aud (sellVolumeByCurrency st) /\
       (usd (sellVolumeByCurrency st') == usd (sellVolumeByCurrency st) + amount t)%Q) /\
  (forall (now : Z) (zone : Zone) (sym : string) (group : list Trade)
          (info : OptionsInfo),
     parseOptionsSymbol now zone sym = Some info ->
     isExpired info = true ->
     (tolerance < remainingHoldings (sortByDate group))%Q ->
     exists syn,
       addExpiredToGroup now zone sym group = sortByDate group ++ [syn] /\
       isSynthetic syn = true /\
       originalCurrency syn = None /\
       tradeCurrencyOf syn = USD /\
       (forall t, sampleTrade (sortByDate group) = Some t -> market syn = market t)) /\
  (forall (now : Z) (zone : Zone) (Date_parse : string -> option Z)
          (row : Row) (t : Trade),
     fifoTradeOfRow now zone Date_parse row = Ok t ->
     market t = rowMarket row /\
     tradeCurrencyOf t = if String.eqb (rowMarket row) "US" then USD else AUD) /\
  (let now := utcMidnight 2024 1 1 in
   let zone := fixedZone 0 in
   exists summary records,
     fifoPnLOfRows now zone readsFillDay ∅ [expiredAuOptionRow] "AUD" = Ok [summary] /\
     p_market summary = "AU" /\
     (buyVolume summary == 500)%Q /\
     (totalPnL summary == - 750)%Q /\
     (getUSDToAUDRate zone ∅ now == 3 # 2)%Q /\
     capitalGainsOfRows now zone readsFillDay ∅ [expiredAuOptionRow] None = Ok records /\
     (sumQ (map r_capitalGain records) == - 500)%Q).
Proof.
  split; [|split; [|split]].
  - intros st t Hsell Hnone.
    destruct (fifoStep_total st t) as [st' Hstep].
    exists st'. split; [exact Hstep|].
    revert Hstep. unfold fifoStep, tradeCurrencyOf. rewrite Hsell, Hnone.
    change (String.eqb "Sell" "Buy") with false.
    change (String.eqb "Sell" "Sell") with true. cbv iota.
    destruct (sellLoop _ _ _ _) as [[[r q] c]| | |]; try discriminate.
    unfold mbind, Outcome_bind. cbv beta iota zeta.
    intros [= <-]. cbn [realizedPnLByCurrency sellVolumeByCurrency addTo usd aud].
    split; [reflexivity|]. split; [reflexivity|]. reflexivity.
  - intros now zone sym group info Hinfo Hexp Hnet.
    unfold addExpiredToGroup. rewrite Hinfo, Hexp. cbv zeta.
    rewrite (proj2 (Qgtb_true _ _) Hnet).
    eexists. split; [reflexivity|].
    split; [reflexivity|]. split; [reflexivity|]. split; [reflexivity|].
    intros t Ht. rewrite Ht. reflexivity.
  - intros now zone dp row t. unfold fifoTradeOfRow.
    destruct (parseFilledAvg now zone (FilledAvgPrice row) (Symbol row))
      as [[q p]| | |]; simpl; try discriminate.
    destruct (parseCSVDate zone dp (FillTime row)); [|discriminate].
    intros [= <-]. split; reflexivity.
  - eexists _, _. split; [vm_compute; reflexivity|].
    split; [reflexivity|]. split; [vm_compute; reflexivity|].
    split; [vm_compute; reflexivity|]. split; [vm_compute; reflexivity|].
    split; [vm_compute; reflexivity|]. vm_compute. reflexivity.
Qed.

(** ** Synthetic closes *)

Lemma foldM_app {A S : Type} (f : S -> A -> Outcome S) (l1 l2 : list A) (s : S) :
  foldM f (l1 ++ l2) s = (s' ← foldM f l1 s; foldM f l2 s').
Proof.
  revert s. induction l1 as [|a l1 IH]; intros s; simpl; [reflexivity|].
  destruct (f s a) as [s1| | |]; simpl; [apply IH | reflexivity | reflexivity | reflexivity].
Qed.

Lemma reportStep_total (cs ce : Z) (info : option OptionsInfo)
    (st : list Lot * list CapitalGain) (trade : Trade) :
  exists st', reportStep cs ce info st trade = Ok st'.
Proof.
  destruct st as [holdings capitalGains]. unfold reportStep.
  destruct (String.eqb (side trade) "Buy"); [eauto|].
  destruct (String.eqb (side trade) "Sell"); [|eauto].
  destruct (inWindow cs ce trade).
  - unfold reportSell.
    destruct (reportLoop_runs info trade
                (if Qgtb (qty trade) 0 then (amountAUD trade / qty trade)%Q else 0%Q)
                (commissionAUD trade + feesAUD trade)%Q
                holdings (lotFuel holdings) (qty trade) []
                ltac:(unfold lotFuel; lia)) as (r' & h' & new & Hrun & _).
    rewrite Hrun. simpl. eauto.
  - destruct (historicalLoop_runs holdings (lotFuel holdings) (qty trade)
                ltac:(unfold lotFuel; lia)) as (r' & h' & Hrun).
    rewrite Hrun. simpl. eauto.
Qed.

Lemma foldM_reportStep_total (cs ce : Z) (info : option OptionsInfo) (l : list Trade) :
  forall st, exists st', foldM (reportStep cs ce info) l st = Ok st'.
Proof.
  induction l as [|t l IH]; intros st; simpl; [eauto|].
  destruct (reportStep_total cs ce info st t) as [st1 H1]. rewrite H1. simpl. apply IH.
Qed.

(** Where the stable sort puts a trade appended to a sorted list: after
    the trades dated up to its own date, before the later ones. *)
Lemma insertByDate_first (t : Trade) (l : list Trade) :
  Forall (fun b => date t <= date b) l -> insertByDate t l = t :: l.
Proof.
  intros Hall. destruct l as [|h r]; [reflexivity|]. simpl.
  inversion Hall as [|? ? Hh _]; subst.
  apply Z.leb_le in Hh. now rewrite Hh.
Qed.

Lemma sortByDate_appended (x : Trade) (l : list Trade) :
  ascending l ->
  sortByDate (l ++ [x])
  = tradesUntil (date x) l ++ x :: tradesAfter (date x) l.
Proof.
  unfold ascending, tradesUntil, tradesAfter.
  induction l as [|t l IH]; intros Hs; [reflexivity|].
  inversion Hs as [|? ? Hl Hall]; subst.
  simpl app. simpl sortByDate. fold (sortByDate (l ++ [x])). rewrite (IH Hl).
  simpl List.filter.
  destruct (date t <=? date x) eqn:E.
  - apply Z.leb_le in E.
    replace (date x <? date t) with false by (symmetry; apply Z.ltb_ge; lia).
    simpl app. apply insertByDate_first.
    apply Forall_app. split.
    + clear -Hall. induction Hall as [|b r Hb Hr IHr]; simpl; [constructor|].
      destruct (date b <=? date x); [constructor; assumption | assumption].
    + constructor; [exact E|].
      clear -Hall. induction Hall as [|b r Hb Hr IHr]; simpl; [constructor|].
      destruct (date x <? date b); [constructor; assumption | assumption].
  - apply Z.leb_gt in E.
    replace (date x <? date t) with true by (symmetry; apply Z.ltb_lt; lia).
    assert (Hnone : List.filter (fun t0 => date t0 <=? date x) l = []).
    { clear -Hall E. induction Hall as [|b r Hb Hr IHr]; simpl; [reflexivity|].
      replace (date b <=? date x) with false by (symmetry; apply Z.leb_gt; lia).
      exact IHr. }
    assert (Hall' : List.filter (fun t0 => date x <? date t0) l = l).
    { clear -Hall E. induction Hall as [|b r Hb Hr IHr]; simpl; [reflexivity|].
      replace (date x <? date b) with true by (symmetry; apply Z.ltb_lt; lia).
      now rewrite IHr. }
    rewrite Hnone, Hall'. simpl.
    replace (date t <=? date x) with false by (symmetry; apply Z.leb_gt; lia).
    now rewrite (insertByDate_first t l Hall).
Qed.

(** The second pass of [addExpiredOptionsLosses] finds a group for
    every symbol of [calculateHistoricalCostBasis] and adds nothing when, as in
    both callers, the groups and the positions come from the same
    trades. *)
Lemma groupLookup_member (groups : Groups) (s : string) (g : list Trade) :
  In (s, g) groups -> exists g', groupLookup groups s = Some g'.
Proof.
  induction groups as [|[s' g'] r IH]; simpl; [easy|].
  intros [[= -> ->] | Hin].
  - rewrite String.eqb_refl. eauto.
  - destruct (String.eqb s' s); eauto.
Qed.

Lemma groupLookup_mapped (f : string -> list Trade -> list Trade)
    (groups : Groups) (s : string) :
  groupLookup (map (fun '(s, g) => (s, f s g)) groups) s
  = option_map (f s) (groupLookup groups s).
Proof.
  induction groups as [|[s' g'] r IH]; simpl; [reflexivity|].
  destruct (String.eqb_spec s' s) as [-> | Hne]; [reflexivity | exact IH].
Qed.

Lemma addHistorical_idle (now : Z) (zone : Zone) (positions : list (string * Q)) :
  forall groups : Groups,
    Forall (fun pos => exists g, groupLookup groups (fst pos) = Some g) positions ->
    fold_left (addHistorical now zone) positions groups = groups.
Proof.
  induction positions as [|[sym net] r IH]; intros groups Hall; simpl; [reflexivity|].
  inversion Hall as [|? ? [g Hg] Hr]; subst. simpl in Hg. rewrite Hg.
  apply IH, Hr.
Qed.

Lemma addExpiredOptionsLosses_groups (now : Z) (zone : Zone) (allTrades : list Trade) :
  addExpiredOptionsLosses now zone (groupBySymbol allTrades) allTrades
  = map (fun '(s, g) => (s, addExpiredToGroup now zone s g)) (groupBySymbol allTrades).
Proof.
  unfold addExpiredOptionsLosses. apply addHistorical_idle.
  unfold calculateHistoricalCostBasis. apply List.Forall_forall. intros [sym net] Hin.
  apply list_elem_of_In, list_elem_of_omap in Hin.
  destruct Hin as ([s g] & Hsg & Hf).
  destruct (Qgtb (remainingHoldings (sortByDate g)) 0); [|discriminate].
  injection Hf as <- _. simpl fst.
  rewrite groupLookup_mapped.
  apply list_elem_of_In, groupLookup_member in Hsg. destruct Hsg as [g' ->].
  simpl. eauto.
Qed.

Lemma sumQ_opposite {A : Type} (f g : A -> Q) (l : list A) :
  Forall (fun a => (f a == - g a)%Q) l ->
  (sumQ (map f l) == - sumQ (map g l))%Q.
Proof.
  induction 1 as [|a r Ha Hr IH]; simpl map.
  - rewrite sumQ_nil. ring.
  - rewrite !sumQ_cons, IH, Ha. ring.
Qed.

Lemma Forall_sortByDate (P : Trade -> Prop) (l : list Trade) :
  Forall P l -> Forall P (sortByDate l).
Proof.
  intros H. apply List.Forall_forall. intros t Hin.
  apply (proj1 (List.Forall_forall P l) H).
  eapply Permutation_in; [symmetry; apply sortByDate_perm | exact Hin].
Qed.

(** The step of a zero-proceeds sell that takes every open lot: its
    records lose exactly the cost of the lots. *)
Lemma reportStep_worthless (cs ce : Z) (info : option OptionsInfo)
    (sym nm mkt : string) (net : Q) (expiry : Z)
    (holdings : list Lot) (recs : list CapitalGain) :
  inWindow cs ce (syntheticSell sym net expiry nm mkt) = true ->
  positiveLots holdings ->
  (0 < net)%Q ->
  (totalQty holdings <= net)%Q ->
  exists new,
    reportStep cs ce info (holdings, recs) (syntheticSell sym net expiry nm mkt)
    = Ok ([], recs ++ new) /\
    Forall (fun r => r_sellDate r = expiry /\ r_symbol r = sym) new /\
    (sumQ (map r_capitalGain new) == - totalCost holdings)%Q.
Proof.
  intros Hwin Hpos Hnet Hle.
  set (syn := syntheticSell sym net expiry nm mkt) in *.
  unfold reportStep. rewrite Hwin.
  change (side syn) with "Sell".
  change (String.eqb "Sell" "Buy") with false.
  change (String.eqb "Sell" "Sell") with true. cbv iota.
  unfold reportSell.
  set (p := if Qgtb (qty syn) 0 then (amountAUD syn / qty syn)%Q else 0%Q).
  set (f := (commissionAUD syn + feesAUD syn)%Q).
  destruct (reportLoop_runs info syn p f holdings (lotFuel holdings) (qty syn) []
              ltac:(unfold lotFuel; lia))
    as (r' & h' & new & Hrun & _ & _ & Hrecs & _ & Hlots).
  rewrite Hrun. simpl app.
  destruct (Hlots Hpos) as (_ & _ & Hall).
  destruct (Hall Hnet Hle) as (-> & _ & Hcost).
  exists new. split; [reflexivity|].
  assert (Hp : (p == 0)%Q).
  { unfold p. destruct (Qgtb (qty syn) 0); [|reflexivity].
    change (amountAUD syn) with 0%Q. unfold Qdiv. ring. }
  assert (Hf : (f == 0)%Q) by (unfold f; reflexivity).
  split.
  - eapply Forall_impl; [exact Hrecs|]. intros r (_ & Hd & Hs). split; assumption.
  - rewrite <- Hcost. apply sumQ_opposite.
    eapply Forall_impl; [exact Hrecs|]. intros r (Hg & _).
    rewrite Hg, Hp, Hf. ring.
Qed.

(** C2, as stated, fails: an expired option sold short (5), then bought
    (10) and held to expiry has a net quantity of 5 and gets its
    synthetic sell, but the reporter holds a lot of 10 at expiry, of
    cost 1000, and the synthetic sell of 5 loses 500 of it. *)
Lemma C2_synthetic_loss_counterexample :
  let now := utcMidnight 2024 1 1 in
  let sym := "ABC200117C5000" in
  let group := [plainTrade "Sell" sym "AU" 5 100 (utcMidnight 2019 12 2);
                plainTrade "Buy" sym "AU" 10 100 (utcMidnight 2019 12 3)] in
  exists info syn holdings holdings' new,
    parseOptionsSymbol now (fixedZone 0) sym = Some info /\
    isExpired info = true /\
    (tolerance < remainingHoldings (sortByDate group))%Q /\
    addExpiredToGroup now (fixedZone 0) sym group = group ++ [syn] /\
    isSynthetic syn = true /\
    foldM (reportStep (cutoffDateStart None) (cutoffDateEnd now None) (Some info))
      group ([], []) = Ok (holdings, []) /\
    reportSymbol now (fixedZone 0) None sym (group ++ [syn]) [] = Ok (holdings', new) /\
    calculateCapitalGains now (fixedZone 0) group None = Ok new /\
    (totalCost holdings == 1000)%Q /\
    (sumQ (map r_capitalGain new) == - 500)%Q /\
    ~ (sumQ (map r_capitalGain new) == - totalCost holdings)%Q.
Proof.
  cbv zeta. eexists _, _, _, _, _.
  split; [vm_compute; reflexivity|].
  split; [reflexivity|].
  split; [vm_compute; reflexivity|].
  split; [vm_compute; reflexivity|].
  split; [reflexivity|].
  split; [vm_compute; reflexivity|].
  split; [vm_compute; reflexivity|].
  split; [vm_compute; reflexivity|].
  split; [vm_compute; reflexivity|].
  split; [vm_compute; reflexivity|].
  vm_compute. discriminate.
Qed.

(** C2, amended.  For every symbol that decodes as an option expired
    before now, whose net quantity over its real trades exceeds 0.01,
    the group receives exactly one synthetic trade, appended to the
    sorted real trades: a Sell of the net quantity at price 0, without
    amount, commission or fees, dated at the expiry date and flagged
    synthetic.  In the replay the synthetic sell comes after the real
    trades dated up to the expiry date; when the expiry date is inside
    the report window and the lots open at that point have positive
    quantities that add up to no more than the net quantity, its records
    lose, together, exactly the total cost of those lots, and no lot is
    left.  No synthetic trade is added when the net quantity is at most
    0.01, when the option is not expired, or when the symbol is not an
    option; the second pass of [addExpiredOptionsLosses] adds none
    either. *)
Theorem C2_synthetic_expiry_close (now : Z) (zone : Zone) (sym : string) (group : list Trade) :
  let trades := sortByDate group in
  let net := remainingHoldings trades in
  (forall info : OptionsInfo,
     parseOptionsSymbol now zone sym = Some info ->
     isExpired info = true ->
     (tolerance < net)%Q ->
     exists syn,
       addExpiredToGroup now zone sym group = trades ++ [syn] /\
       (Forall (fun t => isSynthetic t = false) group ->
        List.filter isSynthetic (trades ++ [syn]) = [syn]) /\
       side syn = "Sell" /\ qty syn = net /\ price syn = 0%Q /\ amount syn = 0%Q /\
       commission syn = 0%Q /\ fees syn = 0%Q /\
       amountAUD syn = 0%Q /\ commissionAUD syn = 0%Q /\ feesAUD syn = 0%Q /\
       date syn = expiryDate info /\ symbol syn = sym /\ isSynthetic syn = true /\
       sortByDate (trades ++ [syn])
       = tradesUntil (expiryDate info) trades
         ++ syn :: tradesAfter (expiryDate info) trades /\
       forall (financialYear : option Z) (capitalGains : list CapitalGain),
         let step := reportStep (cutoffDateStart financialYear)
                       (cutoffDateEnd now financialYear) (Some info) in
         reportSymbol now zone financialYear sym (trades ++ [syn]) capitalGains
         = (st ← foldM step (tradesUntil (expiryDate info) trades) ([], capitalGains);
            st' ← step st syn;
            foldM step (tradesAfter (expiryDate info) trades) st') /\
         exists holdings recs,
           foldM step (tradesUntil (expiryDate info) trades) ([], capitalGains)
           = Ok (holdings, recs) /\
           (inWindow (cutoffDateStart financialYear)
              (cutoffDateEnd now financialYear) syn = true ->
            positiveLots holdings ->
            (totalQty holdings <= net)%Q ->
            exists new,
              step (holdings, recs) syn = Ok ([], recs ++ new) /\
              Forall (fun r => r_sellDate r = expiryDate info /\ r_symbol r = sym) new /\
              (sumQ (map r_capitalGain new) == - totalCost holdings)%Q)) /\
  (forall info : OptionsInfo,
     parseOptionsSymbol now zone sym = Some info ->
     isExpired info = true ->
     (net <= tolerance)%Q ->
     addExpiredToGroup now zone sym group = trades) /\
  (forall info : OptionsInfo,
     parseOptionsSymbol now zone sym = Some info ->
     isExpired info = false ->
     addExpiredToGroup now zone sym group = group) /\
  (parseOptionsSymbol now zone sym = None ->
   addExpiredToGroup now zone sym group = group) /\
  (forall allTrades : list Trade,
     addExpiredOptionsLosses now zone (groupBySymbol allTrades) allTrades
     = map (fun '(s, g) => (s, addExpiredToGroup now zone s g))
           (groupBySymbol allTrades)).
Proof.
  intros trades net.
  split; [|split; [|split; [|split]]].
  - intros info Hinfo Hexp Hnet.
    assert (Hpos : (0 < net)%Q) by (unfold tolerance in Hnet; lra).
    unfold addExpiredToGroup. rewrite Hinfo, Hexp.
    fold trades. fold net.
    apply Qgtb_true in Hnet as G. rewrite G.
    set (nm := match sampleTrade trades with Some t => name t | None => sym end).
    set (mkt := match sampleTrade trades with Some t => market t | None => "US" end).
    set (syn := syntheticSell sym net (expiryDate info) nm mkt).
    exists syn. split; [reflexivity|].
    split.
    { intros Hreal. rewrite List.filter_app. simpl.
      replace (List.filter isSynthetic trades) with (@nil Trade); [reflexivity|].
      symmetry. apply (Forall_sortByDate _ _) in Hreal. fold trades in Hreal.
      clear -Hreal. induction Hreal as [|t r Ht Hr IH]; simpl; [reflexivity|].
      now rewrite Ht. }
    do 12 (split; [reflexivity|]).
    assert (Hsort : sortByDate (trades ++ [syn])
                    = tradesUntil (expiryDate info) trades
                      ++ syn :: tradesAfter (expiryDate info) trades).
    { apply (sortByDate_appended syn trades), sortByDate_ascending. }
    split; [exact Hsort|].
    intros fy acc.
    set (step := reportStep (cutoffDateStart fy) (cutoffDateEnd now fy) (Some info)).
    split.
    + unfold reportSymbol. rewrite Hinfo, Hsort. fold step.
      rewrite foldM_app.
      destruct (foldM step (tradesUntil (expiryDate info) trades) ([], acc))
        as [st| | |]; reflexivity.
    + destruct (foldM_reportStep_total (cutoffDateStart fy) (cutoffDateEnd now fy)
                  (Some info) (tradesUntil (expiryDate info) trades) ([], acc))
        as [[holdings recs] Hrun].
      exists holdings, recs. split; [exact Hrun|].
      intros Hwin Hlots Hle.
      apply (reportStep_worthless _ _ _ _ _ _ _ _ _ _ Hwin Hlots Hpos Hle).
  - intros info Hinfo Hexp Hnet. unfold addExpiredToGroup. rewrite Hinfo, Hexp.
    fold trades. fold net. apply Qgtb_false in Hnet. now rewrite Hnet.
  - intros info Hinfo Hexp. unfold addExpiredToGroup. now rewrite Hinfo, Hexp.
  - intros Hinfo. unfold addExpiredToGroup. now rewrite Hinfo.
  - apply addExpiredOptionsLosses_groups.
Qed.

Lemma C2_synthetic_expiry_close_witness :
  let now := utcMidnight 2024 1 1 in
  let sym := "ABC200117C5000" in
  let group := [plainTrade "Buy" sym "AU" 5 100 (utcMidnight 2019 12 3)] in
  exists syn holdings new,
    addExpiredToGroup now (fixedZone 0) sym group = group ++ [syn] /\
    reportStep (cutoffDateStart None) (cutoffDateEnd now None)
      (parseOptionsSymbol now (fixedZone 0) sym) (holdings, []) syn = Ok ([], new) /\
    (sumQ (map r_capitalGain new) == - totalCost holdings)%Q.
Proof.
  cbv zeta.
  destruct (C2_synthetic_expiry_close (utcMidnight 2024 1 1) (fixedZone 0) "ABC200117C5000"
              [plainTrade "Buy" "ABC200117C5000" "AU" 5 100 (utcMidnight 2019 12 3)])
    as (Happend & _).
  destruct (Happend _ eq_refl eq_refl ltac:(vm_compute; reflexivity))
    as (syn & Hgroup & _ & _ & _ & _ & _ & _ & _ & _ & _ & _ & Hdate & _ & _ & _ & Hreplay).
  destruct (Hreplay None []) as (_ & holdings & recs & Hrun & Hloss).
  vm_compute in Hrun. injection Hrun as <- <-.
  assert (Hwin : inWindow (cutoffDateStart None) (cutoffDateEnd (utcMidnight 2024 1 1) None)
                   syn = true).
  { unfold inWindow. rewrite Hdate. vm_compute. reflexivity. }
  destruct (Hloss Hwin ltac:(repeat constructor) ltac:(vm_compute; discriminate))
    as (new & Hstep & _ & Hsum).
  exists syn. eexists. exists new.
  split; [exact Hgroup|]. split; [exact Hstep | exact Hsum].
Defined.

(** ** The engine always returns on normalized trades *)

Lemma foldM_total {A S : Type} (f : S -> A -> Outcome S) :
  (forall s a, exists s', f s a = Ok s') ->
  forall l s, exists s', foldM f l s = Ok s'.
Proof.
  intros Hf. induction l as [|a l IH]; intros s; simpl; [eauto|].
  destruct (Hf s a) as [s1 H1]. rewrite H1. simpl. apply IH.
Qed.


Lemma calculateFIFOPnL_returns (now : Z) (zone : Zone) (rates : RateTable)
    (trades : list Trade) (displayCurrency : string) :
  exists results, calculateFIFOPnL now zone rates trades displayCurrency = Ok results.
Proof.
  unfold calculateFIFOPnL. apply foldM_total.
  intros acc [sym group]. unfold summarizeSymbol.
  destruct (foldM_fifoStep_total (sortByDate group) initialFifoState) as [st Hst].
  rewrite Hst. simpl. eauto.
Qed.

(** * Further properties of the code *)

(** ** Grouping by symbol *)

Lemma groupLookup_pushTo (groups : Groups) (k : string) (t : Trade) (s : string) :
  groupLookup (pushTo groups k t) s
  = match groupLookup groups s with
    | Some g => Some (if String.eqb k s then g ++ [t] else g)
    | None => None
    end.
Proof.
  induction groups as [|[s' g] r IH]; cbn [pushTo groupLookup]; [reflexivity|].
  destruct (String.eqb_spec s' k) as [-> | Hk]; cbn [groupLookup].
  - destruct (String.eqb_spec k s) as [-> | Hs]; [reflexivity|].
    destruct (groupLookup r s); reflexivity.
  - destruct (String.eqb_spec s' s) as [-> | Hs]; [|exact IH].
    destruct (String.eqb_spec k s) as [-> | _]; [contradiction | reflexivity].
Qed.

Lemma groupLookup_defineKey (groups : Groups) (k s : string) :
  groupLookup groups k = None ->
  groupLookup (defineKey groups k) s
  = if String.eqb k s then Some [] else groupLookup groups s.
Proof.
  induction groups as [|[s' g] r IH]; cbn [defineKey groupLookup]; [reflexivity|].
  destruct (String.eqb_spec s' k) as [-> | Hk]; [discriminate|]. intros Hr.
  destruct (keyBefore k s'); cbn [groupLookup]; [reflexivity|].
  destruct (String.eqb_spec s' s) as [-> | Hs]; [|exact (IH Hr)].
  destruct (String.eqb_spec k s) as [-> | _]; [contradiction | reflexivity].
Qed.

Lemma groupLookup_groupPush (groups : Groups) (t : Trade) (s : string) :
  groupLookup (groupPush groups t) s
  = if String.eqb (symbol t) s
    then Some (match groupLookup groups s with Some g => g | None => [] end ++ [t])
    else groupLookup groups s.
Proof.
  unfold groupPush. rewrite groupLookup_pushTo.
  destruct (groupLookup groups (symbol t)) as [g0|] eqn:E.
  - destruct (String.eqb_spec (symbol t) s) as [<- | _].
    + rewrite E. reflexivity.
    + destruct (groupLookup groups s); reflexivity.
  - rewrite (groupLookup_defineKey groups (symbol t) s E).
    destruct (String.eqb_spec (symbol t) s) as [<- | _].
    + rewrite E. reflexivity.
    + destruct (groupLookup groups s); reflexivity.
Qed.

Lemma groupLookup_fold (trades : list Trade) :
  forall (groups : Groups) (s : string),
    groupLookup (fold_left groupPush trades groups) s
    = match groupLookup groups s, tradesOfSymbol s trades with
      | None, [] => None
      | None, g => Some g
      | Some g0, g => Some (g0 ++ g)
      end.
Proof.
  unfold tradesOfSymbol.
  induction trades as [|t trades IH]; intros groups s; simpl.
  - destruct (groupLookup groups s); [now rewrite app_nil_r | reflexivity].
  - rewrite IH, groupLookup_groupPush.
    destruct (String.eqb (symbol t) s).
    + destruct (groupLookup groups s) as [g0|]; simpl.
      * now rewrite <- app_assoc.
      * reflexivity.
    + reflexivity.
Qed.

Lemma groupLookup_None (groups : Groups) (k : string) :
  groupLookup groups k = None <-> ~ In k (map fst groups).
Proof.
  induction groups as [|[s' g] r IH]; cbn [groupLookup map fst In]; [tauto|].
  destruct (String.eqb_spec s' k) as [-> | Hk].
  - split; [discriminate | intros H; exfalso; apply H; now left].
  - rewrite IH. tauto.
Qed.

Lemma pushTo_keys (groups : Groups) (k : string) (t : Trade) :
  map fst (pushTo groups k t) = map fst groups.
Proof.
  induction groups as [|[s' g] r IH]; cbn [pushTo map fst]; [reflexivity|].
  destruct (String.eqb s' k); cbn [map fst]; [reflexivity|]. now rewrite IH.
Qed.

Lemma defineKey_keys (groups : Groups) (k : string) :
  Permutation (k :: map fst groups) (map fst (defineKey groups k)).
Proof.
  induction groups as [|[s' g] r IH]; cbn [defineKey map fst]; [reflexivity|].
  destruct (keyBefore k s'); cbn [map fst]; [reflexivity|].
  rewrite perm_swap. now apply perm_skip.
Qed.

Lemma groupPush_keys_distinct (groups : Groups) (t : Trade) :
  List.NoDup (map fst groups) -> List.NoDup (map fst (groupPush groups t)).
Proof.
  intros Hnd. unfold groupPush. rewrite pushTo_keys.
  destruct (groupLookup groups (symbol t)) eqn:E; [exact Hnd|].
  eapply Permutation_NoDup; [apply defineKey_keys|].
  constructor; [now apply groupLookup_None | exact Hnd].
Qed.

Lemma keyBefore_asym (a b : string) :
  keyBefore a b = true -> keyBefore b a = false.
Proof.
  unfold keyBefore.
  destruct (arrayIndex a) as [i|], (arrayIndex b) as [j|];
    try discriminate; try reflexivity.
  intros H. apply Z.ltb_lt in H. apply Z.ltb_ge. lia.
Qed.

Lemma keyBefore_later (k s x : string) :
  keyBefore k s = true -> keyBefore x s = false -> keyBefore x k = false.
Proof.
  unfold keyBefore.
  destruct (arrayIndex k) as [i|], (arrayIndex s) as [j|], (arrayIndex x) as [l|];
    try discriminate; try reflexivity.
  intros H1 H2. apply Z.ltb_lt in H1. apply Z.ltb_ge in H2. apply Z.ltb_ge. lia.
Qed.

Lemma defineKey_order (groups : Groups) (k : string) :
  enumerationOrder (map fst groups) ->
  enumerationOrder (map fst (defineKey groups k)).
Proof.
  unfold enumerationOrder.
  induction groups as [|[s' g] r IH]; cbn [defineKey map fst]; intros Hs.
  - repeat constructor.
  - inversion Hs as [|? ? Hr Hall]; subst.
    destruct (keyBefore k s') eqn:Hk; cbn [map fst].
    + constructor; [exact Hs|].
      constructor; [now apply keyBefore_asym|].
      eapply List.Forall_impl; [|exact Hall].
      intros x Hx. exact (keyBefore_later k s' x Hk Hx).
    + constructor; [exact (IH Hr)|].
      eapply Permutation_Forall; [apply defineKey_keys|].
      constructor; [exact Hk | exact Hall].
Qed.

Lemma groupPush_order (groups : Groups) (t : Trade) :
  enumerationOrder (map fst groups) ->
  enumerationOrder (map fst (groupPush groups t)).
Proof.
  intros Hs. unfold groupPush. rewrite pushTo_keys.
  destruct (groupLookup groups (symbol t)); [exact Hs | now apply defineKey_order].
Qed.

Lemma defineKey_index (groups : Groups) (k : string) :
  plainKey k = false ->
  List.filter plainKey (map fst (defineKey groups k))
  = List.filter plainKey (map fst groups).
Proof.
  intros Hk.
  induction groups as [|[s' g] r IH]; cbn [defineKey map fst List.filter].
  - now rewrite Hk.
  - destruct (keyBefore k s'); cbn [map fst List.filter].
    + now rewrite Hk.
    + now rewrite IH.
Qed.

Lemma defineKey_plain (groups : Groups) (k : string) :
  plainKey k = true -> defineKey groups k = groups ++ [(k, [])].
Proof.
  intros Hk.
  assert (Hb : forall s, keyBefore k s = false).
  { intros s. unfold keyBefore. unfold plainKey in Hk.
    destruct (arrayIndex k); [discriminate | reflexivity]. }
  induction groups as [|[s' g] r IH]; cbn [defineKey app]; [reflexivity|].
  now rewrite Hb, IH.
Qed.

Lemma groupPush_plain_keys (groups : Groups) (t : Trade) :
  List.filter plainKey (map fst (groupPush groups t))
  = if plainKey (symbol t)
    then noteKey (List.filter plainKey (map fst groups)) (symbol t)
    else List.filter plainKey (map fst groups).
Proof.
  unfold groupPush. rewrite pushTo_keys.
  destruct (plainKey (symbol t)) eqn:Hk.
  - unfold noteKey.
    destruct (groupLookup groups (symbol t)) as [g|] eqn:E.
    + replace (existsb _ _) with true; [reflexivity|].
      symmetry. apply existsb_exists. exists (symbol t).
      split; [|apply String.eqb_refl].
      apply List.filter_In. split; [|exact Hk].
      destruct (in_dec string_dec (symbol t) (map fst groups)) as [Hin | Hout];
        [exact Hin|].
      apply groupLookup_None in Hout. congruence.
    + replace (existsb _ _) with false.
      * rewrite (defineKey_plain groups _ Hk), map_app, List.filter_app.
        cbn [map fst List.filter]. now rewrite Hk.
      * symmetry. apply not_true_is_false. intros Hex.
        apply existsb_exists in Hex. destruct Hex as (x & Hin & Hx).
        apply String.eqb_eq in Hx. subst x.
        apply List.filter_In in Hin. destruct Hin as [Hin _].
        exact (proj1 (groupLookup_None groups (symbol t)) E Hin).
  - destruct (groupLookup groups (symbol t)); [reflexivity|].
    now apply defineKey_index.
Qed.

Lemma groupBySymbol_keys (trades : list Trade) :
  forall groups : Groups,
    List.NoDup (map fst groups) ->
    enumerationOrder (map fst groups) ->
    List.NoDup (map fst (fold_left groupPush trades groups)) /\
    enumerationOrder (map fst (fold_left groupPush trades groups)) /\
    List.filter plainKey (map fst (fold_left groupPush trades groups))
    = fold_left noteKey (List.filter plainKey (map symbol trades))
        (List.filter plainKey (map fst groups)).
Proof.
  induction trades as [|t trades IH]; intros groups Hnd Hord;
    cbn [fold_left map List.filter]; [auto|].
  destruct (IH (groupPush groups t) (groupPush_keys_distinct _ _ Hnd)
              (groupPush_order _ _ Hord)) as (H1 & H2 & H3).
  split; [exact H1|]. split; [exact H2|].
  rewrite H3, groupPush_plain_keys.
  destruct (plainKey (symbol t)); reflexivity.
Qed.

(** X1.  For trades whose symbols name no property of
    [Object.prototype] (for such a name the grouping loop throws a
    TypeError), [groupBySymbol] puts every trade in the group of its
    symbol and keeps the order of the trades inside a group: the group
    found for a symbol is the list of the trades with that symbol, in
    their input order, and a symbol without trades has no group.  No
    symbol has two groups.  The groups are enumerated with the symbols
    that are array indices first, in ascending numeric order, and the
    other symbols after them in the order of their first trade. *)
Theorem groupBySymbol_lookup (trades : list Trade) (s : string) :
  Forall (fun t => inheritedKey (symbol t) = false) trades ->
  groupLookup (groupBySymbol trades) s
  = match tradesOfSymbol s trades with
    | [] => None
    | g => Some g
    end /\
  List.NoDup (map fst (groupBySymbol trades)) /\
  enumerationOrder (map fst (groupBySymbol trades)) /\
  List.filter plainKey (map fst (groupBySymbol trades))
  = firstSeen (List.filter plainKey (map symbol trades)).
Proof.
  intros _. split.
  - unfold groupBySymbol. now rewrite groupLookup_fold.
  - apply (groupBySymbol_keys trades []); constructor.
Qed.

Lemma groupBySymbol_lookup_witness :
  let trades := [plainTrade "Buy" "XYZ" "US" 1 10 1; plainTrade "Buy" "700" "HK" 2 20 2;
                 plainTrade "Buy" "5" "HK" 3 30 3; plainTrade "Sell" "XYZ" "US" 1 12 4] in
  map fst (groupBySymbol trades) = ["5"; "700"; "XYZ"] /\
  groupLookup (groupBySymbol trades) "XYZ"
  = Some [plainTrade "Buy" "XYZ" "US" 1 10 1; plainTrade "Sell" "XYZ" "US" 1 12 4] /\
  List.filter plainKey (map fst (groupBySymbol trades)) = ["XYZ"].
Proof.
  intros trades.
  destruct (groupBySymbol_lookup trades "XYZ") as (Hfound & _ & _ & Hplain).
  - repeat constructor.
  - split; [reflexivity|]. split; [exact Hfound | exact Hplain].
Defined.

(** ** Markets and currencies *)

Lemma upperChar_not_lower (c : ascii) : isLower (upperChar c) = false.
Proof.
  destruct c as [[] [] [] [] [] [] [] []]; reflexivity.
Qed.

Lemma toUpperCase_noLowerCase (s : string) : noLowerCase (toUpperCase s).
Proof.
  unfold noLowerCase, toUpperCase. rewrite list_ascii_of_string_of_list_ascii.
  induction (list_ascii_of_string s) as [|c l IH]; simpl; [reflexivity|].
  now rewrite upperChar_not_lower, IH.
Qed.

(** X2.  [getTradeMarket]: a non-blank Markets column decides alone and
    is returned in upper case, whatever it holds; without it the result
    is AU or US, AU only for a Currency column equal to AUD or, without
    a Currency column either, for a symbol that in upper case is one of
    the nine listed tickers. *)
Theorem getTradeMarket_cases (Markets Currency Symbol : option string) :
  (nonBlank Markets = true ->
   exists m, Markets = Some m /\
     getTradeMarket Markets Currency Symbol = toUpperCase m /\
     noLowerCase (getTradeMarket Markets Currency Symbol)) /\
  (nonBlank Markets = false ->
   (getTradeMarket Markets Currency Symbol = "AU" \/
    getTradeMarket Markets Currency Symbol = "US") /\
   (getTradeMarket Markets Currency Symbol = "AU" ->
    (nonBlank Currency = true /\ Currency = Some "AUD") \/
    (nonBlank Currency = false /\
     exists sym, Symbol = Some sym /\ In (toUpperCase sym) knownAustralianTickers))).
Proof.
  unfold getTradeMarket. split.
  - intros Hm. rewrite Hm. destruct Markets as [m|]; [|discriminate].
    exists m. split; [reflexivity|]. split; [reflexivity|].
    apply toUpperCase_noLowerCase.
  - intros Hm. rewrite Hm.
    destruct (nonBlank Currency) eqn:Hc.
    + destruct Currency as [c|]; [|discriminate].
      destruct (String.eqb_spec c "AUD") as [-> | Hne].
      * split; [now left|]. intros _. left. split; reflexivity.
      * split; [now right|]. discriminate.
    + destruct Symbol as [sym|]; [|split; [now right | discriminate]].
      destruct (String.eqb sym ""); [split; [now right | discriminate]|].
      cbv zeta.
      destruct (_ && existsb _ _) eqn:E; [|split; [now right | discriminate]].
      split; [now left|]. intros _. right. split; [reflexivity|].
      exists sym. split; [reflexivity|].
      apply andb_true_iff in E. destruct E as [_ E].
      apply existsb_exists in E. destruct E as (k & Hin & Hk).
      apply String.eqb_eq in Hk. now subst k.
Qed.

Lemma getTradeMarket_cases_witness :
  getTradeMarket (Some "hk") None (Some "700") = "HK" /\
  getTradeMarket (Some " ") None (Some "bhp") = "AU".
Proof.
  destruct (getTradeMarket_cases (Some "hk") None (Some "700")) as [Hset _].
  destruct (Hset eq_refl) as (m & Hm & Hres & _).
  injection Hm as <-. split; [exact Hres|].
  destruct (getTradeMarket_cases (Some " ") None (Some "bhp")) as [_ Hblank].
  destruct (Hblank eq_refl) as [[H | H] _]; [exact H | discriminate H].
Defined.

(** X3.  A market other than US and AU (the loader lets any non-blank
    Markets text through) is read in two ways: the summary's replay
    books the trade in AUD, while the capital gains reporter converts
    its amount to AUD as a USD amount, with the rate of the fill date. *)
Theorem other_market_is_AUD_in_summary_USD_in_report
    (now : Z) (zone : Zone) (Date_parse : string -> option Z) (rates : RateTable)
    (row : Row) (tf tr : Trade) :
  rowMarket row <> "US" ->
  rowMarket row <> "AU" ->
  fifoTradeOfRow now zone Date_parse row = Ok tf ->
  reportTradeOfRow now zone Date_parse rates row = Ok tr ->
  tradeCurrencyOf tf = AUD /\
  amount tf = amount tr /\ date tf = date tr /\
  amountAUD tr = (amount tr * getUSDToAUDRate zone rates (date tr))%Q.
Proof.
  intros Hus Hau. unfold fifoTradeOfRow, reportTradeOfRow.
  destruct (parseFilledAvg now zone (FilledAvgPrice row) (Symbol row))
    as [[q p]| | |]; simpl; try discriminate.
  destruct (parseCSVDate zone Date_parse (FillTime row)) as [d|];
    [|discriminate].
  intros [= <-] [= <-]. simpl.
  apply String.eqb_neq in Hus, Hau.
  unfold tradeCurrencyOf. simpl. rewrite Hus.
  split; [reflexivity|]. split; [reflexivity|]. split; [reflexivity|].
  unfold convertCurrency, fromCurrencyOf. now rewrite Hau.
Qed.

Lemma other_market_is_AUD_in_summary_USD_in_report_witness :
  exists tf tr,
    fifoTradeOfRow 0 (fixedZone 0) (fun _ => None)
      (mkRow "700" "Buy" "Filled" (Some "100@50") None None None "Tencent"
         (getTradeMarket (Some "hk") None (Some "700"))) = Ok tf /\
    reportTradeOfRow 0 (fixedZone 0) (fun _ => None) (exampleTable (3 # 2) (8 # 5))
      (mkRow "700" "Buy" "Filled" (Some "100@50") None None None "Tencent"
         (getTradeMarket (Some "hk") None (Some "700"))) = Ok tr /\
    tradeCurrencyOf tf = AUD /\
    amountAUD tr =
      (amount tr * getUSDToAUDRate (fixedZone 0) (exampleTable (3 # 2) (8 # 5)) (date tr))%Q.
Proof.
  eexists _, _. split; [reflexivity|]. split; [reflexivity|].
  destruct (other_market_is_AUD_in_summary_USD_in_report 0 (fixedZone 0) (fun _ => None)
              (exampleTable (3 # 2) (8 # 5))
              (mkRow "700" "Buy" "Filled" (Some "100@50") None None None "Tencent"
                 (getTradeMarket (Some "hk") None (Some "700")))
              _ _ ltac:(discriminate) ltac:(discriminate) eq_refl eq_refl)
    as (Hcur & _ & _ & Haud).
  split; [exact Hcur | exact Haud].
Defined.

(** ** The option multiplier *)

Lemma isOption_not_empty (now : Z) (zone : Zone) (sym : string) :
  isOption now zone sym = true -> sym <> "".
Proof. intros H ->. discriminate H. Qed.

(** X4.  [parseFilledAvg] reads the same quantity for every symbol and
    scales the price only: for an option symbol the price is 100 times
    the price read for a symbol that is not an option. *)
Theorem parseFilledAvg_option_price_times_100
    (now : Z) (zone : Zone) (column : option string) (plain opt : string) (q p : Q) :
  isOption now zone plain = false ->
  isOption now zone opt = true ->
  parseFilledAvg now zone column plain = Ok (q, p) ->
  exists p',
    parseFilledAvg now zone column opt = Ok (q, p') /\ (p' == 100 * p)%Q.
Proof.
  intros Hplain Hopt. pose proof (isOption_not_empty _ _ _ Hopt) as Hne.
  apply String.eqb_neq in Hne.
  unfold parseFilledAvg, getMultiplier. rewrite Hne, Hplain, Hopt.
  destruct (splitOn "@" _) as [|qtyText [|priceText rest]]; try discriminate.
  intros [= <- <-]. eexists. split; [reflexivity|].
  unfold numberOr0. destruct (String.eqb plain ""); cbv iota; ring.
Qed.

Lemma parseFilledAvg_option_price_times_100_witness :
  exists p',
    parseFilledAvg 0 (fixedZone 0) (Some "2@9.60") "SOFI251121C26000" = Ok (2%Q, p') /\
    (p' == 960)%Q.
Proof.
  destruct (parseFilledAvg_option_price_times_100 0 (fixedZone 0) (Some "2@9.60") "SOFI"
              "SOFI251121C26000" _ _ eq_refl eq_refl eq_refl) as (p' & Hrun & Hp).
  exists p'. split; [exact Hrun|]. rewrite Hp. vm_compute. reflexivity.
Defined.

(** ** Loading and looking up rates *)

(** X5.  A row with a valid date and a positive rate is found again at
    every time of its UTC day, whatever the table held before; a row
    whose rate is not positive, or whose date or rate did not parse,
    leaves the table as it was. *)
Theorem storeRate_then_lookup
    (zone : Zone) (table : RateTable) (date : option Z) (rate : option Q) :
  (forall d r t, date = Some d -> rate = Some r -> (0 < r)%Q ->
     dateKey t = dateKey d ->
     getUSDToAUDRate zone (storeRate table (date, rate)) t = r) /\
  (forall r, rate = Some r -> (r <= 0)%Q -> storeRate table (date, rate) = table) /\
  (date = None \/ rate = None -> storeRate table (date, rate) = table).
Proof.
  split; [|split].
  - intros d r t -> -> Hr Ht. unfold storeRate.
    destruct (Qlt_le_dec 0 r) as [_ | Hle]; [|lra].
    unfold getUSDToAUDRate. rewrite Ht. now rewrite lookup_insert_eq.
  - intros r -> Hr. unfold storeRate. destruct date as [d|]; [|reflexivity].
    destruct (Qlt_le_dec 0 r) as [Hlt | _]; [lra | reflexivity].
  - intros [-> | ->]; [reflexivity|]. destruct date; reflexivity.
Qed.

Lemma storeRate_then_lookup_witness :
  getUSDToAUDRate daylightZone
    (storeRate (exampleTable (3 # 2) (8 # 5))
       (Some (utcMidnight 2024 1 10 + 12 * 3600000), Some (7 # 4)))
    (utcMidnight 2024 1 10) = (7 # 4)%Q.
Proof.
  destruct (storeRate_then_lookup daylightZone (exampleTable (3 # 2) (8 # 5))
              (Some (utcMidnight 2024 1 10 + 12 * 3600000)) (Some (7 # 4)))
    as [Hfound _].
  apply (Hfound _ _ _ eq_refl eq_refl); reflexivity.
Defined.

(** ** Conservation of quantity in the FIFO engine *)

Lemma fold_left_netStep (l : list Trade) (a : Q) :
  (fold_left netStep l a == a + sumQ (map signedQty l))%Q.
Proof.
  revert a. induction l as [|t l IH]; intros a; simpl fold_left; simpl map.
  - rewrite sumQ_nil. ring.
  - rewrite IH, sumQ_cons. unfold netStep, signedQty.
    destruct (String.eqb (side t) "Buy"); [ring|].
    destruct (String.eqb (side t) "Sell"); ring.
Qed.

Lemma sumQ_perm (l1 l2 : list Q) :
  Permutation l1 l2 -> (sumQ l1 == sumQ l2)%Q.
Proof.
  induction 1 as [|x l1 l2 _ IH|x y l|l1 l2 l3 _ IH1 _ IH2].
  - reflexivity.
  - rewrite !sumQ_cons, IH. reflexivity.
  - rewrite !sumQ_cons. ring.
  - now rewrite IH1.
Qed.

Lemma remainingHoldings_perm (l1 l2 : list Trade) :
  Permutation l1 l2 -> (remainingHoldings l1 == remainingHoldings l2)%Q.
Proof.
  intros Hp. unfold remainingHoldings. rewrite !fold_left_netStep.
  rewrite (sumQ_perm (map signedQty l1) (map signedQty l2)); [reflexivity|].
  now apply Permutation_map.
Qed.

Lemma queueQty_cons (h : Holding) (r : list Holding) :
  (queueQty (h :: r) == h_qty h + queueQty r)%Q.
Proof. unfold queueQty. simpl map. apply sumQ_cons. Qed.

Lemma queueQty_app (q1 q2 : list Holding) :
  (queueQty (q1 ++ q2) == queueQty q1 + queueQty q2)%Q.
Proof. unfold queueQty. rewrite map_app. apply sumQ_app. Qed.

(** The loop of a sell takes from the queue exactly what it takes off
    the quantity to sell, and never sells more than asked. *)
Lemma sellLoop_quantity (queue : list Holding) :
  forall (fuel : nat) (remaining total : Q),
    (length queue < fuel)%nat ->
    (0 <= remaining)%Q ->
    exists remaining' queue' total',
      sellLoop fuel remaining queue total = Ok (remaining', queue', total') /\
      (queueQty queue' == queueQty queue - (remaining - remaining'))%Q /\
      (0 <= remaining')%Q /\
      ((remaining' == 0)%Q \/ queue' = []).
Proof.
  induction queue as [|h rest IH]; intros fuel remaining total Hfuel Hrem.
  - destruct fuel as [|fuel]; [simpl in Hfuel; lia|].
    exists remaining, [], total. simpl.
    split; [reflexivity|]. split; [ring|]. split; [exact Hrem | now right].
  - destruct fuel as [|fuel]; [simpl in Hfuel; lia|].
    simpl in Hfuel. simpl sellLoop.
    destruct (Qgtb remaining 0) eqn:G.
    + cbv zeta. simpl h_qty.
      set (c := Qmin remaining (h_qty h)).
      assert (Hc1 : (c <= remaining)%Q) by apply Q.le_min_l.
      assert (Hc2 : (c <= h_qty h)%Q) by apply Q.le_min_r.
      destruct (Qle_bool (h_qty h - c) 0) eqn:P.
      * apply Qle_bool_iff in P.
        destruct (IH fuel (remaining - c)%Q (total + h_costPerShare h * c)%Q
                    ltac:(lia) ltac:(lra))
          as (r' & q' & t' & Hrun & Hq & Hr & Hstop).
        exists r', q', t'. split; [exact Hrun|].
        rewrite queueQty_cons. split; [rewrite Hq; lra|]. split; assumption.
      * assert (Hnp : ~ (h_qty h - c <= 0)%Q).
        { intros Hle. apply Qle_bool_iff in Hle. congruence. }
        assert (Hleft : (remaining - c == 0)%Q).
        { destruct (Qmin_cases remaining (h_qty h)) as [[_ Hc] | [_ Hc]];
            fold c in Hc; rewrite Hc in *; [ring|]. exfalso. apply Hnp. lra. }
        destruct fuel as [|fuel]; [lia|]. simpl sellLoop.
        assert (G' : Qgtb (remaining - c) 0 = false) by (apply Qgtb_false; lra).
        rewrite G'. eexists _, _, _. split; [reflexivity|].
        rewrite !queueQty_cons. simpl h_qty.
        split; [lra|]. split; [lra | now left].
    + apply Qgtb_false in G.
      exists remaining, (h :: rest), total.
      split; [reflexivity|]. split; [ring|]. split; [exact Hrem|]. left. lra.
Qed.

(** What one trade does to the total quantity of the queue. *)
Lemma fifoStep_quantity (st : FifoState) (trade : Trade) :
  (side trade = "Sell" -> (0 <= qty trade)%Q) ->
  exists st',
    fifoStep st trade = Ok st' /\
    (queueQty (holdingsQueue st')
     == queueQty (holdingsQueue st) + signedQty trade)%Q.
Proof.
  intros Hsell. unfold fifoStep, signedQty.
  destruct (String.eqb (side trade) "Buy").
  - eexists. split; [reflexivity|]. cbn [holdingsQueue].
    rewrite queueQty_app. unfold queueQty at 2. simpl map.
    rewrite sumQ_cons, sumQ_nil. cbn [h_qty]. ring.
  - destruct (String.eqb_spec (side trade) "Sell") as [Hs | _].
    + destruct (sellLoop_quantity (holdingsQueue st) (sellFuel (holdingsQueue st))
                  (qty trade) 0%Q ltac:(unfold sellFuel; lia) (Hsell Hs))
        as (r' & q' & t' & Hrun & Hq & Hr & Hstop).
      rewrite Hrun. unfold mbind, Outcome_bind. cbv beta iota zeta.
      eexists. split; [reflexivity|]. cbn [holdingsQueue].
      destruct (Qgtb r' 0) eqn:G.
      * apply Qgtb_true in G. destruct Hstop as [H0 | ->]; [lra|].
        rewrite queueQty_cons. cbn [h_qty].
        unfold queueQty in Hq at 1. simpl map in Hq. rewrite sumQ_nil in Hq.
        unfold queueQty at 1. simpl map. rewrite sumQ_nil. lra.
      * apply Qgtb_false in G. rewrite Hq. lra.
    + eexists. split; [reflexivity|]. ring.
Qed.

Lemma foldM_fifoStep_quantity (l : list Trade) :
  forall st,
    Forall (fun t => side t = "Sell" -> (0 <= qty t)%Q) l ->
    exists st',
      foldM fifoStep l st = Ok st' /\
      (queueQty (holdingsQueue st')
       == queueQty (holdingsQueue st) + sumQ (map signedQty l))%Q.
Proof.
  induction l as [|t l IH]; intros st Hall; simpl foldM; simpl map.
  - exists st. split; [reflexivity|]. rewrite sumQ_nil. ring.
  - inversion Hall as [|? ? Ht Hl]; subst.
    destruct (fifoStep_quantity st t Ht) as (st1 & H1 & Hq1). rewrite H1.
    destruct (IH st1 Hl) as (st' & H' & Hq'). exists st'.
    split; [exact H'|]. rewrite Hq', Hq1, sumQ_cons. ring.
Qed.

(** X6.  Quantity is conserved by the FIFO engine: when no sell has a
    negative quantity, the net position of a symbol, the sum of the
    quantities left in its queue (short lots counting negative), is the
    sum of the quantities bought less the sum of the quantities sold,
    in whatever order the trades were given. *)
Theorem fifo_net_position_is_bought_less_sold
    (now : Z) (zone : Zone) (rates : RateTable) (display sym : string)
    (group : list Trade) :
  Forall (fun t => side t = "Sell" -> (0 <= qty t)%Q) group ->
  exists st result,
    replayFIFO group = Ok st /\
    summarizeSymbol now zone rates display sym group = Ok result /\
    netPosition result = queueQty (holdingsQueue st) /\
    (netPosition result == remainingHoldings group)%Q /\
    (netPosition result == sumQ (map signedQty group))%Q.
Proof.
  intros Hall.
  destruct (foldM_fifoStep_quantity (sortByDate group) initialFifoState
              (Forall_sortByDate _ _ Hall)) as (st & Hrun & Hq).
  unfold replayFIFO, summarizeSymbol. rewrite Hrun.
  eexists _, _. split; [reflexivity|]. split; [reflexivity|].
  cbn [netPosition]. fold (queueQty (holdingsQueue st)).
  split; [reflexivity|].
  assert (Hsum : (queueQty (holdingsQueue st) == sumQ (map signedQty group))%Q).
  { rewrite Hq. unfold queueQty at 1. simpl map. rewrite sumQ_nil.
    rewrite (sumQ_perm (map signedQty (sortByDate group)) (map signedQty group)).
    - ring.
    - apply Permutation_map. symmetry. apply sortByDate_perm. }
  split; [|exact Hsum].
  rewrite Hsum. unfold remainingHoldings. rewrite fold_left_netStep. ring.
Qed.

Lemma fifo_net_position_is_bought_less_sold_witness :
  exists result,
    summarizeSymbol 0 (fixedZone 0) ∅ "AUD" "XYZ"
      [plainTrade "Sell" "XYZ" "US" 120 20 3; plainTrade "Buy" "XYZ" "US" 100 10 1;
       plainTrade "Sell" "XYZ" "US" 40 9 4; plainTrade "Buy" "XYZ" "US" 50 12 2]
    = Ok result /\
    (netPosition result == -10)%Q.
Proof.
  destruct (fifo_net_position_is_bought_less_sold 0 (fixedZone 0) ∅ "AUD" "XYZ"
              [plainTrade "Sell" "XYZ" "US" 120 20 3; plainTrade "Buy" "XYZ" "US" 100 10 1;
               plainTrade "Sell" "XYZ" "US" 40 9 4; plainTrade "Buy" "XYZ" "US" 50 12 2])
    as (st & result & _ & Hres & _ & _ & Hnet).
  - repeat constructor; intros _; vm_compute; discriminate.
  - exists result. split; [exact Hres|]. rewrite Hnet. vm_compute. reflexivity.
Defined.

(** ** The records of the capital gains reporter *)

(** The fields of the records pushed by the loop of a sell, and the
    dates of the lots: a record is bought on the date of a lot, and the
    lots left are lots that were there. *)
Lemma reportLoop_records (info : option OptionsInfo) (trade : Trade) (p f : Q)
    (P : Z -> Prop) (fuel : nat) :
  forall (remaining : Q) (holdings : list Lot) (emitted : list CapitalGain)
         (remaining' : Q) (holdings' : list Lot) (out : list CapitalGain),
    reportLoop fuel info trade p f remaining holdings emitted
    = Ok (remaining', holdings', out) ->
    Forall (fun l => P (l_date l)) holdings ->
    Forall (fun l => P (l_date l)) holdings' /\
    exists new,
      out = emitted ++ new /\
      Forall (recordOfSell trade p f) new /\
      Forall (fun r => P (r_buyDate r)) new.
Proof.
  induction fuel as [|fuel IH];
    intros remaining holdings emitted r' h' out Hrun Hdates; [discriminate|].
  simpl in Hrun. destruct holdings as [|h rest].
  - injection Hrun as <- <- <-. split; [constructor|].
    exists []. rewrite app_nil_r. repeat split; constructor.
  - destruct (Qgtb remaining 0).
    + cbv zeta in Hrun. inversion Hdates as [|? ? Hh Hrest]; subst.
      match type of Hrun with
      | reportLoop _ _ _ _ _ _ ?hs (emitted ++ [?r]) = _ =>
          assert (Hhs : Forall (fun l => P (l_date l)) hs)
            by (destruct (Qeq_bool _ 0); [exact Hrest | constructor; assumption]);
          destruct (IH _ _ _ _ _ _ Hrun Hhs) as (Hleft & new & -> & Hnew & Hbuy);
          split; [exact Hleft|]; exists (r :: new)
      end.
      rewrite <- app_assoc. split; [reflexivity|]. split.
      * constructor; [|exact Hnew]. unfold recordOfSell. simpl.
        split; [ring|]. split; [ring|]. repeat split; reflexivity.
      * constructor; [exact Hh | exact Hbuy].
    + injection Hrun as <- <- <-. split; [exact Hdates|].
      exists []. rewrite app_nil_r. repeat split; constructor.
Qed.


Lemma sumQ_shares {A : Type} (g x : A -> Q) (p f q : Q) (l : list A) :
  Forall (fun a => (g a == x a * p - f * (x a / q))%Q) l ->
  (sumQ (map g l) == sumQ (map x l) * p - f * (sumQ (map x l) / q))%Q.
Proof.
  induction 1 as [|a r Ha Hr IH]; simpl map.
  - rewrite sumQ_nil. unfold Qdiv. ring.
  - rewrite !sumQ_cons, IH, Ha. unfold Qdiv. ring.
Qed.

Lemma sumQ_difference {A : Type} (g x y : A -> Q) (l : list A) :
  Forall (fun a => (g a == x a - y a)%Q) l ->
  (sumQ (map g l) == sumQ (map x l) - sumQ (map y l))%Q.
Proof.
  induction 1 as [|a r Ha Hr IH]; simpl map.
  - rewrite sumQ_nil. ring.
  - rewrite !sumQ_cons, IH, Ha. ring.
Qed.

(** X7.  The records of a sell inside the window share its net proceeds
    by quantity: for a sell of positive quantity, the proceeds of its
    records add up to (amount - commission - fees), all in AUD, times
    the part of the quantity that was matched; a sell that lots of
    positive quantity cover has records whose proceeds add up to its
    whole net proceeds, and whose gains add up to the net proceeds less
    their cost bases. *)
Theorem report_sell_shares_net_proceeds
    (info : option OptionsInfo) (trade : Trade) (holdings : list Lot) :
  (0 < qty trade)%Q ->
  exists remaining holdings' records,
    reportSell info trade holdings = Ok (remaining, holdings', records) /\
    (sumQ (map r_proceeds records)
     == (amountAUD trade - commissionAUD trade - feesAUD trade)
        * (sumQ (map r_qty records) / qty trade))%Q /\
    (sumQ (map r_capitalGain records)
     == sumQ (map r_proceeds records) - sumQ (map r_costBasis records))%Q /\
    (positiveLots holdings -> (qty trade <= totalQty holdings)%Q ->
     (sumQ (map r_proceeds records)
      == amountAUD trade - commissionAUD trade - feesAUD trade)%Q).
Proof.
  intros Hqty. unfold reportSell.
  apply Qgtb_true in Hqty as G. rewrite G.
  set (p := (amountAUD trade / qty trade)%Q).
  set (f := (commissionAUD trade + feesAUD trade)%Q).
  destruct (reportLoop_runs info trade p f holdings (lotFuel holdings) (qty trade) []
              ltac:(unfold lotFuel; lia))
    as (r' & h' & new & Hrun & Hq & _ & _ & _ & Hpos).
  destruct (reportLoop_records info trade p f (fun _ => True) _ _ _ _ _ _ _ Hrun)
    as (_ & new' & Hnew' & Hfields & _).
  { apply List.Forall_forall. easy. }
  simpl app in Hnew'. simpl app in Hrun. subst new'.
  exists r', h', new. split; [exact Hrun|].
  assert (Hnz : ~ (qty trade == 0)%Q) by lra.
  assert (Hshare : (sumQ (map r_proceeds new)
                    == sumQ (map r_qty new) * p - f * (sumQ (map r_qty new) / qty trade))%Q).
  { apply sumQ_shares. eapply Forall_impl; [exact Hfields|].
    intros r Hr. apply Hr. }
  split; [rewrite Hshare; unfold p, f; field; exact Hnz|].
  split.
  { apply sumQ_difference. eapply Forall_impl; [exact Hfields|].
    intros r Hr. apply Hr. }
  intros Hlots Hcover. destruct (Hpos Hlots) as (_ & Hdone & _).
  rewrite Hshare, Hq, (Hdone Hqty Hcover). unfold p, f. field. exact Hnz.
Qed.

Lemma report_sell_shares_net_proceeds_witness :
  exists remaining holdings' records,
    reportSell None
      (mkTrade "Sell" 15 20 300 5 3 1 "XYZ" "Xyz" "AU" 300 3 1 None false)
      [lotOf 10 10 1; lotOf 10 11 2] = Ok (remaining, holdings', records) /\
    (sumQ (map r_proceeds records) == 296)%Q.
Proof.
  destruct (report_sell_shares_net_proceeds None
              (mkTrade "Sell" 15 20 300 5 3 1 "XYZ" "Xyz" "AU" 300 3 1 None false)
              [lotOf 10 10 1; lotOf 10 11 2] ltac:(reflexivity))
    as (r' & h' & recs & Hrun & _ & _ & Hall).
  exists r', h', recs. split; [exact Hrun|].
  rewrite Hall.
  - vm_compute. reflexivity.
  - repeat constructor.
  - vm_compute. discriminate.
Defined.

(** ** The report as a whole: window, dates and order *)









(** ** The symbol decoder *)

Lemma digitChar_value (d : Z) : 0 <= d <= 9 -> digitValue (digitChar d) = d.
Proof.
  intros Hd. unfold digitValue, digitChar.
  rewrite nat_ascii_embedding by lia. lia.
Qed.

Lemma digitChar_isDigit (d : Z) : 0 <= d <= 9 -> isDigit (digitChar d) = true.
Proof.
  intros Hd. unfold isDigit, digitChar.
  rewrite nat_ascii_embedding by lia.
  apply andb_true_iff. split; apply Nat.leb_le; lia.
Qed.

Lemma twoDigits_value (n : Z) : 0 <= n <= 99 -> parseDigits (twoDigits n) = n.
Proof.
  intros Hn. unfold parseDigits, twoDigits. cbn [fold_left].
  pose proof (Z.div_mod n 10 ltac:(lia)) as Hdm.
  pose proof (Z.mod_pos_bound n 10 ltac:(lia)) as Hmb.
  rewrite !digitChar_value; lia.
Qed.

Lemma twoDigits_isDigit (n : Z) :
  0 <= n <= 99 -> forallb isDigit (twoDigits n) = true.
Proof.
  intros Hn. unfold twoDigits. cbn [forallb].
  pose proof (Z.div_mod n 10 ltac:(lia)) as Hdm.
  pose proof (Z.mod_pos_bound n 10 ltac:(lia)) as Hmb.
  rewrite !digitChar_isDigit; [reflexivity | lia | lia].
Qed.

Lemma isDigit_not_isUpper (c : ascii) : isDigit c = true -> isUpper c = false.
Proof.
  destruct c as [[] [] [] [] [] [] [] []]; simpl; intros H;
    try reflexivity; discriminate H.
Qed.

(** An option symbol begins with a capital letter: it is no array
    index, and a group created for it in [addExpiredOptionsLosses] is
    enumerated after every group that is there. *)
Lemma option_symbol_is_plain (now : Z) (zone : Zone) (sym : string) (info : OptionsInfo) :
  parseOptionsSymbol now zone sym = Some info -> plainKey sym = true.
Proof.
  unfold parseOptionsSymbol, matchOptionsRegex, plainKey, arrayIndex.
  destruct (list_ascii_of_string sym) as [|c r]; [reflexivity|].
  cbn [spanWhile]. destruct (isUpper c) eqn:Hc; [|discriminate].
  intros _. cbn [forallb].
  destruct (isDigit c) eqn:Hd; [|reflexivity].
  apply isDigit_not_isUpper in Hd. congruence.
Qed.

Lemma defineKey_option_symbol
    (now : Z) (zone : Zone) (groups : Groups) (sym : string) (info : OptionsInfo) :
  parseOptionsSymbol now zone sym = Some info ->
  defineKey groups sym = groups ++ [(sym, [])].
Proof.
  intros Hopt. apply defineKey_plain. exact (option_symbol_is_plain _ _ _ _ Hopt).
Qed.

Lemma spanWhile_prefix (p : ascii -> bool) (a : list ascii) (c : ascii) (b : list ascii) :
  forallb p a = true -> p c = false ->
  spanWhile p (a ++ c :: b) = (a, c :: b).
Proof.
  intros Ha Hc. induction a as [|x a IH]; simpl.
  - now rewrite Hc.
  - simpl in Ha. apply andb_true_iff in Ha. destruct Ha as [Hx Ha].
    now rewrite Hx, (IH Ha).
Qed.

Lemma spanWhile_split (p : ascii -> bool) (l : list ascii) :
  forall a b, spanWhile p l = (a, b) -> l = a ++ b.
Proof.
  induction l as [|x l IH]; intros a b; simpl.
  - now intros [= <- <-].
  - destruct (p x).
    + destruct (spanWhile p l) as [a' b'] eqn:E. intros [= <- <-].
      simpl. f_equal. now apply IH.
    + now intros [= <- <-].
Qed.

(** X9.  The decoder reads an option symbol back field by field: the
    capitals as the underlying, the six digits as year 2000+yy, month mm
    and day dd at local midnight (a month or day out of range carries
    over, as the Date constructor does), C as Call and P as Put, the trailing
    digits as thousandths of the strike, and the option is expired when
    that date is before now; its multiplier is 100.  A symbol without any
    digit is not an option and has the multiplier 1. *)
Theorem parseOptionsSymbol_round_trip (now : Z) (zone : Zone) :
  (forall (letters : list ascii) (yy mm dd : Z) (cp : ascii) (strike : list ascii),
     letters <> [] -> forallb isUpper letters = true ->
     0 <= yy <= 99 -> 0 <= mm <= 99 -> 0 <= dd <= 99 ->
     cp = "C"%char \/ cp = "P"%char ->
     strike <> [] -> forallb isDigit strike = true ->
     let sym := optionSymbolText letters yy mm dd cp strike in
     parseOptionsSymbol now zone sym
     = Some {| underlying := string_of_list_ascii letters;
               expiryDate := localDate zone (2000 + yy) (mm - 1) dd;
               optionType := if Ascii.eqb cp "C" then Call else Put;
               strikePrice := (inject_Z (parseDigits strike) / 1000)%Q;
               isExpired := localDate zone (2000 + yy) (mm - 1) dd <? now |} /\
     getMultiplier now zone sym = 100%Q) /\
  (forall sym : string,
     forallb (fun c => negb (isDigit c)) (list_ascii_of_string sym) = true ->
     parseOptionsSymbol now zone sym = None /\ getMultiplier now zone sym = 1%Q).
Proof.
  split.
  - intros letters yy mm dd cp strike Hne Hup Hyy Hmm Hdd Hcp Hsne Hsd sym.
    assert (Hparse : parseOptionsSymbol now zone sym
              = Some {| underlying := string_of_list_ascii letters;
                        expiryDate := localDate zone (2000 + yy) (mm - 1) dd;
                        optionType := if Ascii.eqb cp "C" then Call else Put;
                        strikePrice := (inject_Z (parseDigits strike) / 1000)%Q;
                        isExpired := localDate zone (2000 + yy) (mm - 1) dd <? now |}).
    { unfold parseOptionsSymbol, matchOptionsRegex, sym, optionSymbolText.
      rewrite list_ascii_of_string_of_list_ascii.
      pose proof (twoDigits_isDigit yy Hyy) as Dy.
      pose proof (twoDigits_isDigit mm Hmm) as Dm.
      pose proof (twoDigits_isDigit dd Hdd) as Dd.
      pose proof (twoDigits_value yy Hyy) as Vy.
      pose proof (twoDigits_value mm Hmm) as Vm.
      pose proof (twoDigits_value dd Hdd) as Vd.
      unfold twoDigits in *. cbn [app].
      cbn [forallb] in Dy, Dm, Dd.
      apply andb_true_iff in Dy, Dm, Dd.
      destruct Dy as [Dy1 Dy2], Dm as [Dm1 Dm2], Dd as [Dd1 Dd2].
      rewrite andb_true_r in Dy2, Dm2, Dd2.
      rewrite spanWhile_prefix; [|exact Hup | now apply isDigit_not_isUpper].
      destruct letters as [|l0 letters]; [congruence|].
      cbn [firstn skipn length Nat.eqb forallb].
      rewrite Dy1, Dy2, Dm1, Dm2, Dd1, Dd2. cbn [andb].
      assert (Hcpb : (Ascii.eqb cp "C" || Ascii.eqb cp "P") = true)
        by (destruct Hcp as [-> | ->]; reflexivity).
      rewrite Hcpb, Hsd.
      destruct strike as [|s0 strike]; [congruence|].
      cbn [length Nat.eqb negb andb].
      cbn [firstn skipn]. rewrite Vy, Vm, Vd. reflexivity. }
    split; [exact Hparse|].
    unfold getMultiplier, isOption. now rewrite Hparse.
  - intros sym Hnod.
    assert (Hparse : parseOptionsSymbol now zone sym = None).
    { unfold parseOptionsSymbol, matchOptionsRegex.
      destruct (spanWhile isUpper (list_ascii_of_string sym)) as [letters rest] eqn:E.
      apply spanWhile_split in E. rewrite E, forallb_app in Hnod.
      apply andb_true_iff in Hnod. destruct Hnod as [_ Hrest].
      destruct letters as [|l0 letters]; [reflexivity|].
      destruct rest as [|c rest]; [reflexivity|].
      simpl in Hrest. apply andb_true_iff in Hrest. destruct Hrest as [Hc _].
      apply negb_true_iff in Hc.
      destruct (length (firstn 6 (c :: rest)) =? 6)%nat; [|reflexivity].
      cbn [firstn forallb]. rewrite Hc. reflexivity. }
    split; [exact Hparse|].
    unfold getMultiplier, isOption. now rewrite Hparse.
Qed.

Lemma parseOptionsSymbol_round_trip_witness :
  exists info,
    parseOptionsSymbol (utcMidnight 2026 1 1) (fixedZone 0) "SOFI251121C26000" = Some info /\
    underlying info = "SOFI" /\
    expiryDate info = utcMidnight 2025 11 21 /\
    optionType info = Call /\ (strikePrice info == 26)%Q /\ isExpired info = true.
Proof.
  destruct (parseOptionsSymbol_round_trip (utcMidnight 2026 1 1) (fixedZone 0)) as [Hopt _].
  destruct (Hopt (list_ascii_of_string "SOFI") 25 11 21 "C"%char
              (list_ascii_of_string "26000")
              ltac:(discriminate) eq_refl ltac:(lia) ltac:(lia) ltac:(lia)
              ltac:(now left) ltac:(discriminate) eq_refl) as [Hparse _].
  eexists. split; [exact Hparse|].
  split; [reflexivity|]. split; [reflexivity|]. split; [reflexivity|].
  split; reflexivity.
Defined.

(** ** Realized P&L against cash *)

Lemma coveredHistory_equiv (l : list Trade) :
  forall pos pos' : Q, (pos == pos')%Q -> coveredHistory pos l -> coveredHistory pos' l.
Proof.
  induction l as [|t r IH]; intros pos pos' He; simpl; [trivial|].
  intros (Hb & Hs & Hr). split; [exact Hb|]. split.
  - intros Hside. specialize (Hs Hside). lra.
  - apply (IH (pos + signedQty t)%Q); [lra | exact Hr].
Qed.

Lemma queueCost_cons (h : Holding) (r : list Holding) :
  (queueCost (h :: r) == h_costBasis h + queueCost r)%Q.
Proof. unfold queueCost. simpl map. apply sumQ_cons. Qed.

Lemma addTo_total (c : Currency) (x : Q) (b : ByCurrency) :
  (usd (addTo c x b) + aud (addTo c x b) == usd b + aud b + x)%Q.
Proof. destruct c; simpl; ring. Qed.

(** A covered sell on a queue of consistent positive lots: nothing is
    left to sell, the lots stay consistent and positive, and the cost
    booked against the sell is the cost that left the queue. *)
Lemma sellLoop_cost (queue : list Holding) :
  forall (fuel : nat) (remaining total : Q),
    (length queue < fuel)%nat ->
    positiveQueue queue -> consistentQueue queue ->
    (0 <= remaining <= queueQty queue)%Q ->
    exists remaining' queue' total',
      sellLoop fuel remaining queue total = Ok (remaining', queue', total') /\
      (remaining' == 0)%Q /\
      positiveQueue queue' /\ consistentQueue queue' /\
      (queueCost queue' == queueCost queue - (total' - total))%Q.
Proof.
  induction queue as [|h rest IH]; intros fuel remaining total Hfuel Hpos Hcons Hrem.
  - destruct fuel as [|fuel]; [simpl in Hfuel; lia|].
    exists remaining, [], total. simpl.
    unfold queueQty in Hrem. simpl in Hrem. rewrite sumQ_nil in Hrem.
    split; [reflexivity|]. split; [lra|].
    split; [constructor|]. split; [constructor|]. ring.
  - destruct fuel as [|fuel]; [simpl in Hfuel; lia|].
    simpl in Hfuel. simpl sellLoop.
    inversion Hpos as [|? ? Hh Hrest]; subst.
    inversion Hcons as [|? ? Hch Hcrest]; subst.
    rewrite queueQty_cons in Hrem.
    destruct (Qgtb remaining 0) eqn:G.
    + cbv zeta. simpl h_qty. simpl h_costBasis.
      set (c := Qmin remaining (h_qty h)).
      assert (Hc1 : (c <= remaining)%Q) by apply Q.le_min_l.
      assert (Hc2 : (c <= h_qty h)%Q) by apply Q.le_min_r.
      destruct (Qle_bool (h_qty h - c) 0) eqn:P.
      * apply Qle_bool_iff in P.
        assert (Hc : (c == h_qty h)%Q) by lra.
        destruct (IH fuel (remaining - c)%Q (total + h_costPerShare h * c)%Q
                    ltac:(lia) Hrest Hcrest ltac:(lra))
          as (r' & q' & t' & Hrun & Hr & Hp' & Hc' & Hcost).
        exists r', q', t'. split; [exact Hrun|]. split; [exact Hr|].
        split; [exact Hp'|]. split; [exact Hc'|].
        rewrite queueCost_cons, Hcost, Hch, Hc. ring.
      * assert (Hnp : ~ (h_qty h - c <= 0)%Q).
        { intros Hle. apply Qle_bool_iff in Hle. congruence. }
        assert (Hleft : (remaining - c == 0)%Q).
        { destruct (Qmin_cases remaining (h_qty h)) as [[_ Hc] | [_ Hc]];
            fold c in Hc; rewrite Hc in *; [ring|]. exfalso. apply Hnp. lra. }
        destruct fuel as [|fuel]; [lia|]. simpl sellLoop.
        assert (G' : Qgtb (remaining - c) 0 = false) by (apply Qgtb_false; lra).
        rewrite G'. eexists _, _, _. split; [reflexivity|].
        split; [exact Hleft|].
        split; [constructor; [simpl; lra | exact Hrest]|].
        split; [constructor; [simpl; rewrite Hch; ring | exact Hcrest]|].
        rewrite !queueCost_cons. simpl h_costBasis. ring.
    + apply Qgtb_false in G.
      exists remaining, (h :: rest), total.
      split; [reflexivity|]. split; [lra|].
      split; [exact Hpos|]. split; [exact Hcons|]. ring.
Qed.

Lemma foldM_fifoStep_cash (l : list Trade) :
  forall st,
    coveredHistory (queueQty (holdingsQueue st)) l ->
    positiveQueue (holdingsQueue st) -> consistentQueue (holdingsQueue st) ->
    exists st',
      foldM fifoStep l st = Ok st' /\
      positiveQueue (holdingsQueue st') /\ consistentQueue (holdingsQueue st') /\
      (realizedTotal st' - realizedTotal st
       == sumQ (map sellProceeds l)
          - (sumQ (map buyCost l)
             - (queueCost (holdingsQueue st') - queueCost (holdingsQueue st))))%Q /\
      (totalBuyAmount st' == totalBuyAmount st + sumQ (map buyCost l))%Q.
Proof.
  induction l as [|t l IH]; intros st Hcov Hpos Hcons; simpl foldM; simpl map.
  - exists st. split; [reflexivity|]. split; [exact Hpos|]. split; [exact Hcons|].
    rewrite !sumQ_nil. split; ring.
  - destruct Hcov as (Hb & Hs & Hr).
    assert (Hstep : exists st1,
              fifoStep st t = Ok st1 /\
              positiveQueue (holdingsQueue st1) /\ consistentQueue (holdingsQueue st1) /\
              (queueQty (holdingsQueue st1)
               == queueQty (holdingsQueue st) + signedQty t)%Q /\
              (realizedTotal st1 - realizedTotal st
               == sellProceeds t
                  - (buyCost t
                     - (queueCost (holdingsQueue st1) - queueCost (holdingsQueue st))))%Q /\
              (totalBuyAmount st1 == totalBuyAmount st + buyCost t)%Q).
    { unfold fifoStep, signedQty, sellProceeds, buyCost, realizedTotal.
      destruct (String.eqb_spec (side t) "Buy") as [Hbuy | _].
      - specialize (Hb Hbuy). eexists. split; [reflexivity|].
        cbn [holdingsQueue realizedPnLByCurrency totalBuyAmount].
        split.
        { apply Forall_app. split; [exact Hpos|]. constructor; [exact Hb | constructor]. }
        split.
        { apply Forall_app. split; [exact Hcons|].
          constructor; [|constructor]. cbn [h_costBasis h_costPerShare h_qty].
          field. lra. }
        split.
        { rewrite queueQty_app. unfold queueQty at 2. simpl map.
          rewrite sumQ_cons, sumQ_nil. cbn [h_qty]. ring. }
        split; [|ring].
        unfold queueCost. rewrite map_app, sumQ_app. simpl map.
        rewrite sumQ_cons, sumQ_nil. cbn [h_costBasis]. ring.
      - destruct (String.eqb_spec (side t) "Sell") as [Hsell | _].
        + specialize (Hs Hsell).
          destruct (sellLoop_cost (holdingsQueue st) (sellFuel (holdingsQueue st))
                      (qty t) 0%Q ltac:(unfold sellFuel; lia) Hpos Hcons Hs)
            as (r' & q' & t' & Hrun & Hr0 & Hp' & Hc' & Hcost).
          destruct (sellLoop_quantity (holdingsQueue st) (sellFuel (holdingsQueue st))
                      (qty t) 0%Q ltac:(unfold sellFuel; lia) ltac:(lra))
            as (r2 & q2 & t2 & Hrun2 & Hq2 & _).
          rewrite Hrun in Hrun2. injection Hrun2 as <- <- <-.
          rewrite Hrun. unfold mbind, Outcome_bind. cbv beta iota zeta.
          assert (G : Qgtb r' 0 = false) by (apply Qgtb_false; lra).
          rewrite G. eexists. split; [reflexivity|].
          cbn [holdingsQueue realizedPnLByCurrency totalBuyAmount].
          split; [exact Hp'|]. split; [exact Hc'|].
          split; [rewrite Hq2; lra|].
          split; [|ring]. rewrite addTo_total, Hcost. ring.
        + exists st. split; [reflexivity|]. split; [exact Hpos|].
          split; [exact Hcons|]. split; [ring|]. split; ring. }
    destruct Hstep as (st1 & H1 & Hp1 & Hc1 & Hq1 & Hpnl1 & Hbuy1). rewrite H1.
    destruct (IH st1) as (st' & H' & Hp' & Hc' & Hpnl' & Hbuy'); [|exact Hp1|exact Hc1|].
    { apply (coveredHistory_equiv l (queueQty (holdingsQueue st) + signedQty t)%Q);
        [now symmetry | exact Hr]. }
    exists st'. split; [exact H'|]. split; [exact Hp'|]. split; [exact Hc'|].
    rewrite !sumQ_cons. split; [lra|]. rewrite Hbuy', Hbuy1. ring.
Qed.

(** X10.  For a history that buys positive quantities and never sells
    more than it holds, the realized P&L booked by the FIFO engine (over
    both currencies) is the net proceeds of the sells less the cost of
    the buys, plus the cost basis still in the queue; the lots left are
    of positive quantity, each at its own cost per unit.  A history that
    ends with an empty queue has realized exactly its proceeds less its
    costs. *)
Theorem fifo_realized_is_proceeds_less_cost_sold (group : list Trade) :
  coveredHistory 0 (sortByDate group) ->
  exists st,
    replayFIFO group = Ok st /\
    positiveQueue (holdingsQueue st) /\ consistentQueue (holdingsQueue st) /\
    (realizedTotal st
     == sumQ (map sellProceeds group)
        - (sumQ (map buyCost group) - queueCost (holdingsQueue st)))%Q /\
    (totalBuyAmount st == sumQ (map buyCost group))%Q /\
    (holdingsQueue st = [] ->
     (realizedTotal st
      == sumQ (map sellProceeds group) - sumQ (map buyCost group))%Q).
Proof.
  intros Hcov.
  destruct (foldM_fifoStep_cash (sortByDate group) initialFifoState)
    as (st & Hrun & Hpos & Hcons & Hpnl & Hbuy);
    [exact Hcov | constructor | constructor |].
  assert (Hs : (sumQ (map sellProceeds (sortByDate group))
                == sumQ (map sellProceeds group))%Q).
  { apply sumQ_perm, Permutation_map. symmetry. apply sortByDate_perm. }
  assert (Hb : (sumQ (map buyCost (sortByDate group))
                == sumQ (map buyCost group))%Q).
  { apply sumQ_perm, Permutation_map. symmetry. apply sortByDate_perm. }
  exists st. split; [exact Hrun|]. split; [exact Hpos|]. split; [exact Hcons|].
  rewrite Hs, Hb in Hpnl. rewrite Hb in Hbuy.
  change (totalBuyAmount initialFifoState) with 0%Q in Hbuy.
  assert (H0 : (realizedTotal initialFifoState == 0)%Q) by reflexivity.
  assert (Hq0 : (queueCost (holdingsQueue initialFifoState) == 0)%Q) by reflexivity.
  assert (Hmain : (realizedTotal st
                   == sumQ (map sellProceeds group)
                      - (sumQ (map buyCost group) - queueCost (holdingsQueue st)))%Q).
  { rewrite H0, Hq0 in Hpnl. lra. }
  split; [exact Hmain|]. split; [lra|].
  intros Hempty. rewrite Hmain, Hempty. unfold queueCost. simpl map.
  rewrite sumQ_nil. ring.
Qed.

Lemma fifo_realized_is_proceeds_less_cost_sold_witness :
  exists st,
    replayFIFO [plainTrade "Sell" "XYZ" "US" 150 20 3; plainTrade "Buy" "XYZ" "US" 100 10 1;
                plainTrade "Buy" "XYZ" "US" 50 12 2] = Ok st /\
    (realizedTotal st == 150 * 20 - (100 * 10 + 50 * 12))%Q.
Proof.
  destruct (fifo_realized_is_proceeds_less_cost_sold
              [plainTrade "Sell" "XYZ" "US" 150 20 3; plainTrade "Buy" "XYZ" "US" 100 10 1;
               plainTrade "Buy" "XYZ" "US" 50 12 2])
    as (st & Hrun & _ & _ & _ & _ & Hclosed).
  - simpl. repeat split; intros; try discriminate; vm_compute; try discriminate;
      try reflexivity.
  - exists st. split; [exact Hrun|].
    assert (Hq : holdingsQueue st = []).
    { vm_compute in Hrun. injection Hrun as <-. reflexivity. }
    rewrite (Hclosed Hq). vm_compute. reflexivity.
Defined.

(** ** The reporter of server.js against the reporter of main.js *)

Lemma floor_min_max (a m : Z) (l : list Z) :
  0 < m ->
  forall d0 : Z,
    (a - fold_left Z.min l d0) / m
    = fold_left Z.max (map (fun x => (a - x) / m) l) ((a - d0) / m).
Proof.
  intros Hm. induction l as [|x l IH]; intros d0; [reflexivity|].
  cbn [fold_left map]. rewrite IH. f_equal.
  destruct (Z.le_ge_cases d0 x) as [Hle | Hge].
  - rewrite Z.min_l by exact Hle. rewrite Z.max_l; [reflexivity|].
    apply Z.div_le_mono; lia.
  - rewrite Z.min_r by exact Hge. rewrite Z.max_r; [reflexivity|].
    apply Z.div_le_mono; lia.
Qed.

(** The two loops run in step: same quantities, same holdings, and the
    cost server.js totals is the cost of the records main.js pushes. *)
Lemma reportLoop_simulation (info : option OptionsInfo) (trade : Trade) (p f : Q)
    (fuel : nat) :
  forall (remaining : Q) (holdings : list Lot) (emitted : list CapitalGain)
         (totalCost : Q) (sold : list ServerReport.SoldHolding)
         (remaining' : Q) (holdings' : list Lot) (out : list CapitalGain),
    reportLoop fuel info trade p f remaining holdings emitted
    = Ok (remaining', holdings', out) ->
    exists new totalCost',
      out = emitted ++ new /\
      ServerReport.reportLoop fuel remaining holdings totalCost sold
      = Ok (remaining', holdings', totalCost', sold ++ map soldOf new) /\
      (totalCost' == totalCost + sumQ (map r_costBasis new))%Q.
Proof.
  induction fuel as [|fuel IH];
    intros remaining holdings emitted tc sold r' h' out Hrun; [discriminate|].
  destruct holdings as [|h rest].
  - simpl in Hrun. injection Hrun as <- <- <-. exists [], tc.
    simpl. rewrite !app_nil_r. split; [reflexivity|]. split; [reflexivity|].
    rewrite sumQ_nil. ring.
  - simpl in Hrun. simpl ServerReport.reportLoop. destruct (Qgtb remaining 0).
    + cbv zeta in Hrun |- *.
      match type of Hrun with
      | reportLoop _ _ _ _ _ ?rem1 ?hs1 (emitted ++ [?r]) = _ =>
          destruct (IH rem1 hs1 (emitted ++ [r])
                      (tc + l_cost h / l_qty h * Qmin remaining (l_qty h))%Q
                      (sold ++ [soldOf r]) _ _ _ Hrun)
            as (new & tc' & -> & Hs & Htc);
          exists (r :: new), tc'
      end.
      rewrite <- app_assoc. split; [reflexivity|]. split.
      * cbn [map]. rewrite <- app_assoc in Hs. exact Hs.
      * cbn [map]. rewrite sumQ_cons, Htc. cbn [r_costBasis]. ring.
    + injection Hrun as <- <- <-. exists [], tc.
      simpl. rewrite !app_nil_r. split; [reflexivity|]. split; [reflexivity|].
      rewrite sumQ_nil. ring.
Qed.

Lemma holdingPeriods_of_records (trade : Trade) (p f : Q) (new : list CapitalGain) :
  Forall (recordOfSell trade p f) new ->
  map r_holdingPeriod new
  = map (fun x => (date trade - x) / msPerDay) (map r_buyDate new).
Proof.
  induction 1 as [|r new Hr _ IH]; [reflexivity|].
  cbn [map]. rewrite IH. f_equal.
  destruct Hr as (_ & _ & _ & Hd & _ & Hh & _). now rewrite Hh, Hd.
Qed.

(** X11.  For one sell inside the window, server.js pushes a single
    record where main.js pushes one record per lot touched, and both
    leave the same lots.  The single record carries the whole quantity
    of the sell, the cost bases of the slices added up, the buy date of
    the first slice and the longest of their holding periods.  Its gain
    is the gains of the slices plus the net proceeds of the part of the
    sell that no lot covered, which main.js leaves out; when lots of
    positive quantity cover the sell the two reports show the same gain
    and the same proceeds. *)
Theorem server_record_totals_main_slices
    (info : option OptionsInfo) (t : Trade) (holdings : list Lot) :
  exists remaining holdings' slices rec,
    reportSell info t holdings = Ok (remaining, holdings', slices) /\
    ServerReport.reportSell info t holdings = Ok (holdings', rec) /\
    ServerReport.s_qty rec = qty t /\
    (sumQ (map r_qty slices) == qty t - remaining)%Q /\
    (ServerReport.s_costBasis rec == sumQ (map r_costBasis slices))%Q /\
    ServerReport.s_buyDate rec = head (map r_buyDate slices) /\
    ServerReport.s_holdingPeriod rec = maxOr0 (map r_holdingPeriod slices) /\
    (~ (qty t == 0)%Q ->
     (ServerReport.s_capitalGain rec
      == sumQ (map r_capitalGain slices)
         + (amountAUD t - commissionAUD t - feesAUD t) * (remaining / qty t))%Q) /\
    (positiveLots holdings -> (0 < qty t)%Q -> (qty t <= totalQty holdings)%Q ->
     (ServerReport.s_capitalGain rec == sumQ (map r_capitalGain slices))%Q /\
     (ServerReport.s_proceeds rec == sumQ (map r_proceeds slices))%Q).
Proof.
  set (p := if Qgtb (qty t) 0 then (amountAUD t / qty t)%Q else 0%Q).
  set (f := (commissionAUD t + feesAUD t)%Q).
  destruct (reportLoop_runs info t p f holdings (lotFuel holdings) (qty t) []
              ltac:(unfold lotFuel; lia))
    as (r' & h' & new & Hrun & Hqty & _ & _ & Hnone & Hposl).
  cbn [app] in Hrun.
  destruct (reportLoop_records info t p f (fun _ => True) _ _ _ _ _ _ _ Hrun)
    as (_ & new' & Hout & Hrec & _).
  { apply List.Forall_forall. intros; exact I. }
  cbn [app] in Hout. subst new'.
  destruct (reportLoop_simulation info t p f _ _ _ _ 0%Q [] _ _ _ Hrun)
    as (new' & tc' & Hout & Hsrv & Htc).
  cbn [app] in Hout, Hsrv. subst new'.
  assert (Hgain : (sumQ (map r_capitalGain new)
                   == sumQ (map r_proceeds new) - sumQ (map r_costBasis new))%Q).
  { apply sumQ_difference. eapply List.Forall_impl; [|exact Hrec].
    intros r (_ & Hg & _). exact Hg. }
  assert (Hshare : (sumQ (map r_proceeds new)
                    == sumQ (map r_qty new) * p - f * (sumQ (map r_qty new) / qty t))%Q).
  { apply sumQ_shares. eapply List.Forall_impl; [|exact Hrec].
    intros r (Hp & _). exact Hp. }
  exists r', h', new.
  eexists. split; [exact Hrun|].
  split.
  { unfold ServerReport.reportSell. rewrite Hsrv.
    unfold mbind, Outcome_bind. cbv beta iota zeta. reflexivity. }
  cbn [ServerReport.s_qty ServerReport.s_costBasis ServerReport.s_buyDate
       ServerReport.s_holdingPeriod ServerReport.s_capitalGain ServerReport.s_proceeds].
  split; [reflexivity|]. split; [exact Hqty|].
  split; [rewrite Htc; ring|].
  split; [destruct new; reflexivity|].
  split.
  { rewrite (holdingPeriods_of_records t p f new Hrec).
    destruct new as [|r0 new0]; [reflexivity|].
    cbn [map ServerReport.calculateHoldingPeriodFromSold maxOr0].
    assert (Hd : map ServerReport.sold_date (map soldOf new0) = map r_buyDate new0)
      by (rewrite map_map; reflexivity).
    rewrite Hd. cbn [soldOf ServerReport.sold_date].
    apply (floor_min_max (date t) msPerDay (map r_buyDate new0)). reflexivity. }
  assert (Hany : ~ (qty t == 0)%Q ->
            (amountAUD t - commissionAUD t - feesAUD t - tc'
             == sumQ (map r_capitalGain new)
                + (amountAUD t - commissionAUD t - feesAUD t) * (r' / qty t))%Q).
  { intros Hnz. rewrite Hgain, Htc.
    destruct (Qlt_le_dec 0 (qty t)) as [Hpos | Hneg].
    - rewrite Hshare, Hqty. unfold p, f.
      rewrite (proj2 (Qgtb_true _ _) Hpos). field. exact Hnz.
    - destruct (Hnone Hneg) as [_ ->]. simpl map. rewrite !sumQ_nil.
      assert (Hr : (r' == qty t)%Q) by (simpl map in Hqty; rewrite sumQ_nil in Hqty; lra).
      rewrite Hr. field. exact Hnz. }
  split; [exact Hany|].
  intros Hlots Hpos Hcov.
  destruct (Hposl Hlots) as (_ & Hzero & _).
  specialize (Hzero Hpos Hcov).
  assert (Hnz : ~ (qty t == 0)%Q) by lra.
  specialize (Hany Hnz).
  assert (Hz : ((amountAUD t - commissionAUD t - feesAUD t) * (r' / qty t) == 0)%Q).
  { rewrite Hzero. field. exact Hnz. }
  split; [rewrite Hany, Hz; ring|].
  rewrite Hz in Hany. rewrite Hgain in Hany. rewrite Htc in Hany. lra.
Qed.


Lemma server_record_totals_main_slices_witness :
  exists remaining holdings' slices rec,
    reportSell None
      (mkTrade "Sell" 15 20 300 5 3 1 "XYZ" "Xyz" "AU" 300 3 1 None false)
      [lotOf 10 10 1; lotOf 10 11 2] = Ok (remaining, holdings', slices) /\
    ServerReport.reportSell None
      (mkTrade "Sell" 15 20 300 5 3 1 "XYZ" "Xyz" "AU" 300 3 1 None false)
      [lotOf 10 10 1; lotOf 10 11 2] = Ok (holdings', rec) /\
    (ServerReport.s_capitalGain rec == sumQ (map r_capitalGain slices))%Q.
Proof.
  destruct (server_record_totals_main_slices None
              (mkTrade "Sell" 15 20 300 5 3 1 "XYZ" "Xyz" "AU" 300 3 1 None false)
              [lotOf 10 10 1; lotOf 10 11 2])
    as (r' & h' & slices & rec & Hmain & Hsrv & _ & _ & _ & _ & _ & _ & Hcov).
  exists r', h', slices, rec. split; [exact Hmain|]. split; [exact Hsrv|].
  apply Hcov.
  - repeat constructor.
  - reflexivity.
  - vm_compute. discriminate.
Defined.

Lemma reportSell_simulation (info : option OptionsInfo) (t : Trade) (holdings : list Lot) :
  exists remaining holdings' slices rec,
    reportSell info t holdings = Ok (remaining, holdings', slices) /\
    ServerReport.reportSell info t holdings = Ok (holdings', rec) /\
    ServerReport.s_qty rec = qty t /\
    ServerReport.s_sellDate rec = date t /\
    (ServerReport.s_costBasis rec == sumQ (map r_costBasis slices))%Q.
Proof.
  set (p := if Qgtb (qty t) 0 then (amountAUD t / qty t)%Q else 0%Q).
  set (f := (commissionAUD t + feesAUD t)%Q).
  destruct (reportLoop_runs info t p f holdings (lotFuel holdings) (qty t) []
              ltac:(unfold lotFuel; lia))
    as (r' & h' & new & Hrun & _).
  cbn [app] in Hrun.
  destruct (reportLoop_simulation info t p f _ _ _ _ 0%Q [] _ _ _ Hrun)
    as (new' & tc' & Hout & Hsrv & Htc).
  cbn [app] in Hout, Hsrv. subst new'.
  exists r', h', new. eexists. split; [exact Hrun|]. split.
  { unfold ServerReport.reportSell. rewrite Hsrv.
    unfold mbind, Outcome_bind. cbv beta iota zeta. reflexivity. }
  cbn [ServerReport.s_qty ServerReport.s_costBasis ServerReport.s_sellDate].
  split; [reflexivity|]. split; [reflexivity|]. rewrite Htc. ring.
Qed.

Lemma foldM_reportStep_simulation (cs ce : Z) (info : option OptionsInfo)
    (l : list Trade) :
  forall (hs : list Lot) (recs : list CapitalGain)
         (srecs : list ServerReport.CapitalGain),
  exists hs' new snew,
    foldM (reportStep cs ce info) l (hs, recs) = Ok (hs', recs ++ new) /\
    foldM (ServerReport.reportStep cs ce info) l (hs, srecs) = Ok (hs', srecs ++ snew) /\
    map ServerReport.s_qty snew = map qty (List.filter (inWindowSell cs ce) l) /\
    map ServerReport.s_sellDate snew = map date (List.filter (inWindowSell cs ce) l) /\
    (sumQ (map ServerReport.s_costBasis snew) == sumQ (map r_costBasis new))%Q.
Proof.
  induction l as [|t l IH]; intros hs recs srecs.
  - exists hs, [], []. simpl. rewrite !app_nil_r. repeat split; reflexivity.
  - assert (Hstep : exists hs1 new1 snew1,
              reportStep cs ce info (hs, recs) t = Ok (hs1, recs ++ new1) /\
              ServerReport.reportStep cs ce info (hs, srecs) t = Ok (hs1, srecs ++ snew1) /\
              map ServerReport.s_qty snew1
              = map qty (if inWindowSell cs ce t then [t] else []) /\
              map ServerReport.s_sellDate snew1
              = map date (if inWindowSell cs ce t then [t] else []) /\
              (sumQ (map ServerReport.s_costBasis snew1) == sumQ (map r_costBasis new1))%Q).
    { unfold reportStep, ServerReport.reportStep, inWindowSell.
      destruct (String.eqb_spec (side t) "Buy") as [Hbuy | _].
      - rewrite Hbuy. cbn [String.eqb Ascii.eqb Bool.eqb andb].
        eexists _, [], []. rewrite !app_nil_r.
        repeat split; reflexivity.
      - destruct (String.eqb (side t) "Sell").
        + destruct (inWindow cs ce t).
          * destruct (reportSell_simulation info t hs)
              as (r' & h' & slices & rec & Hmain & Hsrv & Hq & Hd & Hc).
            rewrite Hmain, Hsrv. unfold mbind, Outcome_bind. cbv beta iota zeta.
            exists h', slices, [rec]. cbn [andb map].
            split; [reflexivity|]. split; [reflexivity|].
            rewrite Hq, Hd. split; [reflexivity|]. split; [reflexivity|].
            rewrite sumQ_cons, sumQ_nil, Hc. ring.
          * destruct (historicalLoop_runs hs (lotFuel hs) (qty t)
                        ltac:(unfold lotFuel; lia)) as (r' & h' & Hrun).
            rewrite Hrun. unfold mbind, Outcome_bind. cbv beta iota zeta.
            exists h', [], []. rewrite !app_nil_r. repeat split; reflexivity.
        + exists hs, [], []. rewrite !app_nil_r. repeat split; reflexivity. }
    destruct Hstep as (hs1 & new1 & snew1 & H1 & S1 & Hq1 & Hd1 & Hc1).
    destruct (IH hs1 (recs ++ new1) (srecs ++ snew1))
      as (hs' & new & snew & H2 & S2 & Hq2 & Hd2 & Hc2).
    exists hs', (new1 ++ new), (snew1 ++ snew).
    cbn [foldM]. rewrite H1, S1. unfold mbind, Outcome_bind.
    rewrite H2, S2, !app_assoc. split; [reflexivity|]. split; [reflexivity|].
    rewrite !map_app, Hq1, Hd1, Hq2, Hd2, !sumQ_app, Hc1, Hc2.
    cbn [List.filter]. destruct (inWindowSell cs ce t);
      repeat split; reflexivity.
Qed.

(** X12.  Replaying the trades of a symbol, the reporters of main.js and
    of server.js leave the same lots.  server.js reports exactly one
    record for each sell inside the window, in replay order, with the
    quantity and date of the sell, and the cost bases of its records add
    up to the cost bases of the records of main.js. *)
Theorem server_replay_keeps_main_lots (cs ce : Z) (info : option OptionsInfo)
    (trades : list Trade) :
  exists hs recs srecs,
    foldM (reportStep cs ce info) trades ([], []) = Ok (hs, recs) /\
    foldM (ServerReport.reportStep cs ce info) trades ([], []) = Ok (hs, srecs) /\
    map ServerReport.s_qty srecs = map qty (List.filter (inWindowSell cs ce) trades) /\
    map ServerReport.s_sellDate srecs
    = map date (List.filter (inWindowSell cs ce) trades) /\
    (sumQ (map ServerReport.s_costBasis srecs) == sumQ (map r_costBasis recs))%Q.
Proof.
  destruct (foldM_reportStep_simulation cs ce info trades [] [] [])
    as (hs & new & snew & H1 & H2 & Hq & Hd & Hc).
  exists hs, new, snew. cbn [app] in H1, H2. repeat split; assumption.
Qed.

(** ** A second pass over expired options *)

(** X13.  After the pass over the groups, an expired option has no open
    position left: the net quantity of its group, synthetic sell
    included, is at most 0.01, and exactly 0 when a synthetic sell was
    added.  A second pass over the same group adds nothing, it only
    sorts the group again. *)
Theorem expired_option_position_is_closed
    (now : Z) (zone : Zone) (sym : string) (group : list Trade) (info : OptionsInfo) :
  parseOptionsSymbol now zone sym = Some info ->
  isExpired info = true ->
  (remainingHoldings (sortByDate (addExpiredToGroup now zone sym group)) <= tolerance)%Q /\
  ((tolerance < remainingHoldings (sortByDate group))%Q ->
   (remainingHoldings (sortByDate (addExpiredToGroup now zone sym group)) == 0)%Q) /\
  addExpiredToGroup now zone sym (addExpiredToGroup now zone sym group)
  = sortByDate (addExpiredToGroup now zone sym group).
Proof.
  intros Hparse Hexp.
  assert (Hnet : (remainingHoldings (sortByDate (addExpiredToGroup now zone sym group))
                  <= tolerance)%Q /\
                 ((tolerance < remainingHoldings (sortByDate group))%Q ->
                  (remainingHoldings (sortByDate (addExpiredToGroup now zone sym group))
                   == 0)%Q)).
  { unfold addExpiredToGroup. rewrite Hparse, Hexp. cbv zeta.
    destruct (Qgtb (remainingHoldings (sortByDate group)) tolerance) eqn:G.
    - set (trades := sortByDate group).
      set (syn := syntheticSell sym (remainingHoldings trades) (expiryDate info)
                    match sampleTrade trades with Some t => name t | None => sym end
                    match sampleTrade trades with Some t => market t | None => "US" end).
      assert (H0 : (remainingHoldings (sortByDate (trades ++ [syn])) == 0)%Q).
      { rewrite (remainingHoldings_perm (sortByDate (trades ++ [syn])) (trades ++ [syn])
                   (Permutation_sym (sortByDate_perm _))).
        assert (Hsyn : (signedQty syn == - remainingHoldings trades)%Q) by reflexivity.
        assert (Htr : (remainingHoldings trades == sumQ (map signedQty trades))%Q).
        { unfold remainingHoldings. rewrite fold_left_netStep. ring. }
        unfold remainingHoldings at 1.
        rewrite fold_left_netStep, map_app, sumQ_app.
        cbn [map]. rewrite sumQ_cons, sumQ_nil, Hsyn, Htr. ring. }
      split; [rewrite H0; unfold tolerance; lra | intros _; exact H0].
    - apply Qgtb_false in G.
      assert (Hs : (remainingHoldings (sortByDate (sortByDate group))
                    == remainingHoldings (sortByDate group))%Q)
        by (apply remainingHoldings_perm, Permutation_sym, sortByDate_perm).
      split; [rewrite Hs; exact G | intros Hlt; lra]. }
  split; [exact (proj1 Hnet)|]. split; [exact (proj2 Hnet)|].
  destruct Hnet as [Hle _].
  unfold addExpiredToGroup at 1. rewrite Hparse, Hexp. cbv zeta.
  apply Qgtb_false in Hle. rewrite Hle. reflexivity.
Qed.

Lemma expired_option_position_is_closed_witness :
  let now := utcMidnight 2024 1 1 in
  let group := [plainTrade "Buy" "ABC200117C5000" "US" 5 100 (utcMidnight 2019 12 2)] in
  (remainingHoldings (sortByDate (addExpiredToGroup now (fixedZone 0) "ABC200117C5000" group)) == 0)%Q.
Proof.
  intros now group.
  destruct (parseOptionsSymbol now (fixedZone 0) "ABC200117C5000") as [info|] eqn:Hparse;
    [|vm_compute in Hparse; discriminate].
  assert (Hexp : isExpired info = true).
  { vm_compute in Hparse. injection Hparse as <-. reflexivity. }
  destruct (expired_option_position_is_closed now (fixedZone 0) "ABC200117C5000" group info
              Hparse Hexp) as (_ & Hzero & _).
  apply Hzero. vm_compute. reflexivity.
Defined.

(** ** Rate lookup of server.js *)

(** X14.  [getUSDToAUDRate] of server.js, on a table of positive rates
    without an entry for the day of the date: the rate returned is that
    of the entry whose UTC midnight is nearest in time to the date, the
    first such entry of the table when two are equally near, provided it
    is at most 7 days away; when every entry is more than 7 days away
    the rate is 1.5. *)
Theorem server_rate_is_nearest_in_time (entries : list (Z * Q)) (date : Z) :
  Forall (fun e => fst e <> dateKey date) entries ->
  Forall (fun e => (0 < snd e)%Q) entries ->
  (exists l1 e l2,
     entries = l1 ++ e :: l2 /\
     Server.getUSDToAUDRate entries date = snd e /\
     elapsed date e <= 7 * msPerDay /\
     Forall (fun e' => elapsed date e < elapsed date e') l1 /\
     Forall (fun e' => elapsed date e <= elapsed date e') l2) \/
  (Server.getUSDToAUDRate entries date = fallbackRate /\
   Forall (fun e' => 7 * msPerDay < elapsed date e') entries).
Proof.
  intros Hmiss Hpos.
  assert (Hfind : list_find (fun e : Z * Q => bool_decide (fst e = dateKey date)) entries
                  = None).
  { apply list_find_None. apply List.Forall_forall. intros e Hin Hb.
    apply bool_decide_unpack in Hb.
    exact (proj1 (List.Forall_forall _ _) Hmiss e Hin Hb). }
  unfold Server.getUSDToAUDRate. rewrite Hfind.
  pose proof (scan_invariant date entries [] (None, None) (List.Forall_nil _)) as Hscan.
  cbn [app] in Hscan.
  destruct (fold_left (Server.scanStep date) entries (None, None)) as [[r|] [d|]];
    try contradiction; cbn [fst].
  - destruct Hscan as (l1 & e & l2 & -> & Hr & Hd & H7 & Hl1 & Hl2).
    left. exists l1, e, l2. split; [reflexivity|].
    assert (He : (0 < snd e)%Q).
    { apply Forall_app in Hpos. destruct Hpos as [_ Hpos].
      inversion Hpos; assumption. }
    assert (Hnz : Qeq_bool r 0 = false).
    { destruct (Qeq_bool r 0) eqn:E; [|reflexivity].
      apply Qeq_bool_iff in E. rewrite <- Hr in E. lra. }
    rewrite Hnz, Hd. split; [symmetry; exact Hr|]. split; [exact H7|].
    split; assumption.
  - right. split; [reflexivity | exact Hscan].
Qed.

Lemma server_rate_is_nearest_in_time_witness :
  Server.getUSDToAUDRate
    [(dateKey (utcMidnight 2024 1 1), 3 # 2); (dateKey (utcMidnight 2024 1 10), 8 # 5)]%Q
    (utcMidnight 2024 1 7) = (8 # 5)%Q.
Proof.
  destruct (server_rate_is_nearest_in_time
              [(dateKey (utcMidnight 2024 1 1), 3 # 2);
               (dateKey (utcMidnight 2024 1 10), 8 # 5)]%Q
              (utcMidnight 2024 1 7))
    as [(l1 & e & l2 & Hsplit & Hrate & _) | (_ & Hfar)].
  - repeat constructor; vm_compute; discriminate.
  - repeat constructor.
  - rewrite Hrate.
    destruct l1 as [|a [|b l1]].
    + exfalso. injection Hsplit as <- _.
      revert Hrate. vm_compute. discriminate.
    + injection Hsplit as _ <- _. reflexivity.
    + exfalso. injection Hsplit as _ _ Hnil. destruct l1; discriminate.
  - exfalso. inversion Hfar as [|? ? _ Hrest]; subst.
    inversion Hrest as [|? ? H10 _]; subst.
    vm_compute in H10. discriminate.
Defined.

(** ** Zone tags of the Fill Time *)

Lemma convertTimezoneToLocal_wall (zone : Zone) (w offset : Z) :
  LocalTime zone (UTC zone w) = w ->
  Normalizer.convertTimezoneToLocal zone (UTC zone w) offset
  = if Normalizer.fourDigitYear w
    then Some (w / 1000 * 1000 - offset * 60 * 60 * 1000) else None.
Proof.
  intros Hw. unfold Normalizer.convertTimezoneToLocal. rewrite Hw. reflexivity.
Qed.

Lemma replaceFirst_absent (pat rep s : string) :
  Normalizer.includes s pat = false -> Normalizer.replaceFirst pat rep s = s.
Proof.
  unfold Normalizer.includes, Normalizer.replaceFirst.
  destruct (String.index 0 pat s); [discriminate | reflexivity].
Qed.

Lemma zoneTagged_offset (ds : string) :
  zoneTagged ds = true ->
  exists offset : Z,
    (if Normalizer.includes ds " ET" then Some (-4)
     else if Normalizer.includes ds " AEST" then Some 10
     else if Normalizer.includes ds " AEDT" then Some 10
     else None) = Some offset.
Proof.
  unfold zoneTagged. intros Htag.
  destruct (Normalizer.includes ds " ET"); [eauto|].
  destruct (Normalizer.includes ds " AEST"); [eauto|].
  destruct (Normalizer.includes ds " AEDT"); [eauto | discriminate].
Qed.

Lemma parseCSVDate_tagged (wall : string -> option Z) (ds : string) :
  zoneTagged ds = true ->
  (forall zone : Zone,
     Normalizer.parseCSVDate zone (localParser zone wall) (Some ds)
     = Some Normalizer.sentinelDate) \/
  (exists (text : string) (w offset : Z),
     wall text = Some w /\
     forall zone : Zone,
       LocalTime zone (UTC zone w) = w ->
       Normalizer.parseCSVDate zone (localParser zone wall) (Some ds)
       = if Normalizer.fourDigitYear w
         then Some (w / 1000 * 1000 - offset * 60 * 60 * 1000) else None).
Proof.
  intros Htag. destruct (zoneTagged_offset ds Htag) as [offset Hoff].
  unfold Normalizer.parseCSVDate, localParser.
  destruct (String.eqb ds ""); [left; reflexivity|].
  cbv zeta. rewrite Hoff.
  match goal with
  | |- context [wall ?c] => destruct (wall c) as [w|] eqn:Hw;
                            [right; exists c, w, offset|]
  end.
  - split; [exact Hw|]. intros zone Hreal.
    now apply convertTimezoneToLocal_wall.
  - destruct (map string_of_list_ascii _)
      as [|month [|day [|year [|time rest]]]]; try (left; reflexivity).
    match goal with
    | |- context [wall ?c] => destruct (wall c) as [w|] eqn:Hw';
                              [right; exists c, w, offset|]
    end.
    + split; [exact Hw'|]. intros zone Hreal.
      now apply convertTimezoneToLocal_wall.
    + left. reflexivity.
Qed.

(** X15.  A Fill Time tagged ET, AEST or AEDT is read as the same
    instant on every machine in whose zone the wall-clock readings of
    the text exist as local times: the zone of the machine cancels out
    and the tag alone fixes the offset.  The instant is a whole number
    of seconds, and a valid date when the years read have four digits;
    a text read as a time of a year outside 1000 to 9999 gives an
    Invalid Date.  Without a tag the wall-clock reading of the text is
    taken in the zone of the machine, so the instant moves with it. *)
Theorem tagged_fill_time_is_machine_independent
    (wall : string -> option Z) (ds : string) :
  (zoneTagged ds = true ->
   exists instant : option Z,
     (forall zone : Zone,
        realLocalTimes zone wall ->
        Normalizer.parseCSVDate zone (localParser zone wall) (Some ds) = instant) /\
     (forall t : Z, instant = Some t -> t mod 1000 = 0) /\
     (fourDigitYears wall -> instant <> None)) /\
  (zoneTagged ds = true ->
   forall (zone : Zone) (w : Z),
     LocalTime zone (UTC zone w) = w ->
     Normalizer.fourDigitYear w = false ->
     Normalizer.parseCSVDate zone (localParser zone (fun _ => Some w)) (Some ds)
     = None) /\
  (zoneTagged ds = false -> ds <> "" ->
   forall (zone : Zone) (w : Z),
     wall ds = Some w ->
     Normalizer.parseCSVDate zone (localParser zone wall) (Some ds)
     = Some (UTC zone w)).
Proof.
  split; [|split].
  - intros Htag.
    destruct (parseCSVDate_tagged wall ds Htag)
      as [Hs | (text & w & offset & Hw & Hrun)].
    + exists (Some Normalizer.sentinelDate).
      split; [intros zone _; apply Hs|].
      split; [intros t [= <-]; reflexivity | discriminate].
    + exists (if Normalizer.fourDigitYear w
              then Some (w / 1000 * 1000 - offset * 60 * 60 * 1000) else None).
      split; [intros zone Hreal; apply Hrun, (Hreal text w Hw)|].
      split.
      * intros t. destruct (Normalizer.fourDigitYear w); [|discriminate].
        intros [= <-].
        replace (w / 1000 * 1000 - offset * 60 * 60 * 1000)
          with ((w / 1000 - offset * 3600) * 1000) by lia.
        apply Z_mod_mult.
      * intros Hyears. rewrite (Hyears text w Hw). discriminate.
  - intros Htag zone w Hreal Hyear.
    destruct (zoneTagged_offset ds Htag) as [offset Hoff].
    unfold Normalizer.parseCSVDate, localParser.
    destruct (String.eqb_spec ds "") as [-> | _]; [discriminate Htag|].
    cbv zeta. rewrite Hoff.
    rewrite (convertTimezoneToLocal_wall zone w offset Hreal), Hyear.
    reflexivity.
  - intros Htag Hne zone w Hw. unfold zoneTagged in Htag.
    apply orb_false_iff in Htag. destruct Htag as [Htag Hd].
    apply orb_false_iff in Htag. destruct Htag as [He Hs].
    unfold Normalizer.parseCSVDate, localParser.
    destruct (String.eqb_spec ds "") as [Heq | _]; [contradiction|].
    cbv zeta. rewrite He, Hs, Hd.
    rewrite (replaceFirst_absent " ET" "" ds He).
    rewrite (replaceFirst_absent " AEST" "" ds Hs).
    rewrite (replaceFirst_absent " AEDT" "" ds Hd).
    rewrite Hw. reflexivity.
Qed.

Lemma tagged_fill_time_is_machine_independent_witness :
  let wall := fun text : string =>
                if String.eqb text "2024-04-05 09:30:00"
                then Some (utcMidnight 2024 4 5 + 34200000) else None in
  realLocalTimes daylightZone wall /\
  realLocalTimes (fixedZone 0) wall /\
  Normalizer.parseCSVDate daylightZone (localParser daylightZone wall)
    (Some "2024-04-05 09:30:00 ET")
  = Normalizer.parseCSVDate (fixedZone 0) (localParser (fixedZone 0) wall)
      (Some "2024-04-05 09:30:00 ET") /\
  Normalizer.parseCSVDate daylightZone (localParser daylightZone wall)
    (Some "2024-04-05 09:30:00 ET")
  = Some (utcMidnight 2024 4 5 + 34200000 + 4 * 3600000) /\
  Normalizer.parseCSVDate daylightZone
    (localParser daylightZone (fun _ => Some (utcMidnight 10000 1 1)))
    (Some "2024-04-05 09:30:00 ET") = None.
Proof.
  intros wall.
  assert (Hreal : forall zone : Zone,
            LocalTime zone (UTC zone (utcMidnight 2024 4 5 + 34200000))
            = utcMidnight 2024 4 5 + 34200000 ->
            realLocalTimes zone wall).
  { intros zone Hz text w. unfold wall.
    destruct (String.eqb text "2024-04-05 09:30:00"); [|discriminate].
    intros [= <-]. exact Hz. }
  assert (Hd : realLocalTimes daylightZone wall) by (apply Hreal; reflexivity).
  assert (H0 : realLocalTimes (fixedZone 0) wall) by (apply Hreal; reflexivity).
  split; [exact Hd|]. split; [exact H0|].
  destruct (tagged_fill_time_is_machine_independent wall "2024-04-05 09:30:00 ET")
    as (Htagged & Hinvalid & _).
  destruct (Htagged eq_refl) as (instant & Hsame & _ & _).
  split; [now rewrite (Hsame daylightZone Hd), (Hsame (fixedZone 0) H0)|].
  split; [reflexivity|].
  apply (Hinvalid eq_refl); reflexivity.
Defined.

(** ** Performance chart *)

Lemma insertBy_perm {A : Type} (key : A -> Z) (x : A) (l : list A) :
  Permutation (x :: l) (Performance.insertBy key x l).
Proof.
  induction l as [|h r IH]; [reflexivity|].
  cbn [Performance.insertBy]. destruct (key x <=? key h); [reflexivity|].
  rewrite perm_swap. now apply perm_skip.
Qed.

Lemma sortBy_perm {A : Type} (key : A -> Z) (l : list A) :
  Permutation l (Performance.sortBy key l).
Proof.
  induction l as [|x l IH]; [reflexivity|].
  cbn [Performance.sortBy fold_right].
  rewrite <- insertBy_perm. now apply perm_skip.
Qed.

Lemma list_sum_perm (l1 l2 : list nat) :
  Permutation l1 l2 -> list_sum l1 = list_sum l2.
Proof.
  induction 1 as [| x l l' _ IH | x y l | l l' l'' _ IH1 _ IH2]; simpl; lia.
Qed.

Lemma list_sum_cons (x : nat) (l : list nat) :
  list_sum (x :: l) = (x + list_sum l)%nat.
Proof. reflexivity. Qed.

Lemma recordGain_sums (periodKey : Z -> string) (g : Performance.Gain)
    (periodData : list Performance.Period) :
  List.NoDup (map Performance.p_period periodData) ->
  (sumQ (map Performance.p_totalPnL (Performance.recordGain periodKey periodData g))
   == sumQ (map Performance.p_totalPnL periodData) + Performance.convertedGain g)%Q /\
  list_sum (map Performance.p_trades (Performance.recordGain periodKey periodData g))
  = S (list_sum (map Performance.p_trades periodData)) /\
  List.NoDup (map Performance.p_period (Performance.recordGain periodKey periodData g)) /\
  (forall k, In k (map Performance.p_period (Performance.recordGain periodKey periodData g)) ->
             In k (map Performance.p_period periodData)
             \/ k = periodKey (r_sellDate (Performance.g_gain g))).
Proof.
  induction periodData as [|data r IH]; intros Hnd.
  - cbn [Performance.recordGain map Performance.p_totalPnL
         Performance.p_trades Performance.p_period].
    rewrite sumQ_cons, !sumQ_nil.
    split; [ring|]. split; [reflexivity|].
    split; [constructor; [simpl; tauto | constructor]|].
    intros k Hk. simpl in Hk. destruct Hk as [<- | Hk]; [now right | contradiction].
  - cbn [Performance.recordGain]. cbn [map] in Hnd.
    apply List.NoDup_cons_iff in Hnd. destruct Hnd as [Hout Hnd].
    destruct (String.eqb_spec (Performance.p_period data)
                (periodKey (r_sellDate (Performance.g_gain g)))) as [Heq | Hne].
    + cbn [map Performance.p_totalPnL Performance.p_trades Performance.p_period].
      rewrite !sumQ_cons, !list_sum_cons. split; [ring|]. split; [lia|].
      split; [apply List.NoDup_cons_iff; split; assumption|].
      intros k Hk. now left.
    + destruct (IH Hnd) as (Hq & Hn & Hd & Hk).
      cbn [map]. rewrite !sumQ_cons, !list_sum_cons, Hq, Hn.
      split; [ring|]. split; [lia|]. split.
      * apply List.NoDup_cons_iff. split; [|exact Hd].
        intros Hin. destruct (Hk _ Hin) as [Hold | Hnew]; [now apply Hout | now apply Hne].
      * intros k [<- | Hin]; [left; now left|].
        destruct (Hk _ Hin) as [Hold | Hnew]; [left; now right | now right].
Qed.

Lemma fold_recordGain_sums (periodKey : Z -> string) (gains : list Performance.Gain) :
  forall periodData : list Performance.Period,
    List.NoDup (map Performance.p_period periodData) ->
    (sumQ (map Performance.p_totalPnL
             (fold_left (Performance.recordGain periodKey) gains periodData))
     == sumQ (map Performance.p_totalPnL periodData)
        + sumQ (map Performance.convertedGain gains))%Q /\
    list_sum (map Performance.p_trades
                (fold_left (Performance.recordGain periodKey) gains periodData))
    = (list_sum (map Performance.p_trades periodData) + length gains)%nat /\
    List.NoDup (map Performance.p_period
             (fold_left (Performance.recordGain periodKey) gains periodData)).
Proof.
  induction gains as [|g gains IH]; intros periodData Hnd.
  - cbn [fold_left map length]. rewrite sumQ_nil.
    split; [ring|]. split; [lia | exact Hnd].
  - cbn [fold_left map length].
    destruct (recordGain_sums periodKey g periodData Hnd) as (Hq & Hn & Hd & _).
    destruct (IH _ Hd) as (Hq' & Hn' & Hd').
    rewrite Hq', Hq, Hn', Hn, sumQ_cons. split; [ring|]. split; [lia | exact Hd'].
Qed.

Lemma chartFrom_periods (l : list Performance.Period) :
  forall runningTotal : Q,
    map Performance.c_period (Performance.chartFrom runningTotal l) = l.
Proof.
  induction l as [|p l IH]; intros rt; [reflexivity|].
  cbn [Performance.chartFrom map Performance.c_period]. now rewrite IH.
Qed.

Lemma lastOf_cons {A : Type} (x : A) (l : list A) :
  exists z, Performance.lastOf (x :: l) = Some z.
Proof.
  revert x. induction l as [|y l IH]; intros x; [now exists x|].
  destruct (IH y) as [z Hz]. exists z. exact Hz.
Qed.

Lemma chartFrom_last (l : list Performance.Period) :
  forall runningTotal : Q,
    (match Performance.lastOf (Performance.chartFrom runningTotal l) with
     | Some c => Performance.cumulativePnL c
     | None => runningTotal
     end == runningTotal + sumQ (map Performance.p_totalPnL l))%Q.
Proof.
  induction l as [|p l IH]; intros rt.
  - cbn [Performance.chartFrom Performance.lastOf map]. rewrite sumQ_nil. ring.
  - cbn [map]. rewrite sumQ_cons.
    specialize (IH (rt + Performance.p_totalPnL p)%Q).
    cbn [Performance.chartFrom]. cbv zeta.
    destruct l as [|p' l].
    + cbn [Performance.chartFrom Performance.lastOf Performance.cumulativePnL map].
      rewrite sumQ_nil. ring.
    + destruct (Performance.chartFrom (rt + Performance.p_totalPnL p)%Q (p' :: l))
        as [|c cs] eqn:E; [discriminate|].
      match goal with
      | |- context [Performance.lastOf (?x :: c :: cs)] =>
          change (Performance.lastOf (x :: c :: cs)) with (Performance.lastOf (c :: cs))
      end.
      destruct (lastOf_cons c cs) as [z Hz]. rewrite Hz in IH |- *.
      rewrite IH. ring.
Qed.

Lemma sumQ_convert_AUD (zone : Zone) (table : RateTable) (l : list CapitalGain) :
  (sumQ (map Performance.convertedGain (map (Performance.convert zone table "AUD") l))
   == sumQ (map r_capitalGain l))%Q.
Proof.
  induction l as [|g l IH]; cbn [map]; [reflexivity|].
  rewrite !sumQ_cons, IH. reflexivity.
Qed.

(** X16.  The chart accounts for every record sold from the start date
    on exactly once: each period key appears once, the trade counts of
    the periods add up to the number of those records, and the total of
    the summary, which is read off the last cumulative value, is the sum
    of their converted gains.  In AUD that total is the sum of the
    capital gains of those records. *)
Theorem chart_total_is_sum_of_gains
    (zone : Zone) (table : RateTable) (startDate : Z) (periodKey : Z -> string)
    (displayCurrency : string) (all : list CapitalGain) :
  let result :=
    Performance.calculatePerformanceData zone table startDate periodKey displayCurrency all in
  (Performance.s_totalPnL (snd result)
   == sumQ (map (fun g => Performance.convertedGain
                            (Performance.convert zone table displayCurrency g))
              (soldFrom startDate all)))%Q /\
  (Performance.s_totalPnL
     (snd (Performance.calculatePerformanceData zone table startDate periodKey "AUD" all))
   == sumQ (map r_capitalGain (soldFrom startDate all)))%Q /\
  list_sum (map (fun c => Performance.p_trades (Performance.c_period c)) (fst result))
  = length (soldFrom startDate all) /\
  Performance.s_totalTrades (snd result) = length (soldFrom startDate all) /\
  List.NoDup (map (fun c => Performance.p_period (Performance.c_period c)) (fst result)).
Proof.
  assert (Htotal : forall dc,
            (Performance.s_totalPnL
               (snd (Performance.calculatePerformanceData zone table startDate periodKey dc all))
             == sumQ (map Performance.convertedGain
                        (map (Performance.convert zone table dc) (soldFrom startDate all))))%Q).
  { intros dc.
    unfold Performance.calculatePerformanceData, Performance.summary. cbv zeta.
    cbn [snd Performance.s_totalPnL]. unfold Performance.chartData.
    rewrite (chartFrom_last _ 0%Q). unfold Performance.periodArray.
    rewrite <- (sumQ_perm _ _ (Permutation_map _ (sortBy_perm Performance.p_date _))).
    destruct (fold_recordGain_sums periodKey
                (Performance.filteredGains zone table startDate dc all) [] (List.NoDup_nil _))
      as (Hq & _). rewrite Hq. cbn [map]. rewrite sumQ_nil.
    unfold Performance.filteredGains.
    rewrite <- (sumQ_perm _ _ (Permutation_map _ (sortBy_perm _ _))).
    unfold soldFrom. ring. }
  intros result. split; [|split; [|split; [|split]]].
  - unfold result. rewrite Htotal, map_map. reflexivity.
  - rewrite Htotal. apply sumQ_convert_AUD.
  - unfold result, Performance.calculatePerformanceData. cbv zeta. cbn [fst].
    unfold Performance.chartData.
    rewrite <- (map_map Performance.c_period Performance.p_trades), chartFrom_periods.
    unfold Performance.periodArray.
    rewrite <- (list_sum_perm _ _ (Permutation_map _ (sortBy_perm Performance.p_date _))).
    destruct (fold_recordGain_sums periodKey
                (Performance.filteredGains zone table startDate displayCurrency all) []
                (List.NoDup_nil _)) as (_ & Hn & _).
    rewrite Hn. cbn [map]. change (list_sum []) with 0%nat. unfold Performance.filteredGains.
    rewrite <- (Permutation_length (sortBy_perm _ _)), length_map. reflexivity.
  - unfold result, Performance.calculatePerformanceData, Performance.summary.
    cbv zeta. cbn [snd Performance.s_totalTrades]. unfold Performance.filteredGains.
    rewrite <- (Permutation_length (sortBy_perm _ _)), length_map. reflexivity.
  - unfold result, Performance.calculatePerformanceData. cbv zeta. cbn [fst].
    unfold Performance.chartData.
    rewrite <- (map_map Performance.c_period Performance.p_period), chartFrom_periods.
    unfold Performance.periodArray.
    destruct (fold_recordGain_sums periodKey
                (Performance.filteredGains zone table startDate displayCurrency all) []
                (List.NoDup_nil _)) as (_ & _ & Hd).
    eapply Permutation_NoDup; [|exact Hd].
    apply Permutation_map, sortBy_perm.
Qed.

Lemma bestStep_fold (l : list Performance.ChartPoint) :
  forall (pre : list Performance.ChartPoint) (acc : option Performance.ChartPoint),
    Forall (fun c => ~ (periodTotal c == 0)%Q) (pre ++ l) ->
    match acc with
    | Some b => In b pre /\ Forall (fun c => (periodTotal c <= periodTotal b)%Q) pre
    | None => pre = []
    end ->
    match fold_left Performance.bestStep l acc with
    | Some b => In b (pre ++ l)
                /\ Forall (fun c => (periodTotal c <= periodTotal b)%Q) (pre ++ l)
    | None => pre ++ l = []
    end.
Proof.
  induction l as [|x l IH]; intros pre acc Hnz Hinv.
  - cbn [fold_left]. rewrite app_nil_r. exact Hinv.
  - cbn [fold_left].
    replace (pre ++ x :: l) with ((pre ++ [x]) ++ l) in *
      by (rewrite <- app_assoc; reflexivity).
    apply IH; [exact Hnz|].
    unfold Performance.bestStep, Performance.totalOrInfinity.
    destruct acc as [b|].
    + destruct Hinv as [Hin Hmax].
      assert (Hb : ~ (periodTotal b == 0)%Q).
      { apply (proj1 (List.Forall_forall _ _) Hnz).
        apply in_or_app. left. apply in_or_app. now left. }
      fold (periodTotal b). fold (periodTotal x).
      destruct (Qeq_bool (periodTotal b) 0) eqn:E;
        [apply Qeq_bool_iff in E; contradiction|].
      destruct (Qgtb (periodTotal x) (periodTotal b)) eqn:G.
      * apply Qgtb_true in G. split; [apply in_or_app; right; now left|].
        apply Forall_app. split.
        -- eapply List.Forall_impl; [|exact Hmax]. cbv beta. intros c Hc. unfold periodTotal in *. lra.
        -- constructor; [unfold periodTotal in *; lra | constructor].
      * apply Qgtb_false in G. split; [apply in_or_app; now left|].
        apply Forall_app. split; [exact Hmax|]. constructor; [exact G | constructor].
    + subst pre. cbn [app]. split; [now left|].
      constructor; [unfold periodTotal in *; lra | constructor].
Qed.

Lemma worstStep_fold (l : list Performance.ChartPoint) :
  forall (pre : list Performance.ChartPoint) (acc : option Performance.ChartPoint),
    Forall (fun c => ~ (periodTotal c == 0)%Q) (pre ++ l) ->
    match acc with
    | Some b => In b pre /\ Forall (fun c => (periodTotal b <= periodTotal c)%Q) pre
    | None => pre = []
    end ->
    match fold_left Performance.worstStep l acc with
    | Some b => In b (pre ++ l)
                /\ Forall (fun c => (periodTotal b <= periodTotal c)%Q) (pre ++ l)
    | None => pre ++ l = []
    end.
Proof.
  induction l as [|x l IH]; intros pre acc Hnz Hinv.
  - cbn [fold_left]. rewrite app_nil_r. exact Hinv.
  - cbn [fold_left].
    replace (pre ++ x :: l) with ((pre ++ [x]) ++ l) in *
      by (rewrite <- app_assoc; reflexivity).
    apply IH; [exact Hnz|].
    unfold Performance.worstStep, Performance.totalOrInfinity.
    destruct acc as [b|].
    + destruct Hinv as [Hin Hmin].
      assert (Hb : ~ (periodTotal b == 0)%Q).
      { apply (proj1 (List.Forall_forall _ _) Hnz).
        apply in_or_app. left. apply in_or_app. now left. }
      fold (periodTotal b). fold (periodTotal x).
      destruct (Qeq_bool (periodTotal b) 0) eqn:E;
        [apply Qeq_bool_iff in E; contradiction|].
      destruct (Qgtb (periodTotal b) (periodTotal x)) eqn:G.
      * apply Qgtb_true in G. split; [apply in_or_app; right; now left|].
        apply Forall_app. split.
        -- eapply List.Forall_impl; [|exact Hmin]. cbv beta. intros c Hc. unfold periodTotal in *. lra.
        -- constructor; [unfold periodTotal in *; lra | constructor].
      * apply Qgtb_false in G. split; [apply in_or_app; now left|].
        apply Forall_app. split; [exact Hmin|]. constructor; [exact G | constructor].
    + subst pre. cbn [app]. split; [now left|].
      constructor; [unfold periodTotal in *; lra | constructor].
Qed.

(** X17.  When no period of the chart has a total of exactly 0, the best
    month of the summary is the largest period total and the worst month
    the smallest, and both are totals of periods of the chart; the
    summary has neither only when the chart is empty.  (A total of 0
    reads as no candidate in the comparison, so the condition is
    needed.) *)
Theorem best_and_worst_month_are_extremes
    (periodKey : Z -> string) (gains : list Performance.Gain) :
  let chart := Performance.chartData periodKey gains in
  Forall (fun c => ~ (periodTotal c == 0)%Q) chart ->
  match Performance.s_bestMonth (Performance.summary periodKey gains) with
  | Some best =>
      In best (map periodTotal chart) /\
      Forall (fun c => (periodTotal c <= best)%Q) chart
  | None => chart = []
  end /\
  match Performance.s_worstMonth (Performance.summary periodKey gains) with
  | Some worst =>
      In worst (map periodTotal chart) /\
      Forall (fun c => (worst <= periodTotal c)%Q) chart
  | None => chart = []
  end.
Proof.
  intros chart Hnz.
  unfold Performance.summary. cbv zeta.
  cbn [Performance.s_bestMonth Performance.s_worstMonth]. fold chart.
  pose proof (bestStep_fold chart [] None Hnz eq_refl) as Hb.
  pose proof (worstStep_fold chart [] None Hnz eq_refl) as Hw.
  cbn [app] in Hb, Hw. split.
  - destruct (fold_left Performance.bestStep chart None) as [b|]; [|exact Hb].
    destruct Hb as [Hin Hmax]. split; [|exact Hmax].
    apply in_map_iff. exists b. split; [reflexivity | exact Hin].
  - destruct (fold_left Performance.worstStep chart None) as [w|]; [|exact Hw].
    destruct Hw as [Hin Hmin]. split; [|exact Hmin].
    apply in_map_iff. exists w. split; [reflexivity | exact Hin].
Qed.

Lemma best_and_worst_month_are_extremes_witness :
  let key := fun d : Z => if d <? 10 then "2024-01" else "2024-02" in
  let gain := fun (d : Z) (x : Q) =>
    Performance.mkGain
      (mkCapitalGain "XYZ" "Xyz" false None d 0 1 0 0 0 x 0 false "AU") x in
  let gains := [gain 1 5%Q; gain 2 (-2)%Q; gain 11 (-4)%Q] in
  match Performance.s_bestMonth (Performance.summary key gains) with
  | Some best =>
      Forall (fun c => (periodTotal c <= best)%Q) (Performance.chartData key gains)
  | None => False
  end.
Proof.
  intros key gain gains.
  destruct (best_and_worst_month_are_extremes key gains) as [Hbest _].
  - repeat constructor; vm_compute; discriminate.
  - destruct (Performance.s_bestMonth (Performance.summary key gains)) as [best|] eqn:E.
    + exact (proj2 Hbest).
    + vm_compute in E. discriminate.
Defined.

(** ** The reporter against the FIFO engine *)

Lemma matchingLots_totals (queue : list Holding) (holdings : list Lot) :
  matchingLots queue holdings ->
  (totalQty holdings == queueQty queue)%Q /\ (totalCost holdings == queueCost queue)%Q.
Proof.
  induction 1 as [|h l q hs (_ & Hq & Hc & _) _ [IHq IHc]].
  - split; reflexivity.
  - unfold totalQty, totalCost, queueQty, queueCost in *. cbn [map].
    rewrite !sumQ_cons, IHq, IHc, Hq, Hc. split; reflexivity.
Qed.

Lemma loops_in_step (info : option OptionsInfo) (t : Trade) (p f : Q)
    (queue : list Holding) (holdings : list Lot) :
  matchingLots queue holdings ->
  forall (fuel1 fuel2 : nat) (rem1 rem2 total : Q) (emitted : list CapitalGain),
    (length queue < fuel1)%nat -> (length holdings < fuel2)%nat ->
    (rem1 == rem2)%Q -> (0 <= rem1 <= queueQty queue)%Q ->
    exists r1 queue' total' r2 holdings' new,
      sellLoop fuel1 rem1 queue total = Ok (r1, queue', total') /\
      reportLoop fuel2 info t p f rem2 holdings emitted
      = Ok (r2, holdings', emitted ++ new) /\
      matchingLots queue' holdings' /\
      (r1 == 0)%Q /\
      (sumQ (map r_costBasis new) == total' - total)%Q /\
      (sumQ (map r_qty new) == rem1)%Q.
Proof.
  induction 1 as [|h l q hs (Hpos & Hq & Hc & Hcons) Hrest IH];
    intros fuel1 fuel2 rem1 rem2 total emitted Hf1 Hf2 Hrem Hrange.
  - destruct fuel1 as [|f1]; [simpl in Hf1; lia|].
    destruct fuel2 as [|f2]; [simpl in Hf2; lia|].
    exists rem1, [], total, rem2, [], []. cbn [sellLoop reportLoop].
    rewrite app_nil_r. unfold queueQty in Hrange. cbn [map] in Hrange.
    rewrite sumQ_nil in Hrange. cbn [map]. rewrite sumQ_nil.
    split; [reflexivity|]. split; [reflexivity|]. split; [constructor|].
    split; [lra|]. split; [ring | lra].
  - destruct fuel1 as [|f1]; [simpl in Hf1; lia|].
    destruct fuel2 as [|f2]; [simpl in Hf2; lia|].
    cbn [length] in Hf1, Hf2. rewrite queueQty_cons in Hrange.
    cbn [sellLoop reportLoop].
    destruct (Qlt_le_dec 0 rem1) as [Hgt | Hle].
    + rewrite (proj2 (Qgtb_true rem1 0) Hgt).
      rewrite (proj2 (Qgtb_true rem2 0) ltac:(lra)).
      cbv zeta. cbn [h_qty l_qty h_costBasis l_cost].
      set (c1 := Qmin rem1 (h_qty h)).
      set (c2 := Qmin rem2 (l_qty l)).
      assert (H1 : (c1 <= rem1)%Q /\ (c1 <= h_qty h)%Q
                   /\ ((c1 == rem1)%Q \/ (c1 == h_qty h)%Q)).
      { unfold c1. destruct (Qmin_cases rem1 (h_qty h)) as [[Hl ->] | [Hl ->]].
        - split; [lra|]. split; [lra|]. left. reflexivity.
        - split; [lra|]. split; [lra|]. right. reflexivity. }
      assert (H2 : (c2 <= rem2)%Q /\ (c2 <= l_qty l)%Q
                   /\ ((c2 == rem2)%Q \/ (c2 == l_qty l)%Q)).
      { unfold c2. destruct (Qmin_cases rem2 (l_qty l)) as [[Hl ->] | [Hl ->]].
        - split; [lra|]. split; [lra|]. left. reflexivity.
        - split; [lra|]. split; [lra|]. right. reflexivity. }
      destruct H1 as (H1a & H1b & H1c). destruct H2 as (H2a & H2b & H2c).
      assert (Hcc : (c1 == c2)%Q) by (destruct H1c, H2c; lra).
      assert (Hlq : ~ (l_qty l == 0)%Q) by lra.
      assert (Hcost : (l_cost l / l_qty l * c2 == h_costPerShare h * c1)%Q).
      { rewrite <- Hcc, <- Hc, Hcons, <- Hq. field. lra. }
      match goal with
      | |- context [reportLoop _ _ _ _ _ _ _ (emitted ++ [?r])] => set (rec := r)
      end.
      assert (Hrc : (r_costBasis rec == h_costPerShare h * c1)%Q) by exact Hcost.
      assert (Hrq : (r_qty rec == c1)%Q) by (symmetry; exact Hcc).
      destruct (Qle_bool (h_qty h - c1) 0) eqn:P1;
        destruct (Qeq_bool (l_qty l - c2) 0) eqn:P2.
      * apply Qle_bool_iff in P1.
        destruct (IH f1 f2 (rem1 - c1)%Q (rem2 - c2)%Q
                    (total + h_costPerShare h * c1)%Q (emitted ++ [rec])
                    ltac:(lia) ltac:(lia) ltac:(lra) ltac:(lra))
          as (r1 & q' & t' & r2 & hs' & new & Hs & Hr & Hm & Hr1 & Hcb & Hqs).
        exists r1, q', t', r2, hs', (rec :: new).
        split; [exact Hs|].
        split; [rewrite <- app_assoc in Hr; exact Hr|].
        split; [exact Hm|]. split; [exact Hr1|].
        cbn [map]. rewrite !sumQ_cons, Hcb, Hqs, Hrc, Hrq. split; ring.
      * exfalso. apply Qle_bool_iff in P1.
        assert (He : (l_qty l - c2 == 0)%Q) by lra.
        apply Qeq_bool_iff in He. congruence.
      * exfalso. apply Qeq_bool_iff in P2.
        assert (He : (h_qty h - c1 <= 0)%Q) by lra.
        apply Qle_bool_iff in He. congruence.
      * assert (Hn1 : ~ (h_qty h - c1 <= 0)%Q).
        { intros He. apply Qle_bool_iff in He. congruence. }
        assert (Hc1 : (c1 == rem1)%Q) by (destruct H1c; [assumption | lra]).
        destruct f1 as [|f1]; [lia|]. destruct f2 as [|f2]; [lia|].
        cbn [sellLoop reportLoop].
        rewrite (proj2 (Qgtb_false (rem1 - c1) 0) ltac:(lra)).
        rewrite (proj2 (Qgtb_false (rem2 - c2) 0) ltac:(lra)).
        eexists _, _, _, _, _, [rec].
        split; [reflexivity|]. split; [reflexivity|].
        split.
        { constructor; [|exact Hrest].
          cbn [h_qty l_qty h_costBasis l_cost h_costPerShare].
          split; [lra|]. split; [lra|]. split; [rewrite Hcost, Hc; ring|].
          rewrite Hcons. ring. }
        split; [lra|]. cbn [map]. rewrite !sumQ_cons, !sumQ_nil, Hrc, Hrq.
        split; [ring | lra].
    + rewrite (proj2 (Qgtb_false rem1 0) Hle).
      rewrite (proj2 (Qgtb_false rem2 0) ltac:(lra)).
      exists rem1, (h :: q), total, rem2, (l :: hs), []. rewrite app_nil_r.
      split; [reflexivity|]. split; [reflexivity|].
      split; [constructor; [repeat split; assumption | exact Hrest]|].
      cbn [map]. rewrite sumQ_nil. split; [lra|]. split; [ring | lra].
Qed.

Lemma fifo_and_report_in_step (cs ce : Z) (info : option OptionsInfo) (l : list Trade) :
  forall (st : FifoState) (hs : list Lot) (recs : list CapitalGain),
    matchingLots (holdingsQueue st) hs ->
    coveredHistory (queueQty (holdingsQueue st)) l ->
    Forall (fun t => (0 < qty t)%Q) l ->
    Forall (fun t => side t = "Sell" -> inWindow cs ce t = true) l ->
    Forall audTrade l ->
    exists st' hs' new,
      foldM fifoStep l st = Ok st' /\
      foldM (reportStep cs ce info) l (hs, recs) = Ok (hs', recs ++ new) /\
      matchingLots (holdingsQueue st') hs' /\
      (sumQ (map r_capitalGain new) == realizedTotal st' - realizedTotal st)%Q.
Proof.
  induction l as [|t l IH]; intros st hs recs Hm Hcov Hqty Hwin Haud.
  - exists st, hs, []. cbn [foldM]. rewrite app_nil_r.
    split; [reflexivity|]. split; [reflexivity|]. split; [exact Hm|].
    cbn [map]. rewrite sumQ_nil. ring.
  - destruct Hcov as (_ & Hs & Hr).
    inversion Hqty as [|? ? Hqt Hqty']; subst.
    inversion Hwin as [|? ? Hwt Hwin']; subst.
    inversion Haud as [|? ? (Ha & Hco & Hfe) Haud']; subst.
    assert (Hstep : exists st1 hs1 new1,
              fifoStep st t = Ok st1 /\
              reportStep cs ce info (hs, recs) t = Ok (hs1, recs ++ new1) /\
              matchingLots (holdingsQueue st1) hs1 /\
              (queueQty (holdingsQueue st1)
               == queueQty (holdingsQueue st) + signedQty t)%Q /\
              (sumQ (map r_capitalGain new1)
               == realizedTotal st1 - realizedTotal st)%Q).
    { unfold fifoStep, reportStep, signedQty, realizedTotal.
      destruct (String.eqb_spec (side t) "Buy") as [Hbuy | _].
      - eexists _, _, []. rewrite app_nil_r.
        split; [reflexivity|]. split; [reflexivity|].
        cbn [holdingsQueue realizedPnLByCurrency].
        split.
        { apply Forall2_app; [exact Hm|]. constructor; [|constructor].
          cbn [h_qty l_qty h_costBasis l_cost h_costPerShare].
          split; [exact Hqt|]. split; [reflexivity|].
          split; [rewrite Ha, Hco, Hfe; reflexivity|]. field. lra. }
        split.
        { rewrite queueQty_app. unfold queueQty at 2. cbn [map].
          rewrite sumQ_cons, sumQ_nil. cbn [h_qty]. ring. }
        cbn [map]. rewrite sumQ_nil. ring.
      - destruct (String.eqb_spec (side t) "Sell") as [Hsell | _].
        + specialize (Hs Hsell). rewrite (Hwt Hsell).
          set (p := if Qgtb (qty t) 0 then (amountAUD t / qty t)%Q else 0%Q).
          set (f := (commissionAUD t + feesAUD t)%Q).
          destruct (loops_in_step info t p f (holdingsQueue st) hs Hm
                      (sellFuel (holdingsQueue st)) (lotFuel hs) (qty t) (qty t) 0%Q []
                      ltac:(unfold sellFuel; lia) ltac:(unfold lotFuel; lia)
                      ltac:(reflexivity) Hs)
            as (r1 & q' & t' & r2 & hs' & new & Hrun1 & Hrun2 & Hm' & Hr1 & Hcb & Hqs).
          cbn [app] in Hrun2.
          destruct (reportLoop_records info t p f (fun _ => True) _ _ _ _ _ _ _ Hrun2)
            as (_ & new' & Hout & Hrec & _).
          { apply List.Forall_forall. intros; exact I. }
          cbn [app] in Hout. subst new'.
          destruct (sellLoop_quantity (holdingsQueue st) (sellFuel (holdingsQueue st))
                      (qty t) 0%Q ltac:(unfold sellFuel; lia) ltac:(lra))
            as (r3 & q3 & t3 & Hrun3 & Hq3 & _).
          rewrite Hrun1 in Hrun3. injection Hrun3 as <- <- <-.
          rewrite Hrun1. unfold reportSell. fold p. fold f. rewrite Hrun2.
          unfold mbind, Outcome_bind. cbv beta iota zeta.
          rewrite (proj2 (Qgtb_false r1 0) ltac:(lra)).
          exists {| holdingsQueue := q';
                    realizedPnLByCurrency :=
                      addTo (tradeCurrencyOf t)
                        (amount t - commission t - fees t - t')%Q
                        (realizedPnLByCurrency st);
                    buyVolumeByCurrency := buyVolumeByCurrency st;
                    sellVolumeByCurrency :=
                      addTo (tradeCurrencyOf t) (amount t) (sellVolumeByCurrency st);
                    totalBuyAmount := totalBuyAmount st;
                    totalBuyQty := totalBuyQty st |}, hs', new.
          split; [reflexivity|]. split; [reflexivity|].
          cbn [holdingsQueue realizedPnLByCurrency].
          split; [exact Hm'|]. split; [rewrite Hq3; lra|].
          rewrite addTo_total.
          assert (Hgain : (sumQ (map r_capitalGain new)
                           == sumQ (map r_proceeds new) - sumQ (map r_costBasis new))%Q).
          { apply sumQ_difference. eapply List.Forall_impl; [|exact Hrec].
            intros r (_ & Hg & _). exact Hg. }
          assert (Hshare : (sumQ (map r_proceeds new)
                            == sumQ (map r_qty new) * p
                               - f * (sumQ (map r_qty new) / qty t))%Q).
          { apply sumQ_shares. eapply List.Forall_impl; [|exact Hrec].
            intros r (Hp & _). exact Hp. }
          rewrite Hgain, Hshare, Hqs, Hcb. unfold p, f.
          rewrite (proj2 (Qgtb_true (qty t) 0) Hqt), Ha, Hco, Hfe.
          field. lra.
        + exists st, hs, []. rewrite app_nil_r.
          split; [reflexivity|]. split; [reflexivity|]. split; [exact Hm|].
          split; [ring|]. cbn [map]. rewrite sumQ_nil. ring. }
    destruct Hstep as (st1 & hs1 & new1 & H1 & R1 & Hm1 & Hq1 & Hg1).
    destruct (IH st1 hs1 (recs ++ new1) Hm1) as (st' & hs' & new & H2 & R2 & Hm2 & Hg2);
      [|exact Hqty'|exact Hwin'|exact Haud'|].
    { apply (coveredHistory_equiv l (queueQty (holdingsQueue st) + signedQty t)%Q);
        [now symmetry | exact Hr]. }
    exists st', hs', (new1 ++ new). cbn [foldM]. rewrite H1, R1.
    unfold mbind, Outcome_bind. rewrite H2, R2, app_assoc.
    split; [reflexivity|]. split; [reflexivity|]. split; [exact Hm2|].
    rewrite map_app, sumQ_app, Hg1, Hg2. ring.
Qed.

(** X18.  The report and the summary agree on a symbol traded in AUD:
    when every trade has a positive quantity, no sell exceeds what is
    held, and every sell falls inside the report window, the capital
    gains of the records add up to the realized P&L of the FIFO engine,
    and both leave lots of the same total quantity and total cost. *)
Theorem report_gains_equal_fifo_realized
    (cs ce : Z) (info : option OptionsInfo) (group : list Trade) :
  coveredHistory 0 (sortByDate group) ->
  Forall (fun t => (0 < qty t)%Q) group ->
  Forall (fun t => side t = "Sell" -> inWindow cs ce t = true) group ->
  Forall audTrade group ->
  exists st hs recs,
    replayFIFO group = Ok st /\
    foldM (reportStep cs ce info) (sortByDate group) ([], []) = Ok (hs, recs) /\
    (sumQ (map r_capitalGain recs) == realizedTotal st)%Q /\
    (totalQty hs == queueQty (holdingsQueue st))%Q /\
    (totalCost hs == queueCost (holdingsQueue st))%Q.
Proof.
  intros Hcov Hqty Hwin Haud.
  assert (Hsorted : forall P : Trade -> Prop,
            Forall P group -> Forall P (sortByDate group)).
  { intros P HP. apply List.Forall_forall. intros x Hx.
    apply (proj1 (List.Forall_forall P group) HP).
    eapply Permutation_in; [|exact Hx].
    apply Permutation_sym, sortByDate_perm. }
  destruct (fifo_and_report_in_step cs ce info (sortByDate group)
              initialFifoState [] [] ltac:(constructor) Hcov
              (Hsorted _ Hqty) (Hsorted _ Hwin) (Hsorted _ Haud))
    as (st & hs & recs & Hrun & Hrep & Hm & Hg).
  destruct (matchingLots_totals _ _ Hm) as [Htq Htc].
  exists st, hs, recs. cbn [app] in Hrep.
  split; [exact Hrun|]. split; [exact Hrep|].
  split; [|split; assumption].
  rewrite Hg.
  assert (H0 : (realizedTotal initialFifoState == 0)%Q) by reflexivity.
  rewrite H0. ring.
Qed.

Lemma report_gains_equal_fifo_realized_witness :
  let group := [plainTrade "Buy" "XYZ" "AU" 100 10 (utcMidnight 2024 1 2);
                plainTrade "Buy" "XYZ" "AU" 50 12 (utcMidnight 2024 1 3);
                plainTrade "Sell" "XYZ" "AU" 120 20 (utcMidnight 2024 1 4)] in
  exists st hs recs,
    replayFIFO group = Ok st /\
    foldM (reportStep (utcMidnight 2023 7 1) (utcMidnight 2024 7 1) None)
      (sortByDate group) ([], []) = Ok (hs, recs) /\
    (sumQ (map r_capitalGain recs) == realizedTotal st)%Q.
Proof.
  intros group.
  destruct (report_gains_equal_fifo_realized
              (utcMidnight 2023 7 1) (utcMidnight 2024 7 1) None group)
    as (st & hs & recs & Hrun & Hrep & Hg & _).
  - simpl. repeat split; intros; try discriminate; vm_compute; try discriminate;
      try reflexivity.
  - repeat constructor.
  - repeat constructor; intros; reflexivity.
  - repeat constructor.
  - exists st, hs, recs. split; [exact Hrun|]. split; [exact Hrep | exact Hg].
Defined.
